(** * The data-access layer of the leader-rating site

    A shallow embedding of the server-side modules (leaders, settings,
    notifications, polls, support tickets, users).  Every exported operation
    of the TypeScript source is a short sequence of calls on the table-query
    client followed by a reshaping of the rows.  The client itself is a
    third-party library: it is modelled here by a store of tables of JS
    objects, and every call on it may report an error.

    Conventions.
    - A JS object is a finite map from property names to values; a property
      that is [undefined] is an absent key ([o !! k = None]).
    - A number in a row is the rational it denotes.  The arithmetic the
      code does on ratings, percentages and hours is that of IEEE-754
      binary64 ([double], [binary64]): every operation rounds to the
      nearest representable number, and may give [NaN] or an infinity.
    - A timestamp (a [timestamptz] column, or a string that [new Date]
      parses) is a [VTime] holding its number of milliseconds since the
      epoch; a [VStr] is text that is not a date.
    - [console.error] has no effect on the store or on results and is left
      out. *)

From Stdlib Require Import Ascii QArith Qround Qabs Qpower Lia Lqa.
From Corelib Require SpecFloat.
From stdpp Require Import base gmap list strings option pretty sorting.

Local Open Scope string_scope.

(** ** JS values and objects *)

(** A previous election, as entered in the leader form. *)
Record Election := {
  e_electionType : string;
  e_constituency : string;
  e_status : string;
  e_electionYear : string;
  e_partyName : string;
}.

#[warnings="-register-all"]
Inductive value :=
| VNull
| VBool (b : bool)
| VNum (q : Q)
| VStr (s : string)
| VTime (t : Z)                     (* an ISO timestamp, in ms since the epoch *)
| VJson (es : list Election)        (* the text JSON.stringify gives for [es] *)
| VArr (l : list value)
| VObj (o : gmap string value).

Abbreviation obj := (gmap string value).

(** [null] for an absent string, as in [string | null]. *)
Definition nullable (s : option string) : value :=
  match s with Some x => VStr x | None => VNull end.

(** A string that may be a date: text, or the timestamp that [new Date]
    reads from it. *)
Inductive jsstring := Text (s : string) | Stamp (t : Z).

Definition string_value (s : jsstring) : value :=
  match s with Text x => VStr x | Stamp t => VTime t end.

Definition VInt (z : Z) : value := VNum (inject_Z z).
Definition VNat (n : nat) : value := VInt (Z.of_nat n).

(** Truthiness of a property read ([None] is [undefined]). *)
Definition truthy (v : option value) : bool :=
  match v with
  | None | Some VNull => false
  | Some (VBool b) => b
  | Some (VNum q) => negb (Qeq_bool q 0)
  | Some (VStr s) => negb (String.eqb s "")
  | Some (VTime _) | Some (VJson _) | Some (VArr _) | Some (VObj _) => true
  end.

(** [a || b] *)
Definition js_or (a b : option value) : option value :=
  if truthy a then a else b.

(** An object literal: a field whose value is [undefined] is left out, as it
    is when the object is serialised for the store. *)
Definition literal (fs : list (string * option value)) : obj :=
  list_to_map (omap (λ '(k, v), (k,.) <$> v) fs).

(** Number read of a numeric column. *)
Definition to_num (v : option value) : Q :=
  match v with Some (VNum q) => q | _ => 0%Q end.

(** ** Strings *)

Definition is_upper (a : Ascii.ascii) : bool :=
  let n := Ascii.nat_of_ascii a in (65 <=? n)%nat && (n <=? 90)%nat.
Definition is_lower (a : Ascii.ascii) : bool :=
  let n := Ascii.nat_of_ascii a in (97 <=? n)%nat && (n <=? 122)%nat.
Definition lower_ascii (a : Ascii.ascii) : Ascii.ascii :=
  if is_upper a then Ascii.ascii_of_nat (Ascii.nat_of_ascii a + 32) else a.
Definition upper_ascii (a : Ascii.ascii) : Ascii.ascii :=
  if is_lower a then Ascii.ascii_of_nat (Ascii.nat_of_ascii a - 32) else a.

Fixpoint toLowerCase (s : string) : string :=
  match s with
  | EmptyString => EmptyString
  | String a r => String (lower_ascii a) (toLowerCase r)
  end.

(** White space and line terminators, as [trim] knows them.  A string is
    the sequence of its UTF-8 bytes: the tab, the line feed, the vertical
    tab, the form feed, the carriage return and the space take one byte... *)
Definition is_space (a : Ascii.ascii) : bool :=
  let n := Ascii.nat_of_ascii a in
  (n =? 32)%nat || ((9 <=? n)%nat && (n <=? 13)%nat).

(** ... U+00A0 takes two... *)
Definition is_space2 (a b : Ascii.ascii) : bool :=
  (Ascii.nat_of_ascii a =? 194)%nat && (Ascii.nat_of_ascii b =? 160)%nat.

(** ... and U+1680, U+2000 to U+200A, U+2028, U+2029, U+202F, U+205F,
    U+3000 and U+FEFF take three. *)
Definition is_space3 (a b c : Ascii.ascii) : bool :=
  let x := Ascii.nat_of_ascii a in
  let y := Ascii.nat_of_ascii b in
  let z := Ascii.nat_of_ascii c in
  ((x =? 225) && (y =? 154) && (z =? 128))%nat
  || ((x =? 226) && (y =? 128)
      && (((128 <=? z) && (z <=? 138)) || (z =? 168) || (z =? 169) || (z =? 175)))%nat
  || ((x =? 226) && (y =? 129) && (z =? 159))%nat
  || ((x =? 227) && (y =? 128) && (z =? 128))%nat
  || ((x =? 239) && (y =? 187) && (z =? 191))%nat.

Fixpoint trimStart (s : string) : string :=
  match s with
  | String a r =>
    if is_space a then trimStart r
    else
      match r with
      | String b r' =>
        if is_space2 a b then trimStart r'
        else
          match r' with
          | String c r'' => if is_space3 a b c then trimStart r'' else s
          | EmptyString => s
          end
      | EmptyString => s
      end
  | EmptyString => EmptyString
  end.

(** [trimEnd], on the bytes of the string from the last to the first. *)
Fixpoint trimEnd_rev (s : string) : string :=
  match s with
  | String c r =>
    if is_space c then trimEnd_rev r
    else
      match r with
      | String b r' =>
        if is_space2 b c then trimEnd_rev r'
        else
          match r' with
          | String a r'' => if is_space3 a b c then trimEnd_rev r'' else s
          | EmptyString => s
          end
      | EmptyString => s
      end
  | EmptyString => EmptyString
  end.

Definition trim (s : string) : string :=
  String.rev (trimEnd_rev (String.rev (trimStart s))).

(** [name.charAt(0).toUpperCase() + name.slice(1)] *)
Definition capitalize (s : string) : string :=
  match s with
  | String a r => String (upper_ascii a) r
  | EmptyString => EmptyString
  end.

Fixpoint is_prefix (p s : string) : bool :=
  match p, s with
  | EmptyString, _ => true
  | String a p', String b s' => Ascii.eqb a b && is_prefix p' s'
  | String _ _, EmptyString => false
  end.

Fixpoint contains (p s : string) : bool :=
  is_prefix p s || match s with String _ s' => contains p s' | EmptyString => false end.

(** [s.split(c)[0]] *)
Fixpoint before (c : Ascii.ascii) (s : string) : string :=
  match s with
  | EmptyString => EmptyString
  | String a r => if Ascii.eqb a c then EmptyString else String a (before c r)
  end.

(** ** The store and the calls on it *)

Abbreviation Store := (gmap string (list obj)).

Definition rows (s : Store) (t : string) : list obj := default [] (s !! t).

(** The store together with the errors it is going to report: the n-th call
    issued on the store fails when the n-th flag is set (and no call fails
    once the flags are used up).  A failing call leaves the store as it is. *)
Record World := { db : Store; faults : list bool }.

Inductive outcome (A : Type) :=
| Ok (a : A)
| Throw (msg : string).
Arguments Ok {A} a.
Arguments Throw {A} msg.

Definition M (A : Type) : Type := World → outcome A * World.

Definition ret {A} (a : A) : M A := λ w, (Ok a, w).
Definition throw {A} (msg : string) : M A := λ w, (Throw msg, w).
Definition bind {A B} (c : M A) (k : A → M B) : M B :=
  λ w, match c w with
       | (Ok a, w') => k a w'
       | (Throw e, w') => (Throw e, w')
       end.
Definition try_catch {A} (c : M A) (h : string → M A) : M A :=
  λ w, match c w with
       | (Ok a, w') => (Ok a, w')
       | (Throw e, w') => h e w'
       end.

Notation "'do' x <- c ; k" := (bind c (λ x, k))
  (at level 10, x name, c at level 100, k at level 200, only parsing).

(** What a call resolves to: [{ data, error }]. *)
Record response (A : Type) := { data : option A; error : bool }.
Arguments data {A} r.
Arguments error {A} r.

Definition failed {A} : response A := {| data := None; error := true |}.
Definition fetched {A} (a : A) : response A := {| data := Some a; error := false |}.

(** One round trip: take the next fault flag; on a fault report an error and
    leave the store alone, otherwise run [f] on the store. *)
Definition call {A} (f : Store → response A * Store) : M (response A) :=
  λ w, match faults w with
       | true :: fs => (Ok failed, {| db := db w; faults := fs |})
       | false :: fs => let '(r, s) := f (db w) in (Ok r, {| db := s; faults := fs |})
       | [] => let '(r, s) := f (db w) in (Ok r, {| db := s; faults := [] |})
       end.

(** *** Filters *)

Definition value_eqb (a b : value) : bool :=
  match a, b with
  | VBool x, VBool y => Bool.eqb x y
  | VNum x, VNum y => Qeq_bool x y
  | VStr x, VStr y => String.eqb x y
  | VTime x, VTime y => Z.eqb x y
  | _, _ => false
  end.

Definition value_ltb (a b : value) : bool :=
  match a, b with
  | VNum x, VNum y => negb (Qle_bool y x)
  | VStr x, VStr y => String.ltb x y
  | VTime x, VTime y => Z.ltb x y
  | VBool x, VBool y => negb x && y
  | _, _ => false
  end.

Definition value_leb (a b : value) : bool := value_ltb a b || value_eqb a b.

Definition column (c : string) (test : value → bool) : obj → bool :=
  λ r, match r !! c with Some x => test x | None => false end.

Definition f_eq (c : string) (v : value) : obj → bool := column c (λ x, value_eqb x v).
Definition f_neq (c : string) (v : value) : obj → bool :=
  column c (λ x, match x with VNull => false | _ => negb (value_eqb x v) end).
Definition f_lt (c : string) (v : value) : obj → bool := column c (λ x, value_ltb x v).
Definition f_lte (c : string) (v : value) : obj → bool := column c (λ x, value_leb x v).
Definition f_gt (c : string) (v : value) : obj → bool := column c (λ x, value_ltb v x).
Definition f_gte (c : string) (v : value) : obj → bool := column c (λ x, value_leb v x).
Definition f_in (c : string) (vs : list value) : obj → bool :=
  column c (λ x, existsb (value_eqb x) vs).
Definition f_is_null (c : string) : obj → bool :=
  λ r, match r !! c with Some VNull | None => true | Some _ => false end.
Definition f_not_null (c : string) : obj → bool := λ r, negb (f_is_null c r).
(** [ilike] with the pattern [%term%]. *)
Definition f_ilike (c : string) (term : string) : obj → bool :=
  column c (λ x, match x with
                 | VStr s => contains (toLowerCase term) (toLowerCase s)
                 | _ => false
                 end).
Definition f_and (p q : obj → bool) : obj → bool := λ r, p r && q r.
Definition f_or (p q : obj → bool) : obj → bool := λ r, p r || q r.
Definition f_all : obj → bool := λ _, true.

(** *** Ordering *)

Fixpoint insert_by {A} (le : A → A → bool) (x : A) (l : list A) : list A :=
  match l with
  | [] => [x]
  | y :: l' => if le x y then x :: l else y :: insert_by le x l'
  end.

(** A stable sort, as [Array.prototype.sort] is. *)
Definition sort_by {A} (le : A → A → bool) (l : list A) : list A :=
  foldr (insert_by le) [] l.

Definition key_leb (c : string) (ascending : bool) (a b : obj) : bool :=
  match a !! c, b !! c with
  | Some x, Some y => if ascending then value_leb x y else value_leb y x
  | _, _ => true
  end.

Definition order (c : string) (ascending : bool) : list obj → list obj :=
  sort_by (key_leb c ascending).

Definition unordered : list obj → list obj := λ l, l.

(** *** Selections *)

(** What a select returns for a matching row: its columns, possibly cut
    down, possibly with the rows of related tables embedded; [None] when an
    inner join finds no partner. *)
Definition shape := Store → obj → option obj.

Definition project (cs : list string) (r : obj) : obj :=
  filter (λ kv, kv.1 ∈ cs) r.

Definition star : shape := λ _ r, Some r.
Definition columns (cs : list string) : shape := λ _ r, Some (project cs r).

Definition query (s : Store) (t : string) (sh : shape) (p : obj → bool)
    (ord : list obj → list obj) : list obj :=
  omap (sh s) (ord (List.filter p (rows s t))).

(** [from(t).select(...)] with its filters and ordering. *)
Definition db_select (t : string) (sh : shape) (p : obj → bool)
    (ord : list obj → list obj) : M (response (list obj)) :=
  call (λ s, (fetched (query s t sh p ord), s)).

(** [.single()]: an error unless exactly one row matches. *)
Definition db_single (t : string) (sh : shape) (p : obj → bool) : M (response obj) :=
  call (λ s, match query s t sh p unordered with
             | [r] => (fetched r, s)
             | _ => (failed, s)
             end).

(** [select('*', { count: 'exact', head: true })] *)
Definition db_count (t : string) (sh : shape) (p : obj → bool) : M (response nat) :=
  call (λ s, (fetched (length (query s t sh p unordered)), s)).

(** *** Writes *)

Definition set_rows (t : string) (rs : list obj) (s : Store) : Store := <[t := rs]> s.

Definition db_insert (t : string) (new : list obj) : M (response unit) :=
  call (λ s, (fetched (), set_rows t (rows s t ++ new) s)).

(** [insert(row).select().single()] *)
Definition db_insert_returning (t : string) (new : obj) : M (response obj) :=
  call (λ s, (fetched new, set_rows t (rows s t ++ [new]) s)).

(** [update(patch)]: the columns of the patch replace those of every
    matching row. *)
Definition patch_row (p : obj → bool) (patch : obj) (r : obj) : obj :=
  if p r then patch ∪ r else r.

Definition db_update (t : string) (patch : obj) (p : obj → bool) : M (response unit) :=
  call (λ s, (fetched (), set_rows t (patch_row p patch <$> rows s t) s)).

Definition db_delete (t : string) (p : obj → bool) : M (response unit) :=
  call (λ s, (fetched (), set_rows t (List.filter (λ r, negb (p r)) (rows s t)) s)).

(** Two rows conflict when they agree on every column of the key. *)
Definition same_key (key : list string) (a b : obj) : bool :=
  forallb (λ c, match a !! c, b !! c with
                | Some x, Some y => value_eqb x y
                | _, _ => false
                end) key.

(** [upsert(row, { onConflict: key })]: update the conflicting row, or insert. *)
Definition upsert_rows (key : list string) (new : obj) (rs : list obj) : list obj :=
  if existsb (same_key key new) rs
  then patch_row (same_key key new) new <$> rs
  else rs ++ [new].

Definition db_upsert (t : string) (key : list string) (new : list obj) : M (response unit) :=
  call (λ s, (fetched (), set_rows t (foldl (λ rs r, upsert_rows key r rs) (rows s t) new) s)).

(** Modelled from the spec: the table definitions of [ratings] and
    [comments] are not part of the sources.  The spec calls a rating "a
    per-user, per-leader numeric score" and relies on "primary-key
    uniqueness"; an upsert without [onConflict] resolves conflicts on the
    primary key, taken here to be the pair (userId, leaderId) for both
    tables and [id] for every other table. *)
Definition pkey (t : string) : list string :=
  if String.eqb t "ratings" || String.eqb t "comments"
  then ["userId"; "leaderId"]
  else ["id"].

(** [new Date().getTime().toString()] *)
Definition time_id (now : Z) : string := pretty now.

(** Optional chaining into an embedded object: [v?.k] *)
Definition field (k : string) (v : option value) : option value :=
  match v with Some (VObj o) => o !! k | _ => None end.

(** [v?.[0]] *)
Definition first (v : option value) : option value :=
  match v with Some (VArr (x :: _)) => Some x | _ => None end.

Definition VRows (rs : list obj) : value := VArr (VObj <$> rs).

(** The rows of table [t] whose column [c] holds the value [v]: the far
    side of a foreign key. *)
Definition related (s : Store) (t c : string) (v : option value) : list obj :=
  match v with
  | Some x => List.filter (f_eq c x) (rows s t)
  | None => []
  end.

Definition partner (s : Store) (t c : string) (v : option value) : option obj :=
  head (related s t c v).

(** [d[k] = (d[k] || 0) + 1] on a dictionary kept in insertion order. *)
Fixpoint bump {K} (eqb : K → K → bool) (k : K) (d : list (K * nat)) : list (K * nat) :=
  match d with
  | [] => [(k, 1%nat)]
  | (k', n) :: d' => if eqb k' k then (k', S n) :: d' else (k', n) :: bump eqb k d'
  end.

(** A string that is neither absent nor empty. *)
Definition present (o : option string) : option string :=
  match o with
  | Some s => if String.eqb s "" then None else Some s
  | None => None
  end.

(** ** Numbers

    A JS number is an IEEE-754 binary64 number.  A finite one is given by
    its exact value; the two zeros are identified (they differ only as
    divisors, and the code divides by lengths only). *)
Inductive double := Finite (x : Q) | Infinity (negative : bool) | NaN.

Definition pow2 (e : Z) : Q := (2 ^ e)%Q.

(** The [e] with [2^e <= |x| < 2^(e+1)], for [x] other than 0. *)
Definition exponent (x : Q) : Z :=
  let e := (Z.log2 (Z.abs (Qnum x)) - Z.log2 (Zpos (Qden x)))%Z in
  if Qle_bool (pow2 e) (Qabs x) then e else (e - 1)%Z.

(** The nearest integer, the even one of two. *)
Definition round_even (y : Q) : Z :=
  let n := Qfloor y in
  match (y - inject_Z n ?= 1 # 2)%Q with
  | Lt => n
  | Gt => (n + 1)%Z
  | Eq => if Z.even n then n else (n + 1)%Z
  end.

Definition negative (x : Q) : bool := negb (Qle_bool 0 x).

(** The binary64 number nearest to [x], the one with an even last bit of
    two: 53 significant bits, the last one worth [2^-1074] at least, and an
    infinity when rounding reaches [2^1024]. *)
Definition binary64 (x : Q) : double :=
  if Qeq_bool x 0 then Finite 0
  else
    let ulp := pow2 (Z.max (exponent x) (-1022) - 52) in
    let r := Qred (inject_Z (round_even (x / ulp)) * ulp) in
    if Qle_bool (pow2 1024) (Qabs r) then Infinity (negative x)
    else Finite r.

Module Double.

(** [a + b] *)
Definition add (a b : double) : double :=
  match a, b with
  | Finite x, Finite y => binary64 (x + y)
  | NaN, _ | _, NaN => NaN
  | Infinity s, Infinity s' => if Bool.eqb s s' then Infinity s else NaN
  | Infinity s, Finite _ | Finite _, Infinity s => Infinity s
  end.

(** [- a] *)
Definition opp (a : double) : double :=
  match a with
  | Finite x => Finite (- x)
  | Infinity s => Infinity (negb s)
  | NaN => NaN
  end.

(** [a - b] *)
Definition sub (a b : double) : double := add a (opp b).

(** [a * b] *)
Definition mul (a b : double) : double :=
  match a, b with
  | Finite x, Finite y => binary64 (x * y)
  | NaN, _ | _, NaN => NaN
  | Infinity s, Infinity s' => Infinity (xorb s s')
  | Infinity s, Finite y | Finite y, Infinity s =>
    if Qeq_bool y 0 then NaN else Infinity (xorb s (negative y))
  end.

(** [a / b] *)
Definition div (a b : double) : double :=
  match a, b with
  | Finite x, Finite y =>
    if Qeq_bool y 0 then (if Qeq_bool x 0 then NaN else Infinity (negative x))
    else binary64 (x / y)
  | NaN, _ | _, NaN => NaN
  | Infinity _, Infinity _ => NaN
  | Infinity s, Finite y => Infinity (xorb s (negative y))
  | Finite _, Infinity _ => Finite 0
  end.

(** [a || 0] *)
Definition or_zero (a : double) : double :=
  match a with NaN => Finite 0 | _ => a end.

(** The length of an array, below [2^32]. *)
Definition of_nat (n : nat) : double := Finite (inject_Z (Z.of_nat n)).

End Double.

(** The integer nearest to [x], the larger one of two. *)
Definition round_half_up (x : Q) : Z := Qfloor (x + (1 # 2)).

(** [Math.round(x)] *)
Definition Math_round (x : double) : double :=
  match x with
  | Finite q => Finite (inject_Z (round_half_up q))
  | _ => x
  end.

(** The number [x.toFixed(2)] writes, for [|x| < 10^21]: the multiple of
    1/100 nearest to [x], the one away from zero of two. *)
Definition toFixed2 (x : Q) : Q :=
  if Qle_bool 0 x
  then Qred (inject_Z (round_half_up (x * 100)) / 100)
  else Qred (- (inject_Z (round_half_up (- x * 100)) / 100)).

(** [parseFloat(x.toFixed(2))].  From [10^21] on, and for [NaN] and the
    infinities, [toFixed] writes [x] as [String] does, and [parseFloat]
    reads [x] back. *)
Definition parseFloat_toFixed2 (x : double) : double :=
  match x with
  | Finite q => if Qle_bool (10 ^ 21) (Qabs q) then x else binary64 (toFixed2 q)
  | _ => x
  end.

(** A number in the body of a request: [JSON.stringify] writes [null] for
    [NaN] and the infinities. *)
Definition json_number (x : double) : value :=
  match x with Finite q => VNum q | _ => VNull end.

(** The number [JSON.parse] reads from a numeric column ([null] counts as 0
    in a sum). *)
Definition to_double (v : option value) : double :=
  match v with Some (VNum q) => binary64 q | _ => Finite 0 end.

(** [rows.reduce((sum, r) => sum + r.rating, 0)] *)
Definition sum_ratings (rs : list obj) : double :=
  foldl (λ sum r, Double.add sum (to_double (r !! "rating"))) (Finite 0) rs.

(** A dictionary filled by assignments [d[k] = v], where [v] may be
    [undefined]. *)
Abbreviation dict := (gmap string (option value)).

(** [d.k] *)
Definition read (d : dict) (k : string) : option value := d !! k ≫= id.

(** [for (row of rows) d[row.key] = row.value] *)
Definition assign_rows (rs : list obj) : dict :=
  foldl (λ d (row : obj),
           match row !! "key" with
           | Some (VStr k) => <[k := row !! "value"]> d
           | _ => d
           end) ∅ rs.

(** [{ ...base, ...over }] *)
Definition spread (base : obj) (over : dict) : obj :=
  merge (λ b o, match o with Some v => v | None => b end) base over.

(** [new Date(v)]: [None] is an invalid date. *)
Definition Date (v : option value) : option Z :=
  match v with Some (VTime t) => Some t | _ => None end.

(** [a < b] and [a > b] for [a] a valid date: no comparison with an invalid
    date holds. *)
Definition date_lt (a : Z) (b : option Z) : bool :=
  match b with Some t => (a <? t)%Z | None => false end.
Definition date_gt (a : Z) (b : option Z) : bool :=
  match b with Some t => (t <? a)%Z | None => false end.

(** [v === s] *)
Definition is_string (v : option value) (s : string) : bool :=
  match v with Some (VStr x) => String.eqb x s | _ => false end.

(** The rows of an embedded relation: [v || []] *)
Definition as_rows (v : option value) : list obj :=
  match v with
  | Some (VArr l) => omap (λ x, match x with VObj o => Some o | _ => None end) l
  | _ => []
  end.

(** The property name a value turns into when it indexes a dictionary.
    Ids are text columns; values of the other kinds are not used as ids and
    are not told apart. *)
Definition key_of (v : option value) : string :=
  match v with
  | Some (VStr s) => s
  | Some VNull => "null"
  | Some (VBool true) => "true"
  | Some (VBool false) => "false"
  | None => "undefined"
  | Some _ => ""
  end.

(** [delete().in(c, <query>)], where the query selects the column [c2] of
    the rows of [t2] that match [p2].  The client library is not part of the
    sources, and they do not say what its [in] does when it is handed a
    query in the place of a list of values: the call is read here as the
    sub-select the comment in [deletePoll] describes.  Nothing is proved
    about the rows it deletes. *)
Definition db_delete_in (t c t2 c2 : string) (p2 : obj → bool) : M (response unit) :=
  call (λ s,
    let ids := omap (λ r : obj, r !! c2) (List.filter p2 (rows s t2)) in
    (fetched (), set_rows t (List.filter (λ r, negb (f_in c ids r)) (rows s t)) s)).

(** [if (filters?.startDate && filters?.endDate) query.gte(c, ..).lte(c, ..)] *)
Definition between (c : string) (from to : option Z) : obj → bool :=
  match from, to with
  | Some a, Some b => f_and (f_gte c (VTime a)) (f_lte c (VTime b))
  | _, _ => f_all
  end.

Definition when_present (o : option string) (f : string → obj → bool) : obj → bool :=
  match present o with Some x => f x | None => f_all end.

(** * leaders.ts *)
Module Leaders.

Record Leader := {
  id : option value;
  name : option value;
  partyName : option value;
  gender : option value;
  age : option value;
  photoUrl : option value;
  constituency : option value;
  nativeAddress : option value;
  electionType : option value;
  location_state : option value;
  location_district : option value;
  rating : option value;
  reviewCount : option value;
  previousElections : list Election;
  manifestoUrl : option value;
  twitterUrl : option value;
  addedByUserId : option value;
  createdAt : option value;
  status : option value;
  adminComment : option value;
  userName : option value;
}.

(** The part of a leader that the submitter fills in. *)
Record LeaderData := {
  d_name : string;
  d_partyName : string;
  d_gender : string;
  d_age : Q;
  d_photoUrl : string;
  d_constituency : string;
  d_nativeAddress : string;
  d_electionType : string;
  d_state : option string;
  d_district : option string;
  d_previousElections : list Election;
  d_manifestoUrl : option string;
  d_twitterUrl : option string;
}.

Record Review := {
  rv_userName : option value;
  rv_rating : option value;
  rv_comment : option value;
  rv_updatedAt : option value;
  rv_socialBehaviour : option value;
}.

Record UserActivity := {
  ua_leaderId : option value;
  ua_leaderName : option value;
  ua_leaderPhotoUrl : option value;
  ua_rating : option value;
  ua_comment : option value;
  ua_updatedAt : option value;
  ua_leader : Leader;
  ua_socialBehaviour : option value;
  ua_userName : option value;
}.

Record RatingDistribution := { rd_rating : Z; rd_count : nat }.
Record SocialBehaviourDistribution := { sb_name : string; sb_count : nat }.

Record Filters := {
  startDate : option Z;
  endDate : option Z;
  state : option string;
  f_constituency : option string;
}.

(** JSON text is a [VJson]; any other value under this key reads as the
    empty list. *)
Definition parsePreviousElections (v : option value) : list Election :=
  match v with Some (VJson es) => es | _ => [] end.

Definition dbToLeader (dbLeader : obj) : Leader := {|
  id := dbLeader !! "id";
  name := dbLeader !! "name";
  partyName := js_or (dbLeader !! "partyName") (dbLeader !! "party_name");
  gender := dbLeader !! "gender";
  age := dbLeader !! "age";
  photoUrl := js_or (dbLeader !! "photoUrl") (dbLeader !! "photo_url");
  constituency := dbLeader !! "constituency";
  nativeAddress := js_or (dbLeader !! "nativeAddress") (dbLeader !! "native_address");
  electionType := js_or (dbLeader !! "electionType") (dbLeader !! "election_type");
  location_state := dbLeader !! "location_state";
  location_district := dbLeader !! "location_district";
  rating := js_or (dbLeader !! "rating") (Some (VInt 0));
  reviewCount := js_or (js_or (dbLeader !! "reviewCount") (dbLeader !! "review_count"))
                       (Some (VInt 0));
  previousElections := parsePreviousElections (dbLeader !! "previousElections");
  manifestoUrl := js_or (dbLeader !! "manifestoUrl") (dbLeader !! "manifesto_url");
  twitterUrl := js_or (dbLeader !! "twitterUrl") (dbLeader !! "twitter_url");
  addedByUserId := js_or (dbLeader !! "addedByUserId") (dbLeader !! "added_by_user_id");
  createdAt := js_or (dbLeader !! "createdAt") (dbLeader !! "created_at");
  status := js_or (dbLeader !! "status") (Some (VStr "pending"));
  adminComment := js_or (dbLeader !! "adminComment") (dbLeader !! "admin_comment");
  userName := js_or (dbLeader !! "userName") (dbLeader !! "user_name");
|}.

(** Gets only approved leaders for the public site. *)
Definition getLeaders : M (list Leader) :=
  try_catch
    (do r <- db_select "leaders" star (f_eq "status" (VStr "approved")) unordered;
     if error r then ret []
     else ret (dbToLeader <$> default [] (data r)))
    (λ _, ret []).

(** The columns written by both [addLeader] and [updateLeader]. *)
Definition leaderColumns (d : LeaderData) : list (string * option value) :=
  [ ("name", Some (VStr (d_name d)));
    ("party_name", Some (VStr (d_partyName d)));
    ("gender", Some (VStr (d_gender d)));
    ("age", Some (VNum (d_age d)));
    ("photo_url", Some (VStr (d_photoUrl d)));
    ("constituency", Some (VStr (d_constituency d)));
    ("native_address", Some (VStr (d_nativeAddress d)));
    ("election_type", Some (VStr (d_electionType d)));
    ("location_state", VStr <$> d_state d);
    ("location_district", VStr <$> d_district d) ].

Definition addLeader (leaderData : LeaderData) (userId : option string) (now : Z)
    : M unit :=
  let newLeader := literal (
    [ ("id", Some (VStr (time_id now))) ] ++
    leaderColumns leaderData ++
    [ ("rating", Some (VInt 0));
      ("review_count", Some (VInt 0));
      ("previous_elections", Some (VJson (d_previousElections leaderData)));
      ("manifesto_url", VStr <$> d_manifestoUrl leaderData);
      ("twitter_url", VStr <$> d_twitterUrl leaderData);
      ("added_by_user_id", Some (nullable userId));
      ("created_at", Some (VTime now));
      ("status", Some (VStr "pending"));
      ("admin_comment", Some VNull) ]) in
  do r <- db_insert "leaders" [newLeader];
  if error r then throw "Failed to add leader" else ret ().

Definition getLeaderById (id : string) : M (option Leader) :=
  do r <- db_single "leaders" star (f_eq "id" (VStr id));
  if error r then ret None
  else ret (dbToLeader <$> data r).

(** [a !== b] on a property read and a [string | null] argument. *)
Definition strict_neq (a : option value) (b : option string) : bool :=
  match a, b with
  | Some (VStr x), Some y => negb (String.eqb x y)
  | Some VNull, None => false
  | _, _ => true
  end.

Definition updateLeader (leaderId : string) (leaderData : LeaderData)
    (userId : option string) (isAdmin : bool) : M (option Leader) :=
  do leaderToUpdate <- getLeaderById leaderId;
  match leaderToUpdate with
  | None => throw "Leader not found."
  | Some leaderToUpdate =>
    (* Authorization: only the original submitter or an admin can edit. *)
    if negb isAdmin && strict_neq (addedByUserId leaderToUpdate) userId
    then throw "You are not authorized to edit this leader."
    else
      let newStatus :=
        if isAdmin then status leaderToUpdate else Some (VStr "pending") in
      let newAdminComment :=
        if isAdmin then adminComment leaderToUpdate
        else Some (VStr "User updated details. Pending re-approval.") in
      let updateData := literal (
        leaderColumns leaderData ++
        [ ("previous_elections", Some (VJson (d_previousElections leaderData)));
          ("manifesto_url", VStr <$> d_manifestoUrl leaderData);
          ("twitter_url", VStr <$> d_twitterUrl leaderData);
          ("status", newStatus);
          ("admin_comment", newAdminComment) ]) in
      do r <- db_update "leaders" updateData (f_eq "id" (VStr leaderId));
      if error r then throw "Failed to update leader"
      else getLeaderById leaderId
  end.

(** [comment && comment.trim().length > 0] *)
Definition has_text (comment : option string) : bool :=
  match comment with
  | Some c => negb (String.eqb c "") && (0 <? String.length (trim c))%nat
  | None => false
  end.

Definition submitRatingAndComment (leaderId userId : string) (newRating : Q)
    (comment socialBehaviour : option string) (now : Z) : M (option Leader) :=
  try_catch
    ((* Check if rating already exists *)
     do existingRating <-
       db_single "ratings" (columns ["rating"])
         (f_and (f_eq "userId" (VStr userId)) (f_eq "leaderId" (VStr leaderId)));
     (* Insert or update rating *)
     do ratingError <-
       db_upsert "ratings" (pkey "ratings")
         [literal [ ("userId", Some (VStr userId));
                    ("leaderId", Some (VStr leaderId));
                    ("rating", Some (VNum newRating));
                    ("createdAt", if data existingRating is Some _ then None else Some (VTime now));
                    ("updatedAt", Some (VTime now));
                    ("socialBehaviour", Some (nullable socialBehaviour)) ]];
     if error ratingError then throw "Failed to submit rating"
     else
       (* Handle comment *)
       do _ <-
         (if has_text comment
          then do commentError <-
                 db_upsert "comments" (pkey "comments")
                   [literal [ ("userId", Some (VStr userId));
                              ("leaderId", Some (VStr leaderId));
                              ("comment", VStr <$> comment);
                              ("createdAt", Some (VTime now));
                              ("updatedAt", Some (VTime now)) ]];
               ret ()
          else ret ());
       (* Update leader's aggregate rating *)
       do allRatings <-
         db_select "ratings" (columns ["rating"]) (f_eq "leaderId" (VStr leaderId)) unordered;
       do _ <-
         match data allRatings with
         | Some (r :: rs) =>
           let allRatings := r :: rs in
           let totalRating := sum_ratings allRatings in
           let averageRating := Double.div totalRating (Double.of_nat (length allRatings)) in
           do updateError <-
             db_update "leaders"
               (literal [ ("rating", Some (json_number (parseFloat_toFixed2 averageRating)));
                          ("review_count", Some (VNat (length allRatings))) ])
               (f_eq "id" (VStr leaderId));
           ret ()
         | _ => ret ()
         end;
       getLeaderById leaderId)
    (λ e, throw e).

(** The comments that belong to a rating: same user, same leader. *)
Definition commentsOf (s : Store) (r : obj) : list obj :=
  List.filter
    (column "leaderId" (λ x, match r !! "leaderId" with
                             | Some y => value_eqb x y
                             | None => false
                             end))
    (related s "comments" "userId" (r !! "userId")).

(** [rating, updatedAt, socialBehaviour, users!inner(name), comments(comment)] *)
Definition reviewShape : shape := λ s r,
  u ← partner s "users" "id" (r !! "userId");
  Some (literal [ ("rating", r !! "rating");
                  ("updatedAt", r !! "updatedAt");
                  ("socialBehaviour", r !! "socialBehaviour");
                  ("users", Some (VObj (project ["name"] u)));
                  ("comments", Some (VRows (project ["comment"] <$> commentsOf s r))) ]).

Definition getReviewsForLeader (leaderId : string) : M (list Review) :=
  do r <- db_select "ratings" reviewShape (f_eq "leaderId" (VStr leaderId))
            (order "updatedAt" false);
  if error r then ret []
  else ret ((λ r : obj, {|
         rv_userName := js_or (field "name" (r !! "users")) (Some (VStr "Anonymous"));
         rv_rating := r !! "rating";
         rv_comment := js_or (field "comment" (first (r !! "comments"))) (Some VNull);
         rv_updatedAt := r !! "updatedAt";
         rv_socialBehaviour := r !! "socialBehaviour" |}) <$> default [] (data r)).

(** [parseInt] of the key a number leaves in a dictionary. *)
Definition parseInt (q : Q) : Z := Z.quot (Qnum q) (Z.pos (Qden q)).

Definition getRatingDistribution (leaderId : string) : M (list RatingDistribution) :=
  do r <- db_select "ratings" (columns ["rating"]) (f_eq "leaderId" (VStr leaderId)) unordered;
  if error r then ret []
  else
    let distribution :=
      foldl (λ d (r : obj), bump Qeq_bool (to_num (r !! "rating")) d) []
            (default [] (data r)) in
    ret (sort_by (λ a b, (rd_rating b <=? rd_rating a)%Z)
           ((λ '(rating, count), {| rd_rating := parseInt rating; rd_count := count |})
              <$> distribution)).

(** [s.replace('-', ' ')]: the first hyphen only. *)
Fixpoint replace_hyphen (s : string) : string :=
  match s with
  | EmptyString => EmptyString
  | String a r => if Ascii.eqb a "-"%char then String " "%char r
                  else String a (replace_hyphen r)
  end.

Definition behaviourName (name : string) : string :=
  match name with
  | String a r => String (upper_ascii a) (replace_hyphen r)
  | EmptyString => EmptyString
  end.

Definition getSocialBehaviourDistribution (leaderId : string)
    : M (list SocialBehaviourDistribution) :=
  do r <- db_select "ratings" (columns ["socialBehaviour"])
            (f_and (f_eq "leaderId" (VStr leaderId))
               (f_and (f_not_null "socialBehaviour") (f_neq "socialBehaviour" (VStr ""))))
            unordered;
  if error r then ret []
  else
    let distribution :=
      foldl (λ d (r : obj),
               match r !! "socialBehaviour" with
               | Some (VStr b) => if String.eqb b "" then d else bump String.eqb b d
               | _ => d
               end) [] (default [] (data r)) in
    ret (sort_by (λ a b, (sb_count b <=? sb_count a)%nat)
           ((λ '(name, count), {| sb_name := behaviourName name; sb_count := count |})
              <$> distribution)).

(** [leaderId, rating, updatedAt, socialBehaviour, users!inner(name),
     leaders!inner( * ), comments(comment)] *)
Definition activityShape : shape := λ s r,
  u ← partner s "users" "id" (r !! "userId");
  l ← partner s "leaders" "id" (r !! "leaderId");
  Some (literal [ ("leaderId", r !! "leaderId");
                  ("rating", r !! "rating");
                  ("updatedAt", r !! "updatedAt");
                  ("socialBehaviour", r !! "socialBehaviour");
                  ("users", Some (VObj (project ["name"] u)));
                  ("leaders", Some (VObj l));
                  ("comments", Some (VRows (project ["comment"] <$> commentsOf s r))) ]).

Definition as_obj (v : option value) : obj :=
  match v with Some (VObj o) => o | _ => ∅ end.

Definition toActivity (activity : obj) : UserActivity := {|
  ua_leaderId := activity !! "leaderId";
  ua_leaderName := js_or (field "name" (activity !! "leaders")) (Some (VStr ""));
  ua_leaderPhotoUrl := js_or (field "photo_url" (activity !! "leaders")) (Some (VStr ""));
  ua_rating := activity !! "rating";
  ua_comment := js_or (field "comment" (first (activity !! "comments"))) (Some VNull);
  ua_updatedAt := activity !! "updatedAt";
  ua_socialBehaviour := activity !! "socialBehaviour";
  ua_userName := js_or (field "name" (activity !! "users")) (Some (VStr "Anonymous"));
  ua_leader := dbToLeader (as_obj (activity !! "leaders"));
|}.

Definition getActivitiesForUser (userId : string) : M (list UserActivity) :=
  do r <- db_select "ratings" activityShape (f_eq "userId" (VStr userId))
            (order "updatedAt" false);
  if error r then ret []
  else ret (toActivity <$> default [] (data r)).

Definition getAllActivities : M (list UserActivity) :=
  do r <- db_select "ratings" activityShape f_all (order "updatedAt" false);
  if error r then ret []
  else ret (toActivity <$> default [] (data r)).

Definition getLeadersAddedByUser (userId : string) : M (list Leader) :=
  do r <- db_select "leaders" star (f_eq "added_by_user_id" (VStr userId))
            (order "name" true);
  if error r then ret []
  else ret (dbToLeader <$> default [] (data r)).

Definition leaderFilter (filters : option Filters) : obj → bool :=
  match filters with
  | None => f_all
  | Some f =>
    f_and (between "created_at" (startDate f) (endDate f))
      (f_and (when_present (state f) (λ x, f_eq "location_state" (VStr x)))
             (when_present (f_constituency f) (f_ilike "constituency")))
  end.

Definition getLeaderCount (filters : option Filters) : M nat :=
  do r <- db_count "leaders" star (leaderFilter filters);
  if error r then ret 0%nat
  else ret (default 0%nat (data r)).

(** [*, leaders!inner( * )] with the filters put on the embedded leader. *)
Definition ratingWithLeader (p : obj → bool) : shape := λ s r,
  l ← head (List.filter p (related s "leaders" "id" (r !! "leaderId")));
  Some (<["leaders" := VObj l]> r).

Definition getRatingCount (filters : option Filters) : M nat :=
  let range :=
    match filters with
    | Some f => between "createdAt" (startDate f) (endDate f)
    | None => f_all
    end in
  let sh :=
    match filters with
    | Some f =>
      match present (state f), present (f_constituency f) with
      | None, None => star
      | _, _ =>
        ratingWithLeader
          (f_and (when_present (state f) (λ x, f_eq "location_state" (VStr x)))
                 (when_present (f_constituency f) (f_ilike "constituency")))
      end
    | None => star
    end in
  do r <- db_count "ratings" sh range;
  if error r then ret 0%nat
  else ret (default 0%nat (data r)).

(** ** Admin functions *)

Record AdminFilters := {
  dateFrom : option Z;
  dateTo : option Z;
  a_state : option string;
  a_constituency : option string;
  candidateName : option string;
}.

(** [*, users(name)] *)
Definition leaderWithUser : shape := λ s r,
  Some (<["users" := match partner s "users" "id" (r !! "added_by_user_id") with
                     | Some u => VObj (project ["name"] u)
                     | None => VNull
                     end]> r).

Definition withUserName (l : Leader) (n : option value) : Leader := {|
  id := id l; name := name l; partyName := partyName l; gender := gender l;
  age := age l; photoUrl := photoUrl l; constituency := constituency l;
  nativeAddress := nativeAddress l; electionType := electionType l;
  location_state := location_state l; location_district := location_district l;
  rating := rating l; reviewCount := reviewCount l;
  previousElections := previousElections l; manifestoUrl := manifestoUrl l;
  twitterUrl := twitterUrl l; addedByUserId := addedByUserId l;
  createdAt := createdAt l; status := status l; adminComment := adminComment l;
  userName := n |}.

Definition getLeadersForAdminPanel (filters : AdminFilters) : M (list Leader) :=
  do r <- db_select "leaders" leaderWithUser
            (f_and (between "created_at" (dateFrom filters) (dateTo filters))
               (f_and (when_present (a_state filters) (λ x, f_eq "location_state" (VStr x)))
                  (f_and (when_present (a_constituency filters) (f_ilike "constituency"))
                         (when_present (candidateName filters) (f_ilike "name")))))
            (order "created_at" false);
  if error r then ret []
  else ret ((λ leader : obj, withUserName (dbToLeader leader) (field "name" (leader !! "users")))
              <$> default [] (data r)).

Definition approveLeader (leaderId : string) : M unit :=
  do r <- db_update "leaders"
            (literal [ ("status", Some (VStr "approved"));
                       ("admin_comment", Some (VStr "Approved by admin.")) ])
            (f_eq "id" (VStr leaderId));
  if error r then throw "Failed to approve leader" else ret ().

Definition updateLeaderStatus (leaderId status : string) (adminComment : option string)
    : M unit :=
  do r <- db_update "leaders"
            (literal [ ("status", Some (VStr status));
                       ("admin_comment", Some (nullable adminComment)) ])
            (f_eq "id" (VStr leaderId));
  if error r then throw "Failed to update leader status" else ret ().

Definition deleteLeader (leaderId : string) : M unit :=
  (* Delete dependent records first *)
  do _ <- db_delete "ratings" (f_eq "leaderId" (VStr leaderId));
  do _ <- db_delete "comments" (f_eq "leaderId" (VStr leaderId));
  (* Delete the leader *)
  do r <- db_delete "leaders" (f_eq "id" (VStr leaderId));
  if error r then throw "Failed to delete leader" else ret ().

(** [allRatings?.length || 0] and the average that goes with it. *)
Definition average (rs : list obj) : double :=
  if (0 <? length rs)%nat
  then Double.div (Double.or_zero (sum_ratings rs)) (Double.of_nat (length rs))
  else Finite 0.

Definition deleteRating (userId leaderId : string) : M unit :=
  (* Delete rating and comment *)
  do _ <- db_delete "ratings"
            (f_and (f_eq "userId" (VStr userId)) (f_eq "leaderId" (VStr leaderId)));
  do _ <- db_delete "comments"
            (f_and (f_eq "userId" (VStr userId)) (f_eq "leaderId" (VStr leaderId)));
  (* Recalculate leader's rating *)
  do allRatings <-
    db_select "ratings" (columns ["rating"]) (f_eq "leaderId" (VStr leaderId)) unordered;
  let newReviewCount := length (default [] (data allRatings)) in
  let newAverageRating := average (default [] (data allRatings)) in
  do _ <- db_update "leaders"
            (literal [ ("rating", Some (json_number (parseFloat_toFixed2 newAverageRating)));
                       ("review_count", Some (VNat newReviewCount)) ])
            (f_eq "id" (VStr leaderId));
  ret ().

End Leaders.

(** * settings.ts *)
Module Settings.

Record SiteSettings := {
  maintenance_active : option value;
  maintenance_start : option value;
  maintenance_end : option value;
  maintenance_message : option value;
  contact_email : option value;
  contact_phone : option value;
  contact_twitter : option value;
  contact_linkedin : option value;
  contact_youtube : option value;
  contact_facebook : option value;
}.

Definition getSettings : M SiteSettings :=
  do r <- db_select "settings" (columns ["key"; "value"]) f_all unordered;
  if error r then
    ret {| maintenance_active := Some (VStr "false");
           maintenance_start := Some VNull;
           maintenance_end := Some VNull;
           maintenance_message := Some VNull;
           contact_email := Some VNull;
           contact_phone := Some VNull;
           contact_twitter := Some VNull;
           contact_linkedin := Some VNull;
           contact_youtube := Some VNull;
           contact_facebook := Some VNull |}
  else
    let settings := assign_rows (default [] (data r)) in
    ret {| maintenance_active :=
             js_or (read settings "maintenance_active") (Some (VStr "false"));
           maintenance_start := read settings "maintenance_start";
           maintenance_end := read settings "maintenance_end";
           maintenance_message := read settings "maintenance_message";
           contact_email := read settings "contact_email";
           contact_phone := read settings "contact_phone";
           contact_twitter := read settings "contact_twitter";
           contact_linkedin := read settings "contact_linkedin";
           contact_youtube := read settings "contact_youtube";
           contact_facebook := read settings "contact_facebook" |}.

(** [value?.toString() || null] *)
Definition toStringOrNull (v : option jsstring) : value :=
  match v with
  | Some (Text x) => if String.eqb x "" then VNull else VStr x
  | Some (Stamp t) => VTime t
  | None => VNull
  end.

(** The loop of [updateSettings]: one upsert per entry, stopping at the
    first error. *)
Fixpoint updateEach (updates : list (string * option jsstring)) : M unit :=
  match updates with
  | [] => ret ()
  | (key, v) :: rest =>
    do r <- db_upsert "settings" ["key"]
              [literal [ ("key", Some (VStr key)); ("value", Some (toStringOrNull v)) ]];
    if error r then throw ("Failed to update setting: " +:+ key)
    else updateEach rest
  end.

(** [settings] is given by its entries, in the order [Object.entries] lists
    them. *)
Definition updateSettings (settings : list (string * option jsstring)) : M unit :=
  updateEach settings.

Definition isMaintenanceActive (now : Z) : M bool :=
  do settings <- getSettings;
  if negb (is_string (maintenance_active settings) "true") then ret false
  else
    let startTime :=
      if truthy (maintenance_start settings)
      then Some (Date (maintenance_start settings)) else None in
    let endTime :=
      if truthy (maintenance_end settings)
      then Some (Date (maintenance_end settings)) else None in
    if match startTime with Some t => date_lt now t | None => false end then ret false
    else if match endTime with Some t => date_gt now t | None => false end then ret false
    else ret true.

Definition defaultSettings : obj :=
  literal [ ("maintenance_active", Some (VStr "false"));
            ("maintenance_start", Some VNull);
            ("maintenance_end", Some VNull);
            ("maintenance_message",
             Some (VStr "The site is currently down for maintenance. We will be back shortly."));
            ("contact_email", Some (VStr "support@politirate.com"));
            ("contact_phone", Some VNull);
            ("contact_twitter", Some VNull);
            ("contact_linkedin", Some VNull);
            ("contact_youtube", Some VNull);
            ("contact_facebook", Some VNull) ].

(** Retrieves all site settings from the database. *)
Definition getSiteSettings : M obj :=
  try_catch
    (do r <- db_select "site_settings" (columns ["key"; "value"]) f_all unordered;
     if error r then ret defaultSettings
     else
       let settings := assign_rows (default [] (data r)) in
       (* Merge with defaults to ensure all keys are present *)
       ret (spread defaultSettings settings))
    (λ _, ret defaultSettings).

(** [String(value)] *)
Definition String_ (v : option jsstring) : value :=
  match v with Some x => string_value x | None => VStr "null" end.

(** Updates multiple site settings in a single transaction. *)
Definition updateSiteSettings (settings : list (string * option jsstring)) : M unit :=
  try_catch
    (let updates :=
       (λ '(key, v), literal [ ("key", Some (VStr key)); ("value", Some (String_ v)) ])
         <$> settings in
     do r <- db_upsert "site_settings" ["key"] updates;
     if error r then throw "Database transaction for updating settings failed."
     else ret ())
    (λ _, throw "Database transaction for updating settings failed.").

End Settings.

(** * notifications *)
Module Notifications.

Record SiteNotification := {
  id : option value;
  message : option value;
  startTime : option value;
  endTime : option value;
  isActive : option value;
  createdAt : option value;
  link : option value;
}.

Record NotificationPayload := {
  p_message : string;
  p_startTime : option Z;
  p_endTime : option Z;
  p_isActive : bool;
  p_link : option string;
}.

Definition time_or_null (t : option Z) : value :=
  match t with Some x => VTime x | None => VNull end.

Definition dbToNotification (row : obj) : SiteNotification := {|
  id := row !! "id";
  message := row !! "message";
  startTime := row !! "start_time";
  endTime := row !! "end_time";
  isActive := row !! "is_active";
  createdAt := row !! "created_at";
  link := row !! "link";
|}.

Definition getNotifications : M (list SiteNotification) :=
  do r <- db_select "notifications" star f_all (order "created_at" false);
  if error r then ret []
  else ret (dbToNotification <$> default [] (data r)).

Definition getActiveNotifications (now : Z) : M (list SiteNotification) :=
  do r <- db_select "notifications" star
            (f_and (f_eq "is_active" (VBool true))
               (f_and (f_or (f_is_null "start_time") (f_lte "start_time" (VTime now)))
                      (f_or (f_is_null "end_time") (f_gte "end_time" (VTime now)))))
            (order "created_at" false);
  if error r then ret []
  else ret (dbToNotification <$> default [] (data r)).

Definition addNotification (d : NotificationPayload) (now : Z) : M SiteNotification :=
  let id := time_id now in
  let createdAt := VTime now in
  do r <- db_insert "notifications"
            [literal [ ("id", Some (VStr id));
                       ("message", Some (VStr (p_message d)));
                       ("start_time", Some (time_or_null (p_startTime d)));
                       ("end_time", Some (time_or_null (p_endTime d)));
                       ("is_active", Some (VBool (p_isActive d)));
                       ("created_at", Some createdAt);
                       ("link", Some (nullable (p_link d))) ]];
  if error r then throw "Failed to add notification"
  else ret {| id := Some (VStr id);
              message := Some (VStr (p_message d));
              startTime := Some (time_or_null (p_startTime d));
              endTime := Some (time_or_null (p_endTime d));
              isActive := Some (VBool (p_isActive d));
              link := Some (nullable (p_link d));
              createdAt := Some createdAt |}.

Definition updateNotification (id : string) (d : NotificationPayload) : M SiteNotification :=
  do r <- db_update "notifications"
            (literal [ ("message", Some (VStr (p_message d)));
                       ("start_time", Some (time_or_null (p_startTime d)));
                       ("end_time", Some (time_or_null (p_endTime d)));
                       ("is_active", Some (VBool (p_isActive d)));
                       ("link", Some (nullable (p_link d))) ])
            (f_eq "id" (VStr id));
  if error r then throw "Failed to update notification"
  else
    do u <- db_single "notifications" star (f_eq "id" (VStr id));
    if error u then throw "Failed to fetch updated notification"
    else ret (dbToNotification (default ∅ (data u))).

Definition deleteNotification (id : string) : M unit :=
  do r <- db_delete "notifications" (f_eq "id" (VStr id));
  if error r then throw "Failed to delete notification" else ret ().

End Notifications.

(** * polls *)
Module Polls.

Record PollOption := {
  o_id : option value;
  o_questionId : option value;
  o_optionText : option value;
  o_optionOrder : option value;
}.

Record PollQuestion := {
  q_id : option value;
  q_pollId : option value;
  q_questionText : option value;
  q_questionType : option value;
  q_questionOrder : option value;
  q_options : list PollOption;
}.

Record Poll := {
  id : option value;
  title : option value;
  description : option value;
  isActive : option value;
  activeUntil : option value;
  createdAt : option value;
  questions : list PollQuestion;
}.

Record OptionResult := {
  optionId : option value;
  optionText : option value;
  count : nat;
  percentage : double;
}.

Record PollResult := {
  r_pollId : string;
  r_questionId : option value;
  r_questionText : option value;
  r_questionType : option value;
  r_options : list OptionResult;
  totalResponses : nat;
}.

(** What [createPoll] reads of its argument. *)
Record OptionInput := { i_optionText : string; i_optionOrder : Z }.
Record QuestionInput := {
  i_questionText : string;
  i_questionType : string;
  i_questionOrder : Z;
  i_options : list OptionInput;
}.
Record PollInput := {
  i_title : string;
  i_description : option string;
  i_isActive : bool;
  i_activeUntil : option Z;
  i_questions : list QuestionInput;
}.

(** Helper function to convert database row to Poll object. *)
Definition dbToPoll (dbPoll : obj) : Poll := {|
  id := dbPoll !! "id";
  title := dbPoll !! "title";
  description := dbPoll !! "description";
  isActive := dbPoll !! "is_active";
  activeUntil := dbPoll !! "active_until";
  createdAt := dbPoll !! "created_at";
  questions :=
    sort_by (λ a b, Qle_bool (to_num (q_questionOrder a)) (to_num (q_questionOrder b)))
      ((λ q : obj, {|
          q_id := q !! "id";
          q_pollId := q !! "poll_id";
          q_questionText := q !! "question_text";
          q_questionType := q !! "question_type";
          q_questionOrder := q !! "question_order";
          q_options :=
            sort_by (λ a b, Qle_bool (to_num (o_optionOrder a)) (to_num (o_optionOrder b)))
              ((λ o : obj, {|
                  o_id := o !! "id";
                  o_questionId := o !! "question_id";
                  o_optionText := o !! "option_text";
                  o_optionOrder := o !! "option_order" |})
                 <$> as_rows (q !! "poll_options")) |})
         <$> as_rows (dbPoll !! "poll_questions"));
|}.

(** [*, poll_questions( *, poll_options( * ) )] *)
Definition pollShape : shape := λ s p,
  Some (<["poll_questions" :=
            VRows ((λ q : obj,
                      <["poll_options" :=
                          VRows (related s "poll_options" "question_id" (q !! "id"))]> q)
                     <$> related s "poll_questions" "poll_id" (p !! "id"))]> p).

(** [*, poll_questions( *, poll_options( * ), poll_answers( * ) )] *)
Definition resultShape : shape := λ s p,
  Some (<["poll_questions" :=
            VRows ((λ q : obj,
                      <["poll_answers" :=
                          VRows (related s "poll_answers" "question_id" (q !! "id"))]>
                      (<["poll_options" :=
                          VRows (related s "poll_options" "question_id" (q !! "id"))]> q))
                     <$> related s "poll_questions" "poll_id" (p !! "id"))]> p).

Definition getActivePolls (now : Z) : M (list Poll) :=
  do r <- db_select "polls" pollShape
            (f_and (f_eq "is_active" (VBool true))
                   (f_or (f_is_null "active_until") (f_gt "active_until" (VTime now))))
            (order "created_at" false);
  if error r then ret []
  else ret (dbToPoll <$> default [] (data r)).

Definition getAllPolls : M (list Poll) :=
  do r <- db_select "polls" pollShape f_all (order "created_at" false);
  if error r then ret []
  else ret (dbToPoll <$> default [] (data r)).

Definition getPollById (pollId : string) : M (option Poll) :=
  do r <- db_single "polls" pollShape (f_eq "id" (VStr pollId));
  if error r then ret None
  else ret (dbToPoll <$> data r).

(** Insert questions and options. *)
Fixpoint insertQuestions (pollId : string) (qs : list QuestionInput) : M unit :=
  match qs with
  | [] => ret ()
  | question :: rest =>
    let questionId := pollId +:+ "_q_" +:+ pretty (i_questionOrder question) in
    do r <- db_insert "poll_questions"
              [literal [ ("id", Some (VStr questionId));
                         ("poll_id", Some (VStr pollId));
                         ("question_text", Some (VStr (i_questionText question)));
                         ("question_type", Some (VStr (i_questionType question)));
                         ("question_order", Some (VInt (i_questionOrder question))) ]];
    if error r then throw "Failed to create poll question"
    else
      (* Insert options for this question *)
      do _ <-
        match i_options question with
        | [] => ret ()
        | options =>
          let optionsToInsert :=
            (λ option, literal
               [ ("id", Some (VStr (questionId +:+ "_o_" +:+ pretty (i_optionOrder option))));
                 ("question_id", Some (VStr questionId));
                 ("option_text", Some (VStr (i_optionText option)));
                 ("option_order", Some (VInt (i_optionOrder option))) ]) <$> options in
          do o <- db_insert "poll_options" optionsToInsert;
          if error o then throw "Failed to create poll options" else ret ()
        end;
      insertQuestions pollId rest
  end.

Definition createPoll (pollData : PollInput) (now : Z) : M string :=
  let pollId := time_id now in
  let createdAt := VTime now in
  do r <- db_insert "polls"
            [literal [ ("id", Some (VStr pollId));
                       ("title", Some (VStr (i_title pollData)));
                       ("description", Some (nullable (i_description pollData)));
                       ("is_active", Some (VBool (i_isActive pollData)));
                       ("active_until",
                        Some (match i_activeUntil pollData with
                              | Some t => VTime t
                              | None => VNull
                              end));
                       ("created_at", Some createdAt) ]];
  if error r then throw "Failed to create poll"
  else
    do _ <- insertQuestions pollId (i_questions pollData);
    ret pollId.

Definition submitPollResponse (pollId userId : string)
    (answers : list (string * string)) (now : Z) : M unit :=
  let responseId := time_id now in
  let createdAt := VTime now in
  (* Check if user has already responded *)
  do existing <-
    db_single "poll_responses" (columns ["id"])
      (f_and (f_eq "poll_id" (VStr pollId)) (f_eq "user_id" (VStr userId)));
  if data existing is Some _ then throw "User has already responded to this poll"
  else
    (* Insert response *)
    do r <- db_insert "poll_responses"
              [literal [ ("id", Some (VStr responseId));
                         ("poll_id", Some (VStr pollId));
                         ("user_id", Some (VStr userId));
                         ("created_at", Some createdAt) ]];
    if error r then throw "Failed to submit poll response"
    else
      (* Insert answers *)
      let answersToInsert :=
        imap (λ index '(questionId, selectedOptionId),
                literal [ ("id", Some (VStr (responseId +:+ "_a_" +:+ pretty index)));
                          ("response_id", Some (VStr responseId));
                          ("question_id", Some (VStr questionId));
                          ("selected_option_id", Some (VStr selectedOptionId)) ])
             answers in
      do a <- db_insert "poll_answers" answersToInsert;
      if error a then throw "Failed to submit poll answers" else ret ().

(** Count responses for each option. *)
Definition countAnswers (answers : list obj) : gmap string nat :=
  foldl (λ optionCounts (answer : obj),
           let k := key_of (answer !! "selected_option_id") in
           <[k := (default 0 (optionCounts !! k) + 1)%nat]> optionCounts)
        ∅ answers.

(** [total > 0 ? Math.round((count / total) * 100) : 0] *)
Definition percent (count total : nat) : double :=
  if (0 <? total)%nat
  then Math_round (Double.mul (Double.div (Double.of_nat count) (Double.of_nat total))
                     (Finite 100))
  else Finite 0.

Definition questionResult (pollId : string) (question : obj) : PollResult :=
  let answers := as_rows (question !! "poll_answers") in
  let totalResponses := length answers in
  let optionCounts := countAnswers answers in
  let options :=
    (λ option : obj,
       let n := default 0%nat (optionCounts !! key_of (option !! "id")) in
       {| optionId := option !! "id";
          optionText := option !! "option_text";
          count := n;
          percentage := percent n totalResponses |})
      <$> as_rows (question !! "poll_options") in
  {| r_pollId := pollId;
     r_questionId := question !! "id";
     r_questionText := question !! "question_text";
     r_questionType := question !! "question_type";
     r_options := options;
     totalResponses := totalResponses |}.

Definition getPollResults (pollId : string) : M (list PollResult) :=
  do r <- db_single "polls" resultShape (f_eq "id" (VStr pollId));
  match data r with
  | None => ret []
  | Some poll => ret (questionResult pollId <$> as_rows (poll !! "poll_questions"))
  end.

Definition hasUserRespondedToPoll (pollId userId : string) : M bool :=
  do r <- db_single "poll_responses" (columns ["id"])
            (f_and (f_eq "poll_id" (VStr pollId)) (f_eq "user_id" (VStr userId)));
  ret (if data r is Some _ then true else false).

Definition updatePollStatus (pollId : string) (isActive : bool) (activeUntil : option Z)
    : M unit :=
  do r <- db_update "polls"
            (literal [ ("is_active", Some (VBool isActive));
                       ("active_until",
                        Some (match activeUntil with Some t => VTime t | None => VNull end)) ])
            (f_eq "id" (VStr pollId));
  if error r then throw "Failed to update poll status" else ret ().

(** Delete in order: answers -> responses -> options -> questions -> poll. *)
Definition deletePoll (pollId : string) : M unit :=
  do _ <- db_delete_in "poll_answers" "response_id"
            "poll_responses" "id" (f_eq "poll_id" (VStr pollId));
  do _ <- db_delete "poll_responses" (f_eq "poll_id" (VStr pollId));
  do _ <- db_delete_in "poll_options" "question_id"
            "poll_questions" "id" (f_eq "poll_id" (VStr pollId));
  do _ <- db_delete "poll_questions" (f_eq "poll_id" (VStr pollId));
  do r <- db_delete "polls" (f_eq "id" (VStr pollId));
  if error r then throw "Failed to delete poll" else ret ().

End Polls.

(** * support tickets *)
Module SupportTickets.

Record SupportTicketStats := {
  total : nat;
  open : nat;
  inProgress : nat;
  resolved : nat;
  closed : nat;
  avgResolutionHours : option double;
  contact_email : option value;
  contact_phone : option value;
  contact_twitter : option value;
  contact_linkedin : option value;
  contact_youtube : option value;
}.

Record TicketInput := {
  user_id : option string;
  user_name : string;
  user_email : string;
  subject : string;
  message : string;
}.

Record TicketFilters := {
  t_status : option string;
  t_dateFrom : option Z;
  t_dateTo : option Z;
  searchQuery : option string;
}.

Definition noFilters : TicketFilters :=
  {| t_status := None; t_dateFrom := None; t_dateTo := None; searchQuery := None |}.

(** [{ ...row, resolved_at: row.resolved_at || null, admin_notes: row.admin_notes || null }] *)
Definition dbToTicket (row : obj) : obj :=
  <["admin_notes" := default VNull (js_or (row !! "admin_notes") (Some VNull))]>
    (<["resolved_at" := default VNull (js_or (row !! "resolved_at") (Some VNull))]> row).

Definition createSupportTicket (d : TicketInput) (now : Z) : M unit :=
  do r <- db_insert "support_tickets"
            [literal [ ("id", Some (VStr (time_id now)));
                       ("user_id", Some (nullable (user_id d)));
                       ("user_name", Some (VStr (user_name d)));
                       ("user_email", Some (VStr (user_email d)));
                       ("subject", Some (VStr (subject d)));
                       ("message", Some (VStr (message d)));
                       ("status", Some (VStr "open"));
                       ("created_at", Some (VTime now));
                       ("updated_at", Some (VTime now)) ]];
  if error r then throw "Failed to create support ticket" else ret ().

(** [Date.now() - 30 * 24 * 60 * 60 * 1000] *)
Definition thirtyDaysBefore (now : Z) : Z := (now - 30 * 24 * 60 * 60 * 1000)%Z.

(** The tickets the automated deletion removes. *)
Definition stale (now : Z) : obj → bool :=
  f_and (f_in "status" [VStr "in-progress"; VStr "resolved"; VStr "closed"])
        (f_lt "updated_at" (VTime (thirtyDaysBefore now))).

Definition getSupportTickets (filters : TicketFilters) (now : Z) : M (list obj) :=
  (* Automated deletion: simulate a cron job that permanently deletes old,
     inactive tickets. *)
  do _ <- db_delete "support_tickets" (stale now);
  do r <- db_select "support_tickets" star
            (f_and (when_present (t_status filters) (λ x, f_eq "status" (VStr x)))
               (f_and (between "created_at" (t_dateFrom filters) (t_dateTo filters))
                  (when_present (searchQuery filters)
                     (λ x, f_or (f_ilike "user_name" x)
                             (f_or (f_ilike "user_email" x) (f_ilike "subject" x))))))
            (order "created_at" false);
  if error r then ret []
  else ret (dbToTicket <$> default [] (data r)).

Definition updateTicketStatus (ticketId status : string) (adminNotes : option string)
    (now : Z) : M unit :=
  let updateData :=
    literal [ ("status", Some (VStr status));
              ("admin_notes", Some (nullable adminNotes));
              ("updated_at", Some (VTime now));
              ("resolved_at",
               if String.eqb status "resolved" || String.eqb status "closed"
               then Some (VTime now) else None) ] in
  do r <- db_update "support_tickets" updateData (f_eq "id" (VStr ticketId));
  if error r then throw "Failed to update ticket status" else ret ().

Definition tally (st : nat * nat * nat * nat * nat) (ticket : obj)
    : nat * nat * nat * nat * nat :=
  let '(total, open, inProgress, resolved, closed) := st in
  let total := S total in
  if is_string (ticket !! "status") "open" then (total, S open, inProgress, resolved, closed)
  else if is_string (ticket !! "status") "in-progress"
  then (total, open, S inProgress, resolved, closed)
  else if is_string (ticket !! "status") "resolved"
  then (total, open, inProgress, S resolved, closed)
  else if is_string (ticket !! "status") "closed"
  then (total, open, inProgress, resolved, S closed)
  else (total, open, inProgress, resolved, closed).

(** [date.getTime()], [NaN] for an invalid date. *)
Definition getTime (date : option Z) : double :=
  match date with Some t => binary64 (inject_Z t) | None => NaN end.

(** The sum of the resolution times, in hours. *)
Definition totalHours (tickets : list obj) : double :=
  foldl (λ sum (ticket : obj),
           let created := Date (ticket !! "created_at") in
           let resolved := Date (ticket !! "resolved_at") in
           Double.add sum
             (Double.div (Double.sub (getTime resolved) (getTime created))
                (Finite (inject_Z (1000 * 60 * 60)))))
        (Finite 0) tickets.

Definition averageHours (tickets : list obj) : option double :=
  match tickets with
  | [] => None
  | _ =>
    Some (Math_round (Double.div (totalHours tickets) (Double.of_nat (length tickets))))
  end.

Definition getSupportTicketStats : M SupportTicketStats :=
  (* Get status counts *)
  do statusData <- db_select "support_tickets" (columns ["status"]) f_all (order "status" true);
  if error statusData then
    ret {| total := 0; open := 0; inProgress := 0; resolved := 0; closed := 0;
           avgResolutionHours := None;
           contact_email := Some VNull; contact_phone := Some VNull;
           contact_twitter := Some VNull; contact_linkedin := Some VNull;
           contact_youtube := Some VNull |}
  else
    let '(total, open, inProgress, resolved, closed) :=
      foldl tally (0, 0, 0, 0, 0)%nat (default [] (data statusData)) in
    (* Calculate average resolution time *)
    do resolvedTickets <-
      db_select "support_tickets" (columns ["created_at"; "resolved_at"])
        (f_not_null "resolved_at") unordered;
    let avgResolutionHours := averageHours (default [] (data resolvedTickets)) in
    (* Get contact settings *)
    do settings <-
      db_select "site_settings" (columns ["key"; "value"])
        (f_in "key" [VStr "contact_email"; VStr "contact_phone"; VStr "contact_twitter";
                     VStr "contact_linkedin"; VStr "contact_youtube"]) unordered;
    let contactSettings := assign_rows (default [] (data settings)) in
    ret {| total := total; open := open; inProgress := inProgress;
           resolved := resolved; closed := closed;
           avgResolutionHours := avgResolutionHours;
           contact_email := js_or (read contactSettings "contact_email") (Some VNull);
           contact_phone := js_or (read contactSettings "contact_phone") (Some VNull);
           contact_twitter := js_or (read contactSettings "contact_twitter") (Some VNull);
           contact_linkedin := js_or (read contactSettings "contact_linkedin") (Some VNull);
           contact_youtube := js_or (read contactSettings "contact_youtube") (Some VNull) |}.

End SupportTickets.

(** * users *)
Module Users.

(** What [addUser] reads of its argument. *)
Record UserInput := {
  u_email : string;
  u_password : option string;
  u_name : option string;
}.

Record UserFilters := {
  startDate : option Z;
  endDate : option Z;
  state : option string;
  constituency : option string;
}.

(** [{ count }] of the rows on the far side of a relation. *)
Definition counted (rs : list obj) : value :=
  VArr [VObj {[ "count" := VNat (length rs) ]}].

(** [*, ratings(count), leaders!leaders_added_by_user_id_fkey(count),
     admin_messages(count)] *)
Definition userShape : shape := λ s u,
  Some (<["admin_messages" := counted (related s "admin_messages" "userId" (u !! "id"))]>
       (<["leaders" := counted (related s "leaders" "added_by_user_id" (u !! "id"))]>
       (<["ratings" := counted (related s "ratings" "userId" (u !! "id"))]> u))).

Definition searchFilter (searchTerm : option string) : obj → bool :=
  match searchTerm with
  | Some t =>
    if negb (String.eqb t "") && negb (String.eqb (trim t) "")
    then f_or (f_ilike "name" (trim t))
           (f_or (f_ilike "email" (trim t)) (f_ilike "id" (trim t)))
    else f_all
  | None => f_all
  end.

Definition getUsers (searchTerm : option string) : M (list obj) :=
  try_catch
    (do r <- db_select "users" userShape (searchFilter searchTerm)
               (order "created_at" false);
     if error r then ret []
     else ret ((λ user : obj, let cleanUser := user in delete "password" cleanUser)
                 <$> default [] (data r)))
    (λ _, ret []).

Definition findUserByEmail (email : string) : M (option obj) :=
  do r <- db_single "users" star (f_eq "email" (VStr (toLowerCase email)));
  if error r then ret None
  else ret (data r).

Definition findUserById (id : string) : M (option obj) :=
  do r <- db_single "users" star (f_eq "id" (VStr id));
  if error r then ret None
  else ret (delete "password" <$> data r).

Definition addUser (user : UserInput) (now : Z) : M (option obj) :=
  let name := default (before "@"%char (u_email user)) (present (u_name user)) in
  let formattedName := capitalize name in
  let id := time_id now in
  let newUser :=
    literal [ ("id", Some (VStr id));
              ("email", Some (VStr (toLowerCase (u_email user))));
              ("password", Some (VStr (default "" (present (u_password user)))));
              ("name", Some (VStr formattedName));
              ("is_blocked", Some (VBool false)) ] in
  do r <- db_insert_returning "users" newUser;
  if error r then ret None
  else
    let createdUser := default ∅ (data r) in
    ret (Some (delete "password" createdUser)).

Definition is_digit (a : ascii) : bool :=
  let n := nat_of_ascii a in (48 <=? n)%nat && (n <=? 57)%nat.

Fixpoint all_digits (s : string) : bool :=
  match s with
  | EmptyString => true
  | String a r => is_digit a && all_digits r
  end.

(** [isNaN(Number(value))], for text taken to be a numeral when it is blank
    or a run of digits. *)
Definition isNaN_Number (v : value) : bool :=
  match v with
  | VStr s => negb (all_digits (trim s))
  | VNum _ | VNull | VBool _ => false
  | VTime _ | VJson _ | VArr _ | VObj _ => true
  end.

Definition cleanField (key : string) (v : value) : value :=
  if String.eqb key "age" && isNaN_Number v then VNull
  else match v with
       | VStr s => if String.eqb s "" then VNull else v
       | _ => v
       end.

Definition updateUserProfile (userId : string) (profileData : obj) : M (option obj) :=
  let dataToUpdate :=
    delete "createdAt" (delete "password" (delete "email" (delete "id" profileData))) in
  (* Convert empty strings to null and handle age validation *)
  let cleanedData := map_imap (λ key v, Some (cleanField key v)) dataToUpdate in
  do r <- db_update "users" cleanedData (f_eq "id" (VStr userId));
  if error r then ret None
  else findUserById userId.

Definition getUserCount (filters : option UserFilters) : M nat :=
  let p :=
    match filters with
    | None => f_all
    | Some f =>
      f_and (between "created_at" (startDate f) (endDate f))
        (f_and (when_present (state f) (λ x, f_eq "state" (VStr x)))
           (when_present (constituency f)
              (λ x, f_or (f_ilike "mp_constituency" x)
                      (f_or (f_ilike "mla_constituency" x) (f_ilike "panchayat" x)))))
    end in
  do r <- db_count "users" star p;
  if error r then ret 0%nat
  else ret (default 0%nat (data r)).

(** ** Admin moderation functions *)

Definition blockUser (userId reason : string) (blockedUntil : option Z) : M unit :=
  do r <- db_update "users"
            (literal [ ("is_blocked", Some (VBool true));
                       ("block_reason", Some (VStr reason));
                       ("blocked_until",
                        Some (match blockedUntil with Some t => VTime t | None => VNull end)) ])
            (f_eq "id" (VStr userId));
  if error r then throw "Failed to block user" else ret ().

Definition unblockUser (userId : string) : M unit :=
  do r <- db_update "users"
            (literal [ ("is_blocked", Some (VBool false));
                       ("block_reason", Some VNull);
                       ("blocked_until", Some VNull) ])
            (f_eq "id" (VStr userId));
  if error r then throw "Failed to unblock user" else ret ().

Definition addAdminMessage (userId message : string) (now : Z) : M unit :=
  do r <- db_insert "admin_messages"
            [literal [ ("id", Some (VStr (time_id now)));
                       ("userId", Some (VStr userId));
                       ("message", Some (VStr message));
                       ("createdAt", Some (VTime now));
                       ("isRead", Some (VBool false)) ]];
  if error r then throw "Failed to add admin message" else ret ().

Definition getAdminMessages (userId : string) : M (list obj) :=
  do r <- db_select "admin_messages" star (f_eq "userId" (VStr userId))
            (order "createdAt" false);
  if error r then ret []
  else ret (default [] (data r)).

Definition getUnreadMessages (userId : string) : M (list obj) :=
  do r <- db_select "admin_messages" star
            (f_and (f_eq "userId" (VStr userId)) (f_eq "isRead" (VBool false)))
            (order "createdAt" true);
  if error r then ret []
  else ret (default [] (data r)).

Definition markMessageAsRead (messageId : string) : M unit :=
  do r <- db_update "admin_messages" (literal [ ("isRead", Some (VBool true)) ])
            (f_eq "id" (VStr messageId));
  if error r then throw "Failed to mark message as read" else ret ().

Definition deleteAdminMessage (messageId : string) : M unit :=
  do r <- db_delete "admin_messages" (f_eq "id" (VStr messageId));
  if error r then throw "Failed to delete admin message" else ret ().

End Users.

(** * Specification vocabulary *)

(** The next call on the store is going to report an error. *)
Definition fault (fs : list bool) : bool :=
  match fs with true :: _ => true | _ => false end.

(** The first defined entry for [k] among the fields of a literal. *)
Fixpoint assoc (k : string) (fs : list (string * option value)) : option value :=
  match fs with
  | [] => None
  | (k', v) :: fs' =>
    if String.eqb k' k
    then match v with Some x => Some x | None => assoc k fs' end
    else assoc k fs'
  end.

(** ** Numbers *)

(** The value of a number of [SpecFloat], the executable description of
    IEEE-754 arithmetic that comes with the prover, with which [binary64]
    and the operations of [Double] are compared. *)
Definition spec_value (f : SpecFloat.spec_float) : double :=
  match f with
  | SpecFloat.S754_zero _ => Finite 0
  | SpecFloat.S754_infinity s => Infinity s
  | SpecFloat.S754_nan => NaN
  | SpecFloat.S754_finite s m e =>
    Finite (Qred (inject_Z (if s then Z.neg m else Z.pos m) * pow2 e))
  end.

(** The binary64 number nearest to [m * 2^e]. *)
Definition spec_number (m e : Z) : SpecFloat.spec_float :=
  SpecFloat.binary_normalize 53 1024 m e false.

Definition same_number (a b : double) : bool :=
  match a, b with
  | Finite x, Finite y => Qeq_bool x y
  | Infinity s, Infinity s' => Bool.eqb s s'
  | NaN, NaN => true
  | _, _ => false
  end.

(** The sum, the product and the quotient of two numbers are those of
    [SpecFloat]; the quotient is left out when the divisor is a zero, whose
    sign [double] does not keep. *)
Definition agree (m1 e1 m2 e2 : Z) : bool :=
  let a := spec_number m1 e1 in
  let b := spec_number m2 e2 in
  same_number (binary64 (inject_Z m1 * pow2 e1)) (spec_value a)
  && same_number (Double.add (spec_value a) (spec_value b))
       (spec_value (SpecFloat.SFadd 53 1024 a b))
  && same_number (Double.mul (spec_value a) (spec_value b))
       (spec_value (SpecFloat.SFmul 53 1024 a b))
  && (same_number (spec_value b) (Finite 0)
      || same_number (Double.div (spec_value a) (spec_value b))
           (spec_value (SpecFloat.SFdiv 53 1024 a b))).

(** [n] pairs of numbers, from whole numbers of up to 56 bits to the
    smallest and the largest binary64 numbers and past them. *)
Fixpoint agree_on (n : nat) (m1 e1 m2 e2 : Z) : bool :=
  match n with
  | O => true
  | S n' =>
    agree m1 e1 m2 e2
    && agree m1 0 m2 0
    && agree_on n'
         ((m1 * 7919 + 13) mod 72057594037927931 - 36028797018963968)%Z
         ((e1 * 31 + 7) mod 2300 - 1200)%Z
         ((m2 * 104729 + 7) mod 72057594037927909 - 36028797018963968)%Z
         ((e1 * 31 + 7) mod 2300 - 1200 + (e2 * 17 + 3) mod 120 - 60)%Z
  end.

(** ** Ratings and the aggregate kept on the leader row *)

(** The ratings stored for a leader. *)
Definition ratingsOf (s : Store) (leaderId : string) : list obj :=
  List.filter (f_eq "leaderId" (VStr leaderId)) (rows s "ratings").

(** Modelled from the spec: the sum of the stored scores and their
    arithmetic mean, 0 when there is none, in exact arithmetic. *)
Definition total_score (rs : list obj) : Q :=
  foldr (λ (r : obj) acc, (to_num (r !! "rating") + acc)%Q) 0%Q rs.

Definition mean (rs : list obj) : Q :=
  match rs with
  | [] => 0%Q
  | _ => (total_score rs / inject_Z (Z.of_nat (length rs)))%Q
  end.

(** The average [submitRatingAndComment] computes, which differs from that
    of [deleteRating] when the sum is [NaN]. *)
Definition submitted_average (rs : list obj) : double :=
  Double.div (sum_ratings rs) (Double.of_nat (length rs)).

(** The value written in the [rating] column for an average. *)
Definition written (average : double) : value :=
  json_number (parseFloat_toFixed2 average).

(** Every leader row with this id carries the average of the ratings
    stored for it, as [average] computes it and as it is written, and their
    number. *)
Definition aggregate_of (average : list obj → double) (s : Store) (leaderId : string)
    : Prop :=
  ∀ r : obj, r ∈ rows s "leaders" → f_eq "id" (VStr leaderId) r = true →
    r !! "rating" = Some (written (average (ratingsOf s leaderId))) ∧
    r !! "review_count" = Some (VNat (length (ratingsOf s leaderId))).

Definition aggregate_ok : Store → string → Prop := aggregate_of Leaders.average.

(** The columns both operations write on the leader row. *)
Definition average_patch (average : list obj → double) (rs : list obj) : obj :=
  literal [ ("rating", Some (written (average rs)));
            ("review_count", Some (VNat (length rs))) ].

Definition aggregate_patch : list obj → obj := average_patch Leaders.average.

(** A score that is a whole number, [bound] at most in absolute value. *)
Definition whole_score (bound : Z) (r : obj) : Prop :=
  ∃ (q : Q) (z : Z), r !! "rating" = Some (VNum q) ∧ (q == inject_Z z)%Q
                     ∧ (Z.abs z ≤ bound)%Z.

(** [x] is the binary64 number nearest to a multiple [k/100] of a hundredth
    that is as near to [m] as a multiple can be. *)
Definition rounds_to_hundredths (m : Q) (v : value) : Prop :=
  ∃ (k : Z) (x : Q), v = VNum x ∧ binary64 (inject_Z k / 100) = Finite x
                     ∧ (Qabs (inject_Z k / 100 - m) <= 1 # 200)%Q.

(** The row [submitRatingAndComment] upserts. *)
Definition ratingRow (leaderId userId : string) (newRating : Q)
    (socialBehaviour : option string) (created : option value) (now : Z) : obj :=
  literal [ ("userId", Some (VStr userId));
            ("leaderId", Some (VStr leaderId));
            ("rating", Some (VNum newRating));
            ("createdAt", created);
            ("updatedAt", Some (VTime now));
            ("socialBehaviour", Some (nullable socialBehaviour)) ].

(** The rating rows of one user for one leader. *)
Definition pair_is (userId leaderId : string) : obj → bool :=
  f_and (f_eq "userId" (VStr userId)) (f_eq "leaderId" (VStr leaderId)).

(** At most one rating row for every (user, leader) pair. *)
Definition unique_pairs (s : Store) : Prop :=
  ∀ u l, (length (List.filter (pair_is u l) (rows s "ratings")) ≤ 1)%nat.

(** An approved leader, added by user "u", that nobody has rated yet. *)
Definition freshLeader : obj :=
  literal [ ("id", Some (VStr "L"));
            ("rating", Some (VInt 0));
            ("review_count", Some (VInt 0));
            ("status", Some (VStr "approved"));
            ("added_by_user_id", Some (VStr "u")) ].

Definition oneLeader : Store := set_rows "leaders" [freshLeader] ∅.

(** A store whose fourth call is going to report an error. *)
Definition failingUpdate : World :=
  {| db := oneLeader; faults := [false; false; false; true] |}.

(** A store that reports no error. *)
Definition working : World := {| db := oneLeader; faults := [] |}.

(** A store whose next call is going to report an error. *)
Definition failingLookup : World := {| db := oneLeader; faults := [true] |}.

(** Forty ratings of leader "L": one 2 and thirty-nine 1, so that their
    mean is 1.025. *)
Definition fortyRatings : list obj :=
  ratingRow "L" "0" 2 None (Some (VTime 0)) 0
  :: ((λ i : nat, ratingRow "L" (pretty i) 1 None (Some (VTime 0)) 0) <$> seq 1 39).

(** User "u" has given leader "L" a 2. *)
Definition ratedOnce : World :=
  {| db := set_rows "ratings" [ratingRow "L" "u" 2 None (Some (VTime 0)) 0] ∅;
     faults := [] |}.

Definition is_ok {A} (o : outcome A) : bool :=
  match o with Ok _ => true | Throw _ => false end.

(** ** Settings *)

(** A value that is neither [undefined] nor [null]. *)
Definition non_null (v : option value) : Prop := v ≠ None ∧ v ≠ Some VNull.

(** ** Support tickets *)

(** The statuses the automated deletion looks for. *)
Definition inactive (status : string) : Prop :=
  status = "in-progress" ∨ status = "resolved" ∨ status = "closed".

(** A ticket closed a hundred days ago, in a store whose next call is
    going to report an error. *)
Definition oldTicket : obj :=
  literal [ ("id", Some (VStr "a")); ("status", Some (VStr "closed"));
            ("created_at", Some (VTime 0)); ("updated_at", Some (VTime 0)) ].

Definition hundredDays : Z := 100 * 24 * 60 * 60 * 1000.

Definition failingDelete : World :=
  {| db := set_rows "support_tickets" [oldTicket] ∅; faults := [true] |}.

(** ** Users *)

(** Two rows that differ at most in the password column. *)
Definition same_but_password (a b : obj) : Prop :=
  delete "password" a = delete "password" b.

(** Two stores that differ at most in the passwords of their users. *)
Definition same_but_passwords (s1 s2 : Store) : Prop :=
  Forall2 same_but_password (rows s1 "users") (rows s2 "users")
  ∧ ∀ t, t ≠ "users" → rows s1 t = rows s2 t.

Definition alice (password : string) : obj :=
  <["password" := VStr password]>
    (literal [ ("id", Some (VStr "1")); ("email", Some (VStr "alice@example.org"));
               ("name", Some (VStr "Alice")); ("created_at", Some (VTime 5)) ]).

(** ** Polls *)

(** The answer selects the option whose id turns into the key [k]. *)
Definition selects (k : string) (answer : obj) : bool :=
  String.eqb (key_of (answer !! "selected_option_id")) k.

(** The number of answers that select an option. *)
Definition selecting (answers : list obj) (option : obj) : nat :=
  length (List.filter (selects (key_of (option !! "id"))) answers).

(** The whole number a percentage is. *)
Definition points (percentage : double) : Z :=
  match percentage with Finite x => Qfloor x | _ => 0%Z end.

Definition sum_percentages (q : Polls.PollResult) : Z :=
  foldr (λ o acc, (points (Polls.percentage o) + acc)%Z) 0%Z (Polls.r_options q).

Definition optionKeys (options : list obj) : list string :=
  (λ o : obj, key_of (o !! "id")) <$> options.

(** A poll with two questions, answered once: the answer to the first
    question selects an option of the second. *)
Definition strayAnswer : World :=
  let w0 := {| db := ∅; faults := [] |} in
  let yesNo := [ {| Polls.i_optionText := "Yes"; Polls.i_optionOrder := 1 |};
                 {| Polls.i_optionText := "No"; Polls.i_optionOrder := 2 |} ] in
  let w1 := (Polls.createPoll
               {| Polls.i_title := "Roads"; Polls.i_description := None;
                  Polls.i_isActive := true; Polls.i_activeUntil := None;
                  Polls.i_questions :=
                    [ {| Polls.i_questionText := "Better?";
                         Polls.i_questionType := "single-choice";
                         Polls.i_questionOrder := 1;
                         Polls.i_options := yesNo |};
                      {| Polls.i_questionText := "Safer?";
                         Polls.i_questionType := "single-choice";
                         Polls.i_questionOrder := 2;
                         Polls.i_options := yesNo |} ] |}
               1 w0).2 in
  (Polls.submitPollResponse "1" "u" [("1_q_1", "1_q_2_o_1")] 2 w1).2.

(** ** The error policy *)

Definition throws {A} (c : M A) (w : World) (msg : string) : Prop :=
  (c w).1 = Throw msg.

Definition returns {A} (c : M A) (w : World) (a : A) : Prop :=
  (c w).1 = Ok a.

(** A store that reports an error on its next call... *)
Definition down (s : Store) (fs : list bool) : World :=
  {| db := s; faults := true :: fs |}.
(** ... or on a later one, whatever happens ([f1] ... [f4]) to those before... *)
Definition down2 (s : Store) (fs : list bool) (f1 : bool) : World :=
  {| db := s; faults := f1 :: true :: fs |}.
Definition down3 (s : Store) (fs : list bool) (f1 f2 : bool) : World :=
  {| db := s; faults := f1 :: f2 :: true :: fs |}.
Definition down5 (s : Store) (fs : list bool) (f1 f2 f3 f4 : bool) : World :=
  {| db := s; faults := f1 :: f2 :: f3 :: f4 :: true :: fs |}.
(** ... and the same store once the error has been reported. *)
Definition rest (s : Store) (fs : list bool) : World :=
  {| db := s; faults := fs |}.

(** The kind of JS value an operation hands to its caller. *)
Inductive kind :=
| KArray (n : nat)
| KNull
| KObject
| KNumber (z : Z)
| KBool (b : bool).

Class Render (A : Type) := kind_of : A → kind.

#[global] Instance render_list {A} : Render (list A) := λ l, KArray (length l).
#[global] Instance render_option {A} `{Render A} : Render (option A) :=
  λ o, match o with Some a => kind_of a | None => KNull end.
#[global] Instance render_obj : Render obj := λ _, KObject.
#[global] Instance render_leader : Render Leaders.Leader := λ _, KObject.
#[global] Instance render_settings : Render Settings.SiteSettings := λ _, KObject.
#[global] Instance render_nat : Render nat := λ n, KNumber (Z.of_nat n).
#[global] Instance render_bool : Render bool := λ b, KBool b.

(** An empty collection, [null] or [undefined], or an object. *)
Definition empty_null_or_object (k : kind) : Prop :=
  k = KArray 0 ∨ k = KNull ∨ k = KObject.

(** What [getSettings] returns when the store reports an error. *)
Definition noSettings : Settings.SiteSettings :=
  {| Settings.maintenance_active := Some (VStr "false");
     Settings.maintenance_start := Some VNull;
     Settings.maintenance_end := Some VNull;
     Settings.maintenance_message := Some VNull;
     Settings.contact_email := Some VNull;
     Settings.contact_phone := Some VNull;
     Settings.contact_twitter := Some VNull;
     Settings.contact_linkedin := Some VNull;
     Settings.contact_youtube := Some VNull;
     Settings.contact_facebook := Some VNull |}.

(** What [getSupportTicketStats] returns when the store reports an error. *)
Definition noStats : SupportTickets.SupportTicketStats :=
  {| SupportTickets.total := 0; SupportTickets.open := 0;
     SupportTickets.inProgress := 0; SupportTickets.resolved := 0;
     SupportTickets.closed := 0; SupportTickets.avgResolutionHours := None;
     SupportTickets.contact_email := Some VNull;
     SupportTickets.contact_phone := Some VNull;
     SupportTickets.contact_twitter := Some VNull;
     SupportTickets.contact_linkedin := Some VNull;
     SupportTickets.contact_youtube := Some VNull |}.

(** ** Further vocabulary *)

(** A store that reports no error on its next two calls, and one that
    reports none on its next three. *)
Definition calm2 (s : Store) (fs : list bool) : World :=
  {| db := s; faults := false :: false :: fs |}.
Definition calm3 (s : Store) (fs : list bool) : World :=
  {| db := s; faults := false :: false :: false :: fs |}.

(** The leader rows with a given id. *)
Definition leadersWith (s : Store) (id : string) : list obj :=
  List.filter (f_eq "id" (VStr id)) (rows s "leaders").

(** ** Leaders *)

(** The leader form used in the examples. *)
Definition someLeader : Leaders.LeaderData :=
  {| Leaders.d_name := "N"; Leaders.d_partyName := "P"; Leaders.d_gender := "other";
     Leaders.d_age := 50; Leaders.d_photoUrl := "p.png"; Leaders.d_constituency := "C";
     Leaders.d_nativeAddress := "A"; Leaders.d_electionType := "state";
     Leaders.d_state := Some "S"; Leaders.d_district := None;
     Leaders.d_previousElections :=
       [ {| e_electionType := "state"; e_constituency := "C"; e_status := "winner";
            e_electionYear := "2019"; e_partyName := "P" |} ];
     Leaders.d_manifestoUrl := None; Leaders.d_twitterUrl := None |}.

(** The row [addLeader] inserts. *)
Definition newLeaderRow (d : Leaders.LeaderData) (userId : option string) (now : Z) : obj :=
  literal (
    [ ("id", Some (VStr (time_id now))) ] ++
    Leaders.leaderColumns d ++
    [ ("rating", Some (VInt 0));
      ("review_count", Some (VInt 0));
      ("previous_elections", Some (VJson (Leaders.d_previousElections d)));
      ("manifesto_url", VStr <$> Leaders.d_manifestoUrl d);
      ("twitter_url", VStr <$> Leaders.d_twitterUrl d);
      ("added_by_user_id", Some (nullable userId));
      ("created_at", Some (VTime now));
      ("status", Some (VStr "pending"));
      ("admin_comment", Some VNull) ]).

(** A leader has this id. *)
Definition has_id (id : string) (leader : Leaders.Leader) : Prop :=
  Leaders.id leader = Some (VStr id).

(** Two leaders that differ at most in their status and the admin's
    comment. *)
Definition same_but_status (a b : Leaders.Leader) : Prop :=
  Leaders.id a = Leaders.id b ∧ Leaders.name a = Leaders.name b
  ∧ Leaders.partyName a = Leaders.partyName b ∧ Leaders.gender a = Leaders.gender b
  ∧ Leaders.age a = Leaders.age b ∧ Leaders.photoUrl a = Leaders.photoUrl b
  ∧ Leaders.constituency a = Leaders.constituency b
  ∧ Leaders.nativeAddress a = Leaders.nativeAddress b
  ∧ Leaders.electionType a = Leaders.electionType b
  ∧ Leaders.location_state a = Leaders.location_state b
  ∧ Leaders.location_district a = Leaders.location_district b
  ∧ Leaders.rating a = Leaders.rating b ∧ Leaders.reviewCount a = Leaders.reviewCount b
  ∧ Leaders.previousElections a = Leaders.previousElections b
  ∧ Leaders.manifestoUrl a = Leaders.manifestoUrl b
  ∧ Leaders.twitterUrl a = Leaders.twitterUrl b
  ∧ Leaders.addedByUserId a = Leaders.addedByUserId b
  ∧ Leaders.createdAt a = Leaders.createdAt b
  ∧ Leaders.userName a = Leaders.userName b.

(** The columns [approveLeader] and [updateLeaderStatus] write. *)
Definition statusPatch (status : string) (adminComment : option string) : obj :=
  literal [ ("status", Some (VStr status));
            ("admin_comment", Some (nullable adminComment)) ].

(** The public list, as [getLeaders] returns it. *)
Definition listed (w : World) : list Leaders.Leader :=
  match (Leaders.getLeaders w).1 with Ok l => l | Throw _ => [] end.

(** ** Ratings and comments *)

(** The rating rows of a user for a leader. *)
Definition ratingBy (s : Store) (userId leaderId : string) : list obj :=
  List.filter (pair_is userId leaderId) (rows s "ratings").

(** The comment rows of a user for a leader. *)
Definition commentBy (s : Store) (userId leaderId : string) : list obj :=
  List.filter (pair_is userId leaderId) (rows s "comments").

(** The row [submitRatingAndComment] upserts for a comment. *)
Definition commentRow (leaderId userId : string) (comment : option string) (now : Z) : obj :=
  literal [ ("userId", Some (VStr userId));
            ("leaderId", Some (VStr leaderId));
            ("comment", VStr <$> comment);
            ("createdAt", Some (VTime now));
            ("updatedAt", Some (VTime now)) ].

(** No comment, or one of white space only. *)
Definition blank (comment : option string) : Prop :=
  ∀ text, comment = Some text → trim text = "".

(** The row carries a score between two whole numbers. *)
Definition scored (lo hi : Z) (r : obj) : Prop :=
  ∃ x : Q, r !! "rating" = Some (VNum x) ∧ (inject_Z lo <= x)%Q ∧ (x <= inject_Z hi)%Q.

(** The row carries a score that is a whole number between [lo] and
    [hi]. *)
Definition whole_within (lo hi : Z) (r : obj) : Prop :=
  ∃ (q : Q) (z : Z), r !! "rating" = Some (VNum q) ∧ (q == inject_Z z)%Q
                     ∧ (lo ≤ z ≤ hi)%Z.

(** Leader "L" has a 3 from user "a" and a 4 from user "b", and his row
    says so. *)
Definition ratedTwice : Store :=
  set_rows "ratings"
    [ ratingRow "L" "a" 3 None (Some (VTime 0)) 0;
      ratingRow "L" "b" 4 None (Some (VTime 0)) 0 ]
    (set_rows "leaders"
       [literal [ ("id", Some (VStr "L"));
                  ("rating", Some (VNum (35 # 10)));
                  ("review_count", Some (VInt 2));
                  ("status", Some (VStr "approved")) ]] ∅).

(** A store that never reports an error. *)
Definition calm (s : Store) : World := {| db := s; faults := [] |}.

(** ** Distributions and counts *)

(** The number of ratings a distribution accounts for. *)
Definition ratingsCounted (d : list Leaders.RatingDistribution) : nat :=
  foldr (λ x acc, (Leaders.rd_count x + acc)%nat) 0%nat d.



(** The result of a read that does not throw. *)
Definition result {A} (dflt : A) (o : outcome A) : A :=
  match o with Ok a => a | Throw _ => dflt end.

(** The filters without their dates. *)
Definition undated (f : Leaders.Filters) : Leaders.Filters :=
  {| Leaders.startDate := None; Leaders.endDate := None;
     Leaders.state := Leaders.state f; Leaders.f_constituency := Leaders.f_constituency f |}.

(** ** Settings *)

(** The row [updateSettings] upserts for an entry. *)
Definition settingRow (key : string) (v : option jsstring) : obj :=
  literal [ ("key", Some (VStr key)); ("value", Some (Settings.toStringOrNull v)) ].

(** The row [updateSiteSettings] upserts for an entry. *)
Definition siteSettingRow (key : string) (v : option jsstring) : obj :=
  literal [ ("key", Some (VStr key)); ("value", Some (Settings.String_ v)) ].

(** As many calls without an error, then the given flags. *)
Definition calm_for (n : nat) (fs : list bool) : list bool := (replicate n false ++ fs)%list.

(** The value stored for a setting: that of the last row of the table with
    this key. *)
Definition stored_setting (s : Store) (key : string) : option value :=
  r ← last (List.filter (f_eq "key" (VStr key)) (rows s "settings")); r !! "value".

(** The maintenance switch is on, and the time is within the window that
    is stored, a bound that is not a timestamp counting as none. *)
Definition maintenance_due (s : Store) (now : Z) : Prop :=
  stored_setting s "maintenance_active" = Some (VStr "true")
  ∧ (∀ t, stored_setting s "maintenance_start" = Some (VTime t) → (t ≤ now)%Z)
  ∧ (∀ t, stored_setting s "maintenance_end" = Some (VTime t) → (now ≤ t)%Z).

(** The switch is on and no window is stored. *)
Definition switchedOn : Store :=
  set_rows "settings"
    [literal [ ("key", Some (VStr "maintenance_active")); ("value", Some (VStr "true")) ]] ∅.

(** ** Notifications *)

(** The notification rows with a given id. *)
Definition notificationsWith (s : Store) (id : string) : list obj :=
  List.filter (f_eq "id" (VStr id)) (rows s "notifications").

(** The notification is switched on and the moment lies in its window; a
    window without a start or without an end is open on that side. *)
Definition shown (d : Notifications.NotificationPayload) (now : Z) : Prop :=
  Notifications.p_isActive d = true
  ∧ (∀ t, Notifications.p_startTime d = Some t → (t ≤ now)%Z)
  ∧ (∀ t, Notifications.p_endTime d = Some t → (now ≤ t)%Z).

(** The row [addNotification] inserts. *)
Definition notificationRow (d : Notifications.NotificationPayload) (now : Z) : obj :=
  literal [ ("id", Some (VStr (time_id now)));
            ("message", Some (VStr (Notifications.p_message d)));
            ("start_time", Some (Notifications.time_or_null (Notifications.p_startTime d)));
            ("end_time", Some (Notifications.time_or_null (Notifications.p_endTime d)));
            ("is_active", Some (VBool (Notifications.p_isActive d)));
            ("created_at", Some (VTime now));
            ("link", Some (nullable (Notifications.p_link d))) ].

(** The columns [updateNotification] writes. *)
Definition notificationPatch (d : Notifications.NotificationPayload) : obj :=
  literal [ ("message", Some (VStr (Notifications.p_message d)));
            ("start_time", Some (Notifications.time_or_null (Notifications.p_startTime d)));
            ("end_time", Some (Notifications.time_or_null (Notifications.p_endTime d)));
            ("is_active", Some (VBool (Notifications.p_isActive d)));
            ("link", Some (nullable (Notifications.p_link d))) ].

Definition someNotification : Notifications.NotificationPayload :=
  {| Notifications.p_message := "Hello"; Notifications.p_startTime := Some 10%Z;
     Notifications.p_endTime := None; Notifications.p_isActive := true;
     Notifications.p_link := None |}.

(** ** Polls *)

(** The response rows of a user for a poll. *)
Definition responsesBy (s : Store) (pollId userId : string) : list obj :=
  List.filter (f_and (f_eq "poll_id" (VStr pollId)) (f_eq "user_id" (VStr userId)))
    (rows s "poll_responses").

(** The row [submitPollResponse] inserts for a response. *)
Definition responseRow (pollId userId : string) (now : Z) : obj :=
  literal [ ("id", Some (VStr (time_id now)));
            ("poll_id", Some (VStr pollId));
            ("user_id", Some (VStr userId));
            ("created_at", Some (VTime now)) ].

(** The poll rows with a given id, and the question rows of a poll. *)
Definition pollsWith (s : Store) (pollId : string) : list obj :=
  List.filter (f_eq "id" (VStr pollId)) (rows s "polls").

Definition questionsOf (s : Store) (pollId : string) : list obj :=
  List.filter (f_eq "poll_id" (VStr pollId)) (rows s "poll_questions").

(** The rows [createPoll] inserts for the poll and for a question. *)
Definition pollRow (d : Polls.PollInput) (now : Z) : obj :=
  literal [ ("id", Some (VStr (time_id now)));
            ("title", Some (VStr (Polls.i_title d)));
            ("description", Some (nullable (Polls.i_description d)));
            ("is_active", Some (VBool (Polls.i_isActive d)));
            ("active_until",
             Some (match Polls.i_activeUntil d with Some t => VTime t | None => VNull end));
            ("created_at", Some (VTime now)) ].

Definition questionRow (pollId : string) (q : Polls.QuestionInput) : obj :=
  literal [ ("id", Some (VStr (pollId +:+ "_q_" +:+ pretty (Polls.i_questionOrder q))));
            ("poll_id", Some (VStr pollId));
            ("question_text", Some (VStr (Polls.i_questionText q)));
            ("question_type", Some (VStr (Polls.i_questionType q)));
            ("question_order", Some (VInt (Polls.i_questionOrder q))) ].

(** The text and the position of a question, as returned and as submitted. *)
Definition returned (q : Polls.PollQuestion) : option value * option value :=
  (Polls.q_questionText q, Polls.q_questionOrder q).

Definition submitted (q : Polls.QuestionInput) : option value * option value :=
  (Some (VStr (Polls.i_questionText q)), Some (VInt (Polls.i_questionOrder q))).

Definition ascending (a b : Polls.PollQuestion) : Prop :=
  (to_num (Polls.q_questionOrder a) <= to_num (Polls.q_questionOrder b))%Q.

Definition twoQuestions : Polls.PollInput :=
  {| Polls.i_title := "Roads"; Polls.i_description := None;
     Polls.i_isActive := true; Polls.i_activeUntil := None;
     Polls.i_questions :=
       [ {| Polls.i_questionText := "Second"; Polls.i_questionType := "text";
            Polls.i_questionOrder := 2; Polls.i_options := [] |};
         {| Polls.i_questionText := "First"; Polls.i_questionType := "single-choice";
            Polls.i_questionOrder := 1;
            Polls.i_options := [ {| Polls.i_optionText := "Yes"; Polls.i_optionOrder := 1 |} ] |} ] |}.

(** The columns [updatePollStatus] writes. *)
Definition pollStatusPatch (isActive : bool) (activeUntil : option Z) : obj :=
  literal [ ("is_active", Some (VBool isActive));
            ("active_until",
             Some (match activeUntil with Some t => VTime t | None => VNull end)) ].

(** The poll has this id. *)
Definition poll_is (pollId : string) (p : Polls.Poll) : Prop :=
  Polls.id p = Some (VStr pollId).

(** ** Support tickets *)

(** The ticket rows with a given id. *)
Definition ticketsWith (s : Store) (id : string) : list obj :=
  List.filter (f_eq "id" (VStr id)) (rows s "support_tickets").

(** The row [createSupportTicket] inserts. *)
Definition ticketRow (d : SupportTickets.TicketInput) (now : Z) : obj :=
  literal [ ("id", Some (VStr (time_id now)));
            ("user_id", Some (nullable (SupportTickets.user_id d)));
            ("user_name", Some (VStr (SupportTickets.user_name d)));
            ("user_email", Some (VStr (SupportTickets.user_email d)));
            ("subject", Some (VStr (SupportTickets.subject d)));
            ("message", Some (VStr (SupportTickets.message d)));
            ("status", Some (VStr "open"));
            ("created_at", Some (VTime now));
            ("updated_at", Some (VTime now)) ].

(** The columns [updateTicketStatus] writes. *)
Definition ticketPatch (status : string) (adminNotes : option string) (now : Z) : obj :=
  literal [ ("status", Some (VStr status));
            ("admin_notes", Some (nullable adminNotes));
            ("updated_at", Some (VTime now));
            ("resolved_at",
             if String.eqb status "resolved" || String.eqb status "closed"
             then Some (VTime now) else None) ].

(** The number of tickets with a status. *)
Definition withStatus (s : Store) (status : string) : nat :=
  length (List.filter (f_eq "status" (VStr status)) (rows s "support_tickets")).

(** The ticket has this id. *)
Definition ticket_is (id : string) (t : obj) : Prop := t !! "id" = Some (VStr id).

Definition someTicket : SupportTickets.TicketInput :=
  {| SupportTickets.user_id := None; SupportTickets.user_name := "Ann";
     SupportTickets.user_email := "ann@example.org"; SupportTickets.subject := "Login";
     SupportTickets.message := "I cannot log in." |}.

(** ** Users *)

(** The user rows with a given id, and with a given email. *)
Definition usersWith (s : Store) (id : string) : list obj :=
  List.filter (f_eq "id" (VStr id)) (rows s "users").

Definition usersByEmail (s : Store) (email : string) : list obj :=
  List.filter (f_eq "email" (VStr email)) (rows s "users").

(** Two rows agree on the identity columns. *)
Definition same_identity (a b : obj) : Prop :=
  a !! "id" = b !! "id" ∧ a !! "email" = b !! "email" ∧ a !! "password" = b !! "password".

(** The columns [blockUser] and [unblockUser] write. *)
Definition blockPatch (reason : string) (blockedUntil : option Z) : obj :=
  literal [ ("is_blocked", Some (VBool true));
            ("block_reason", Some (VStr reason));
            ("blocked_until",
             Some (match blockedUntil with Some t => VTime t | None => VNull end)) ].

Definition unblockPatch : obj :=
  literal [ ("is_blocked", Some (VBool false));
            ("block_reason", Some VNull);
            ("blocked_until", Some VNull) ].

(** What [findUserById] returns, [None] also when it throws. *)
Definition found (id : string) (w : World) : option obj :=
  result None (Users.findUserById id w).1.

(** The message rows with a given id. *)
Definition messagesWith (s : Store) (id : string) : list obj :=
  List.filter (f_eq "id" (VStr id)) (rows s "admin_messages").

(** The row [addAdminMessage] inserts. *)
Definition messageRow (userId message : string) (now : Z) : obj :=
  literal [ ("id", Some (VStr (time_id now)));
            ("userId", Some (VStr userId));
            ("message", Some (VStr message));
            ("createdAt", Some (VTime now));
            ("isRead", Some (VBool false)) ].

Definition message_is (id : string) (m : obj) : Prop := m !! "id" = Some (VStr id).

Definition bob : Users.UserInput :=
  {| Users.u_email := "Bob@Example.org"; Users.u_password := Some "secret";
     Users.u_name := None |}.

(** * Lemmas on the store and on calls *)

Section Core.

Lemma literal_lookup fs k : literal fs !! k = assoc k fs.
Proof.
  unfold literal. induction fs as [|[k' [x|]] fs IH]; simpl.
  - done.
  - destruct (String.eqb_spec k' k) as [->|Hne].
    + by rewrite lookup_insert_eq.
    + by rewrite lookup_insert_ne.
  - destruct (String.eqb k' k); apply IH.
Qed.

Lemma rows_set_rows t rs (s : Store) : rows (set_rows t rs s) t = rs.
Proof. unfold rows, set_rows. by rewrite lookup_insert_eq. Qed.

Lemma rows_set_rows_ne t t' rs (s : Store) :
  t ≠ t' → rows (set_rows t rs s) t' = rows s t'.
Proof. intros. unfold rows, set_rows. by rewrite lookup_insert_ne. Qed.

Lemma project_lookup (cs : list string) (r : obj) c :
  c ∈ cs → project cs r !! c = r !! c.
Proof.
  unfold project. intros Hc.
  destruct (r !! c) as [v|] eqn:E.
  - by apply map_lookup_filter_Some.
  - apply map_lookup_filter_None. by left.
Qed.

Lemma omap_columns (cs : list string) (s : Store) (l : list obj) :
  omap (columns cs s) l = project cs <$> l.
Proof. induction l as [|r l IH]; [done|]. simpl. by f_equal. Qed.

Lemma omap_star (s : Store) (l : list obj) : omap (star s) l = l.
Proof. induction l as [|r l IH]; [done|]. simpl. by f_equal. Qed.

Lemma value_eqb_str (x : value) (s : string) : value_eqb x (VStr s) = true ↔ x = VStr s.
Proof.
  destruct x; simpl; try (split; discriminate).
  rewrite String.eqb_eq. split; congruence.
Qed.

Lemma f_eq_str (c s : string) (r : obj) :
  f_eq c (VStr s) r = true ↔ r !! c = Some (VStr s).
Proof.
  unfold f_eq, column. destruct (r !! c) as [x|]; [|split; discriminate].
  rewrite value_eqb_str. split; congruence.
Qed.

Lemma filter_fmap_same {A} (p : A → bool) (f : A → A) (l : list A) :
  (∀ x, p (f x) = p x) → List.filter p (f <$> l) = f <$> List.filter p l.
Proof.
  intros H. induction l as [|x l IH]; [done|].
  rewrite fmap_cons. cbn [List.filter]. rewrite H, IH. by destruct (p x).
Qed.

Lemma existsb_pointwise {A} (f g : A → bool) (l : list A) :
  (∀ x, f x = g x) → List.existsb f l = List.existsb g l.
Proof. intros H. induction l as [|x l IH]; [done|]. simpl. by rewrite H, IH. Qed.

Lemma existsb_false_filter {A} (p : A → bool) (l : list A) :
  List.existsb p l = false → List.filter p l = [].
Proof.
  induction l as [|x l IH]; [done|]. simpl.
  intros [Hx Hl]%orb_false_iff. rewrite Hx. auto.
Qed.

Lemma existsb_true_filter {A} (p : A → bool) (l : list A) :
  List.existsb p l = true → List.filter p l ≠ [].
Proof.
  induction l as [|x l IH]; [done|]. simpl.
  destruct (p x); [done|]. simpl. auto.
Qed.

(** A call consumes one fault flag; a failing call leaves the store alone. *)
Lemma call_run {A} (f : Store → response A * Store) (s : Store) fs :
  call f {| db := s; faults := fs |}
  = if fault fs then (Ok failed, {| db := s; faults := tail fs |})
    else (Ok (f s).1, {| db := (f s).2; faults := tail fs |}).
Proof.
  unfold call; simpl. destruct fs as [|[] fs]; simpl; try done; by destruct (f s).
Qed.

Lemma db_single_run t sh p (s : Store) fs :
  ∃ r, db_single t sh p {| db := s; faults := fs |}
       = (Ok r, {| db := s; faults := tail fs |}).
Proof.
  unfold db_single. rewrite call_run.
  destruct (fault fs); [by eauto|].
  destruct (query s t sh p unordered) as [|? [|]]; eauto.
Qed.

Lemma getLeaderById_run id (s : Store) fs :
  ∃ r, Leaders.getLeaderById id {| db := s; faults := fs |}
       = (Ok r, {| db := s; faults := tail fs |}).
Proof.
  unfold Leaders.getLeaderById, bind.
  destruct (db_single_run "leaders" star (f_eq "id" (VStr id)) s fs) as (r & ->).
  destruct (error r); eauto.
Qed.

End Core.

(** Symbolic execution of a sequence of calls. *)
Ltac exec :=
  repeat first
    [ rewrite call_run
    | progress cbn beta iota delta
        [fst snd data error failed fetched ret throw db faults fault tail app]
    | match goal with
      | |- context [if fault ?x then _ else _] => destruct (fault x) eqn:?
      end
    | match goal with
      | |- context [Leaders.getLeaderById ?l {| db := ?s; faults := ?f |}] =>
        destruct (getLeaderById_run l s f) as [? ->]
      end ].

(** * Binary64 rounding *)

Section Numbers.

(** On the sample, rounding, addition, multiplication and division are
    those of the standard library's description of binary64 arithmetic. *)
Lemma binary64_agrees_with_SpecFloat : agree_on 150 41 0 40 0 = true.
Proof. vm_compute. reflexivity. Qed.

(** 41/40, 23/40 and 1/10, as the processor has them. *)
Lemma binary64_examples :
  binary64 (41 # 40) = Finite (2308094809027379 # 2251799813685248)
  ∧ binary64 (23 # 40) = Finite (2589569785738035 # 4503599627370496)
  ∧ binary64 (1 # 10) = Finite (3602879701896397 # 36028797018963968)
  ∧ binary64 (pow2 1024 - pow2 970) = Infinity false
  ∧ binary64 (pow2 (-1075)) = Finite 0.
Proof. repeat split; vm_compute; reflexivity. Qed.

Lemma pow2_pos e : (0 < pow2 e)%Q.
Proof. apply Qpower_0_lt. reflexivity. Qed.

Lemma pow2_add a b : (pow2 (a + b) == pow2 a * pow2 b)%Q.
Proof. apply Qpower_plus. discriminate. Qed.

Lemma pow2_sub a b : (pow2 (a - b) == pow2 a / pow2 b)%Q.
Proof. apply Qpower_minus. discriminate. Qed.

Lemma pow2_succ a : (pow2 (a + 1) == 2 * pow2 a)%Q.
Proof. rewrite pow2_add. change (pow2 1) with 2%Q. ring. Qed.

Lemma pow2_le a b : (a ≤ b)%Z → (pow2 a <= pow2 b)%Q.
Proof. intros. apply Qpower_le_compat_l; [done|]. discriminate. Qed.

Lemma pow2_lt_inv a b : (pow2 a < pow2 b)%Q → (a < b)%Z.
Proof. intros. by apply (Qpower_lt_compat_l_inv 2). Qed.

Lemma pow2_Z n : (0 ≤ n)%Z → (pow2 n == inject_Z (2 ^ n))%Q.
Proof. intros. symmetry. by apply (Zpower_Qpower 2). Qed.

Lemma Qabs_make (x : Q) :
  (Qabs x == inject_Z (Z.abs (Qnum x)) / inject_Z (Zpos (Qden x)))%Q.
Proof.
  destruct x as [n d]. unfold Qabs. cbn [Qnum Qden].
  rewrite (Qmake_Qdiv (Z.abs n) d). reflexivity.
Qed.

(** The exponent is the one that brackets the number. *)
Lemma exponent_spec (x : Q) :
  ¬ (x == 0)%Q →
  (pow2 (exponent x) <= Qabs x)%Q ∧ (Qabs x < pow2 (exponent x + 1))%Q.
Proof.
  intros Hx. unfold exponent.
  set (n := Z.abs (Qnum x)). set (d := Zpos (Qden x)).
  assert (0 < n)%Z as Hn.
  { subst n. destruct x as [[|p|p] q]; cbn; try lia. exfalso. apply Hx. reflexivity. }
  assert (0 < d)%Z as Hd by (subst d; lia).
  destruct (Z.log2_spec n Hn) as [Hn1 Hn2]. destruct (Z.log2_spec d Hd) as [Hd1 Hd2].
  pose proof (Z.log2_nonneg n) as Hln. pose proof (Z.log2_nonneg d) as Hld.
  set (a := Z.log2 n) in *. set (b := Z.log2 d) in *.
  assert (Qabs x == inject_Z n / inject_Z d)%Q as Habs by apply Qabs_make.
  assert (0 < inject_Z d)%Q as HdQ.
  { change 0%Q with (inject_Z 0). by rewrite <- Zlt_Qlt. }
  assert (pow2 a <= inject_Z n)%Q as Qn1.
  { rewrite pow2_Z by done. by rewrite <- Zle_Qle. }
  assert (inject_Z n < pow2 (a + 1))%Q as Qn2.
  { rewrite pow2_Z by lia. rewrite <- Zlt_Qlt. by rewrite <- Z.add_1_r in Hn2. }
  assert (pow2 b <= inject_Z d)%Q as Qd1.
  { rewrite pow2_Z by done. by rewrite <- Zle_Qle. }
  assert (inject_Z d < pow2 (b + 1))%Q as Qd2.
  { rewrite pow2_Z by lia. rewrite <- Zlt_Qlt. by rewrite <- Z.add_1_r in Hd2. }
  pose proof (pow2_pos a) as Pa. pose proof (pow2_pos b) as Pb.
  assert (pow2 (a - b) * pow2 b == pow2 a)%Q as Hab.
  { rewrite <- pow2_add. by replace (a - b + b)%Z with a by lia. }
  pose proof (pow2_pos (a - b)) as Pab.
  assert (Qabs x * inject_Z d == inject_Z n)%Q as Hx'.
  { rewrite Habs. field. lra. }
  assert (Qabs x < pow2 (a - b + 1))%Q as Hup.
  { rewrite pow2_succ. apply Qnot_le_lt. intros Hle.
    rewrite pow2_succ in Qn2.
    assert (0 <= (Qabs x - 2 * pow2 (a - b)) * inject_Z d)%Q by (apply Qmult_le_0_compat; lra).
    assert (0 <= pow2 (a - b) * (inject_Z d - pow2 b))%Q by (apply Qmult_le_0_compat; lra).
    lra. }
  destruct (Qle_bool (pow2 (a - b)) (Qabs x)) eqn:E.
  - apply Qle_bool_iff in E. by split.
  - assert (¬ (pow2 (a - b) <= Qabs x)%Q) as Hlt by (rewrite <- Qle_bool_iff; congruence).
    apply Qnot_le_lt in Hlt. replace (a - b - 1 + 1)%Z with (a - b)%Z by lia.
    split; [|done].
    assert (pow2 (a - b) == 2 * pow2 (a - b - 1))%Q as H2.
    { rewrite <- pow2_succ. by replace (a - b - 1 + 1)%Z with (a - b)%Z by lia. }
    rewrite pow2_succ in Qd2.
    apply Qnot_lt_le. intros Hlo.
    pose proof (pow2_pos (a - b - 1)) as Pab'.
    assert (2 * pow2 (a - b - 1) * pow2 b == pow2 a)%Q as Hab' by (by rewrite <- H2).
    assert (0 < (pow2 (a - b - 1) - Qabs x) * inject_Z d)%Q by (apply Qmult_lt_0_compat; lra).
    assert (0 <= pow2 (a - b - 1) * (2 * pow2 b - inject_Z d))%Q by (apply Qmult_le_0_compat; lra).
    lra.
Qed.

Lemma exponent_unique (x : Q) (e : Z) :
  (pow2 e <= Qabs x)%Q → (Qabs x < pow2 (e + 1))%Q → exponent x = e.
Proof.
  intros H1 H2.
  assert (¬ (x == 0)%Q) as Hx.
  { intros E. rewrite E in H1. pose proof (pow2_pos e). change (Qabs 0) with 0%Q in H1. lra. }
  destruct (exponent_spec x Hx) as [E1 E2].
  assert (exponent x < e + 1)%Z by (apply pow2_lt_inv; lra).
  assert (e < exponent x + 1)%Z by (apply pow2_lt_inv; lra).
  lia.
Qed.

Lemma exponent_comp (x y : Q) : (x == y)%Q → ¬ (x == 0)%Q → exponent x = exponent y.
Proof.
  intros E Hx. symmetry. destruct (exponent_spec x Hx).
  apply exponent_unique; by rewrite <- E.
Qed.

Lemma round_even_near (y : Q) : (Qabs (inject_Z (round_even y) - y) <= 1 # 2)%Q.
Proof.
  unfold round_even.
  pose proof (Qfloor_le y) as H1. pose proof (Qlt_floor y) as H2.
  rewrite inject_Z_plus in H2. change (inject_Z 1) with 1%Q in H2.
  apply Qabs_Qle_condition.
  destruct (y - inject_Z (Qfloor y) ?= 1 # 2)%Q eqn:E.
  - apply Qeq_alt in E. destruct (Z.even _); [|rewrite inject_Z_plus; change (inject_Z 1) with 1%Q];
      split; lra.
  - apply Qlt_alt in E. split; lra.
  - apply Qgt_alt in E. rewrite inject_Z_plus. change (inject_Z 1) with 1%Q. split; lra.
Qed.

Lemma round_even_comp (x y : Q) : (x == y)%Q → round_even x = round_even y.
Proof.
  intros E. unfold round_even. rewrite (Qfloor_comp _ _ E).
  assert ((x - inject_Z (Qfloor y) ?= 1 # 2) = (y - inject_Z (Qfloor y) ?= 1 # 2))%Q as ->;
    [|done].
  by rewrite E.
Qed.

Lemma round_even_Z (n : Z) : round_even (inject_Z n) = n.
Proof.
  unfold round_even. rewrite Qfloor_Z.
  assert ((inject_Z n - inject_Z n ?= 1 # 2)%Q = Lt) as ->; [|done].
  rewrite <- Qlt_alt. lra.
Qed.

Lemma binary64_zero (x : Q) : (x == 0)%Q → binary64 x = Finite 0.
Proof. intros E. unfold binary64. apply Qeq_bool_iff in E. by rewrite E. Qed.

(** Rounding sees the value of a fraction, not the way it is written. *)
Lemma binary64_comp (x y : Q) : (x == y)%Q → binary64 x = binary64 y.
Proof.
  intros E. unfold binary64.
  destruct (Qeq_bool x 0) eqn:Hx.
  - apply Qeq_bool_iff in Hx. rewrite E in Hx. apply Qeq_bool_iff in Hx. by rewrite Hx.
  - assert (¬ (x == 0)%Q) as Hx' by (rewrite <- Qeq_bool_iff; congruence).
    assert (Qeq_bool y 0 = false) as ->.
    { apply not_true_is_false. rewrite Qeq_bool_iff. by rewrite <- E. }
    cbv zeta. rewrite <- (exponent_comp x y E Hx').
    set (ulp := pow2 (Z.max (exponent x) (-1022) - 52)).
    rewrite (round_even_comp (x / ulp) (y / ulp)) by (by rewrite E).
    unfold negative. assert (Qle_bool 0 x = Qle_bool 0 y) as ->; [|done].
    destruct (Qle_bool 0 y) eqn:Hy.
    + apply Qle_bool_iff. apply Qle_bool_iff in Hy. by rewrite E.
    + apply not_true_is_false. rewrite Qle_bool_iff. rewrite E. rewrite <- Qle_bool_iff. congruence.
Qed.

(** In the normal range the rounding error is at most one part in [2^53]. *)
Lemma binary64_near (x : Q) :
  (pow2 (-1022) <= Qabs x)%Q → (Qabs x <= pow2 1000)%Q →
  ∃ r, binary64 x = Finite r ∧ (Qabs (r - x) <= Qabs x * pow2 (-53))%Q.
Proof.
  intros Hlo Hhi.
  assert (¬ (x == 0)%Q) as Hx.
  { intros E. rewrite E in Hlo. pose proof (pow2_pos (-1022)). change (Qabs 0) with 0%Q in Hlo. lra. }
  unfold binary64.
  assert (Qeq_bool x 0 = false) as -> by (apply not_true_is_false; by rewrite Qeq_bool_iff).
  cbv zeta. destruct (exponent_spec x Hx) as [E1 _].
  set (E := Z.max (exponent x) (-1022)).
  assert (pow2 E <= Qabs x)%Q as HE by (subst E; destruct (Z.max_spec (exponent x) (-1022)) as [[_ ->]|[_ ->]]; done).
  set (ulp := pow2 (E - 52)).
  pose proof (pow2_pos (E - 52)) as Hulp. fold ulp in Hulp.
  assert (ulp == 2 * (pow2 E * pow2 (-53)))%Q as Hu.
  { subst ulp. rewrite <- pow2_add, <- pow2_succ. by replace (E + -53 + 1)%Z with (E - 52)%Z by lia. }
  set (n := round_even (x / ulp)).
  pose proof (round_even_near (x / ulp)) as Hn. fold n in Hn.
  set (r := Qred (inject_Z n * ulp)).
  assert (r == inject_Z n * ulp)%Q as Hr by apply Qred_correct.
  assert (Qabs (r - x) <= ulp * (1 # 2))%Q as Herr.
  { assert (r - x == (inject_Z n - x / ulp) * ulp)%Q as -> by (rewrite Hr; field; lra).
    rewrite Qabs_Qmult, (Qabs_pos ulp) by lra.
    rewrite (Qmult_comm ulp). apply Qmult_le_compat_r; [done|lra]. }
  pose proof (pow2_pos (-53)) as P53.
  assert (pow2 E * pow2 (-53) <= Qabs x * pow2 (-53))%Q as Hm
    by (apply Qmult_le_compat_r; [done|lra]).
  assert (Qabs (r - x) <= Qabs x * pow2 (-53))%Q as Hnear by lra.
  exists r. split; [|done].
  assert (Qle_bool (pow2 1024) (Qabs r) = false) as ->; [|done].
  apply not_true_is_false. rewrite Qle_bool_iff. intros Hbig.
  assert (Qabs r <= Qabs x + Qabs (r - x))%Q as Htri.
  { assert (r == x + (r - x))%Q as Hd by ring. rewrite Hd at 1. apply Qabs_triangle. }
  assert (pow2 (-53) <= 1)%Q as Hone by (vm_compute; discriminate).
  assert (Qabs x * pow2 (-53) <= pow2 1000 * 1)%Q as Hsmall.
  { assert (0 <= Qabs x * (1 - pow2 (-53)))%Q
      by (apply Qmult_le_0_compat; [apply Qabs_nonneg|lra]).
    lra. }
  assert (pow2 1024 == 2 * pow2 1000 + (pow2 1024 - 2 * pow2 1000))%Q as Hs by ring.
  assert (0 < pow2 1024 - 2 * pow2 1000)%Q by (vm_compute; reflexivity).
  lra.
Qed.

Lemma Qred_Z (z : Z) : Qred (inject_Z z) = inject_Z z.
Proof.
  unfold Qred, inject_Z.
  pose proof (Z.ggcd_gcd z 1) as Hg. pose proof (Z.ggcd_correct_divisors z 1) as Hd.
  destruct (Z.ggcd z 1) as [g [aa bb]]. cbn [fst snd] in *.
  rewrite Z.gcd_1_r in Hg. subst g. destruct Hd as [Ha Hb].
  assert (aa = z) as -> by lia. assert (bb = 1%Z) as -> by lia. reflexivity.
Qed.

(** Whole numbers below [2^53] are binary64 numbers. *)
Lemma binary64_Z (z : Z) :
  (Z.abs z < 2 ^ 53)%Z → binary64 (inject_Z z) = Finite (inject_Z z).
Proof.
  intros Hz. destruct (Z.eq_dec z 0%Z) as [->|Hnz]; [done|].
  assert (¬ (inject_Z z == 0)%Q) as Hx.
  { change 0%Q with (inject_Z 0). by rewrite inject_Z_injective. }
  assert (Qabs (inject_Z z) == inject_Z (Z.abs z))%Q as Habs by reflexivity.
  destruct (exponent_spec _ Hx) as [E1 E2]. rewrite Habs in E1, E2.
  set (e := exponent (inject_Z z)) in *.
  assert (e < 53)%Z as He1.
  { apply pow2_lt_inv. rewrite (pow2_Z 53) by done.
    apply Qle_lt_trans with (inject_Z (Z.abs z)); [done|]. by rewrite <- Zlt_Qlt. }
  assert (0 < e + 1)%Z as He0.
  { apply pow2_lt_inv. change (pow2 0) with (inject_Z 1).
    apply Qle_lt_trans with (inject_Z (Z.abs z)); [|done]. rewrite <- Zle_Qle. lia. }
  unfold binary64.
  assert (Qeq_bool (inject_Z z) 0 = false) as ->
    by (apply not_true_is_false; by rewrite Qeq_bool_iff).
  cbv zeta. fold e. rewrite Z.max_l by lia.
  pose proof (pow2_pos (e - 52)) as Hulp.
  assert (pow2 (e - 52) * inject_Z (2 ^ (52 - e)) == 1)%Q as Hinv.
  { rewrite <- pow2_Z by lia. rewrite <- pow2_add. by replace (e - 52 + (52 - e))%Z with 0%Z by lia. }
  assert (inject_Z z / pow2 (e - 52) == inject_Z (z * 2 ^ (52 - e)))%Q as Hq.
  { rewrite inject_Z_mult. rewrite <- (Qmult_inj_r _ _ (pow2 (e - 52))) by lra.
    transitivity (inject_Z z); [field; lra|].
    rewrite <- Qmult_assoc, (Qmult_comm (inject_Z (2 ^ _))), Hinv. ring. }
  rewrite (round_even_comp _ _ Hq), round_even_Z.
  assert (Qred (inject_Z (z * 2 ^ (52 - e)) * pow2 (e - 52)) = inject_Z z) as ->.
  { rewrite <- (Qred_Z z). apply Qred_complete.
    rewrite inject_Z_mult, <- Qmult_assoc, (Qmult_comm (inject_Z (2 ^ _))), Hinv. ring. }
  assert (Qle_bool (pow2 1024) (Qabs (inject_Z z)) = false) as ->; [|done].
  apply not_true_is_false. rewrite Qle_bool_iff, Habs. intros Hbig.
  assert (inject_Z (Z.abs z) < inject_Z (2 ^ 53))%Q as Hlt by (by rewrite <- Zlt_Qlt).
  assert (inject_Z (2 ^ 53) <= pow2 1024)%Q by (vm_compute; discriminate).
  lra.
Qed.

(** A whole number within a half of [y] is a nearest one to a fraction
    [S/n] that [y] is close enough to. *)
Lemma nearest_of_close (k S n : Z) (y : Q) :
  (0 < n)%Z →
  (Qabs (inject_Z k - y) <= 1 # 2)%Q →
  (Qabs (y - inject_Z S / inject_Z n) < (1 # 2) / inject_Z n)%Q →
  (2 * Z.abs (k * n - S) ≤ n)%Z.
Proof.
  intros Hn H1 H2.
  assert (0 < inject_Z n)%Q as Hq by (change 0%Q with (inject_Z 0); by rewrite <- Zlt_Qlt).
  apply Qabs_Qle_condition in H1 as [H1a H1b].
  apply Qabs_Qlt_condition in H2 as [H2a H2b].
  assert ((inject_Z k - inject_Z S / inject_Z n) * (2 * inject_Z n)
          < ((1 # 2) + (1 # 2) / inject_Z n) * (2 * inject_Z n))%Q as Hup
    by (apply Qmult_lt_compat_r; lra).
  assert ((- ((1 # 2) + (1 # 2) / inject_Z n)) * (2 * inject_Z n)
          < (inject_Z k - inject_Z S / inject_Z n) * (2 * inject_Z n))%Q as Hdn
    by (apply Qmult_lt_compat_r; lra).
  assert ((inject_Z k - inject_Z S / inject_Z n) * (2 * inject_Z n)
          == inject_Z (2 * (k * n - S)))%Q as E1.
  { replace (2 * (k * n - S))%Z with (2 * (k * n) + - (2 * S))%Z by lia.
    rewrite inject_Z_plus, inject_Z_opp, !inject_Z_mult. change (inject_Z 2) with 2%Q.
    field. lra. }
  assert (((1 # 2) + (1 # 2) / inject_Z n) * (2 * inject_Z n) == inject_Z (n + 1))%Q as E2.
  { rewrite inject_Z_plus. change (inject_Z 1) with 1%Q. field. lra. }
  assert ((- ((1 # 2) + (1 # 2) / inject_Z n)) * (2 * inject_Z n) == inject_Z (- (n + 1)))%Q
    as E3.
  { rewrite inject_Z_opp, inject_Z_plus. change (inject_Z 1) with 1%Q. field. lra. }
  rewrite E1, E2 in Hup. rewrite E1, E3 in Hdn.
  rewrite <- Zlt_Qlt in Hup, Hdn. lia.
Qed.

Lemma Qabs_Z (z : Z) : (Qabs (inject_Z z) == inject_Z (Z.abs z))%Q.
Proof. reflexivity. Qed.

Lemma Qabs_bound (a b : Q) : (Qabs a <= Qabs b + Qabs (a - b))%Q.
Proof.
  assert (a == b + (a - b))%Q as E by ring. rewrite E at 1. apply Qabs_triangle.
Qed.

Lemma round_half_up_near (y : Q) :
  (inject_Z (round_half_up y) <= y + (1 # 2))%Q ∧
  (y - (1 # 2) < inject_Z (round_half_up y))%Q.
Proof.
  unfold round_half_up. split; [apply Qfloor_le|].
  pose proof (Qlt_floor (y + (1 # 2))) as H.
  rewrite inject_Z_plus in H. change (inject_Z 1) with 1%Q in H. lra.
Qed.

(** [toFixed2] is within half a hundredth of its argument... *)
Lemma toFixed2_nearest (x : Q) : (Qabs (toFixed2 x - x) <= 1 # 200)%Q.
Proof.
  unfold toFixed2. destruct (Qle_bool 0 x); rewrite Qred_correct.
  - destruct (round_half_up_near (x * 100)) as [H1 H2].
    apply Qabs_Qle_condition. unfold Qdiv. change (/ 100)%Q with (1 # 100)%Q.
    split; lra.
  - destruct (round_half_up_near (- x * 100)) as [H1 H2].
    apply Qabs_Qle_condition. unfold Qdiv. change (/ 100)%Q with (1 # 100)%Q.
    split; lra.
Qed.

(** ... and has two decimal places. *)
Lemma toFixed2_hundredths (x : Q) : ∃ n : Z, (toFixed2 x == inject_Z n / 100)%Q.
Proof.
  unfold toFixed2. destruct (Qle_bool 0 x).
  - eexists. apply Qred_correct.
  - exists (- round_half_up (- x * 100))%Z.
    rewrite Qred_correct, inject_Z_opp. field.
Qed.

Lemma Qabs_div (a b : Q) : ¬ (b == 0)%Q → (Qabs (a / b) == Qabs a / Qabs b)%Q.
Proof.
  intros Hb. unfold Qdiv. rewrite Qabs_Qmult. apply Qmult_comp; [reflexivity|].
  apply Qabs_Qinv.
Qed.

(** The number written for a fraction [S/n] of whole numbers that are not
    too large is the binary64 number nearest to a nearest multiple of a
    hundredth. *)
Lemma hundredths_of_fraction (S n : Z) :
  (0 < n)%Z → (200 * Z.abs S < 2 ^ 53)%Z → (S ≠ 0%Z → (n < 2 ^ 53)%Z) →
  rounds_to_hundredths (inject_Z S / inject_Z n)
    (written (binary64 (inject_Z S / inject_Z n))).
Proof.
  intros Hn HS Hn53.
  assert (0 < inject_Z n)%Q as Hq by (change 0%Q with (inject_Z 0); by rewrite <- Zlt_Qlt).
  set (x := (inject_Z S / inject_Z n)%Q).
  destruct (Z.eq_dec S 0%Z) as [->|Hnz].
  { assert (x == 0)%Q as Hx by (subst x; field; lra).
    rewrite (binary64_zero x Hx).
    exists 0%Z, 0%Q. split; [by vm_compute|]. split; [by vm_compute|].
    rewrite Hx. by vm_compute. }
  specialize (Hn53 Hnz).
  assert (Qabs x == inject_Z (Z.abs S) / inject_Z n)%Q as Habs.
  { subst x. rewrite Qabs_div by lra. rewrite Qabs_Z, (Qabs_pos (inject_Z n)) by lra.
    reflexivity. }
  assert (1 <= inject_Z (Z.abs S))%Q as HS1.
  { change 1%Q with (inject_Z 1). rewrite <- Zle_Qle. lia. }
  assert (200 * inject_Z (Z.abs S) < 9007199254740992)%Q as HS2.
  { change 200%Q with (inject_Z 200). change 9007199254740992%Q with (inject_Z (2 ^ 53)).
    rewrite <- inject_Z_mult, <- Zlt_Qlt. lia. }
  assert (1 <= inject_Z n)%Q as Hn1.
  { change 1%Q with (inject_Z 1). rewrite <- Zle_Qle. lia. }
  assert (inject_Z n < 9007199254740992)%Q as Hn2.
  { change 9007199254740992%Q with (inject_Z (2 ^ 53)). by rewrite <- Zlt_Qlt. }
  assert (pow2 (-53) == 1 # 9007199254740992)%Q as H53 by reflexivity.
  (* bounds on |x| *)
  assert (/ inject_Z n <= 1)%Q as Hinv1.
  { apply Qle_shift_inv_r; lra. }
  assert ((1 # 9007199254740992) < / inject_Z n)%Q as Hinv2.
  { apply Qlt_shift_inv_l; lra. }
  assert (0 < / inject_Z n)%Q as Hinv0 by (by apply Qinv_lt_0_compat).
  assert (Qabs x <= inject_Z (Z.abs S))%Q as Hx1.
  { rewrite Habs. unfold Qdiv.
    assert (0 <= inject_Z (Z.abs S) * (1 - / inject_Z n))%Q
      by (apply Qmult_le_0_compat; lra).
    lra. }
  assert (/ inject_Z n <= Qabs x)%Q as Hx0.
  { rewrite Habs. unfold Qdiv.
    assert (0 <= (inject_Z (Z.abs S) - 1) * / inject_Z n)%Q
      by (apply Qmult_le_0_compat; lra).
    lra. }
  destruct (binary64_near x) as (md & Hmd & Hnear).
  { apply Qle_trans with (1 # 9007199254740992)%Q; [by vm_compute|lra]. }
  { apply Qle_trans with 9007199254740992%Q; [lra|by vm_compute]. }
  rewrite Hmd. unfold written, parseFloat_toFixed2.
  assert (Qabs x * pow2 (-53) <= Qabs x)%Q as Hsmall.
  { assert (0 <= Qabs x * (1 - pow2 (-53)))%Q
      by (apply Qmult_le_0_compat; [apply Qabs_nonneg|by vm_compute]).
    lra. }
  pose proof (Qabs_bound md x) as Hmd1.
  assert (Qle_bool (10 ^ 21) (Qabs md) = false) as ->.
  { apply not_true_is_false. rewrite Qle_bool_iff. intros Hbig.
    assert (2 * 9007199254740992 <= 10 ^ 21)%Q by (by vm_compute). lra. }
  destruct (toFixed2_hundredths md) as [k Hk].
  pose proof (toFixed2_nearest md) as Hfix.
  rewrite (binary64_comp _ _ Hk).
  assert (∃ r, binary64 (inject_Z k / 100) = Finite r) as [r Hr].
  { destruct (Z.eq_dec k 0%Z) as [->|Hk0]; [by exists 0%Q|].
    destruct (binary64_near (inject_Z k / 100)) as (r & Hr & _); [| |by exists r].
    - rewrite Qabs_div by discriminate. rewrite Qabs_Z.
      assert (1 <= inject_Z (Z.abs k))%Q
        by (change 1%Q with (inject_Z 1); rewrite <- Zle_Qle; lia).
      apply Qle_trans with (1 / 100)%Q; [by vm_compute|].
      change (Qabs 100) with 100%Q. unfold Qdiv. change (/ 100)%Q with (1 # 100)%Q. lra.
    - rewrite <- Hk. pose proof (Qabs_bound (toFixed2 md) md).
      apply Qle_trans with (2 * 9007199254740992 + 1)%Q; [lra|by vm_compute]. }
  rewrite Hr. exists k, r. split; [done|]. split; [done|].
  (* the multiple is a nearest one *)
  assert (2 * Z.abs (k * n - 100 * S) ≤ n)%Z as Hz.
  { apply (nearest_of_close _ _ _ (100 * md)%Q); [done| |].
    - rewrite Hk in Hfix.
      apply Qabs_Qle_condition in Hfix as [F1 F2]. apply Qabs_Qle_condition.
      unfold Qdiv in F1, F2. change (/ 100)%Q with (1 # 100)%Q in F1, F2. split; lra.
    - rewrite inject_Z_mult. change (inject_Z 100) with 100%Q.
      assert (100 * md - 100 * inject_Z S / inject_Z n == 100 * (md - x))%Q as ->
        by (subst x; field; lra).
      rewrite Qabs_Qmult. change (Qabs 100) with 100%Q.
      apply Qle_lt_trans with (100 * (Qabs x * pow2 (-53)))%Q; [lra|].
      rewrite Habs, H53.
      assert (100 * (inject_Z (Z.abs S) / inject_Z n * (1 # 9007199254740992))
              == (100 * inject_Z (Z.abs S) * (1 # 9007199254740992)) * / inject_Z n)%Q as ->
        by (field; lra).
      unfold Qdiv. apply Qmult_lt_compat_r; [done|]. lra. }
  assert (inject_Z k / 100 - x
          == inject_Z (k * n - 100 * S) * (/ (100 * inject_Z n)))%Q as ->.
  { subst x. replace (k * n - 100 * S)%Z with (k * n + - (100 * S))%Z by lia.
    rewrite inject_Z_plus, inject_Z_opp, !inject_Z_mult. change (inject_Z 100) with 100%Q.
    field. lra. }
  rewrite Qabs_Qmult, Qabs_Z.
  assert (0 < / (100 * inject_Z n))%Q as Hpos by (apply Qinv_lt_0_compat; lra).
  rewrite (Qabs_pos (/ _)) by lra.
  assert (2 * inject_Z (Z.abs (k * n - 100 * S)) <= inject_Z n)%Q as Hzq.
  { change 2%Q with (inject_Z 2). rewrite <- inject_Z_mult, <- Zle_Qle. done. }
  assert ((1 # 200) == (inject_Z n * (1 # 2)) * / (100 * inject_Z n))%Q as -> by (field; lra).
  apply Qmult_le_compat_r; lra.
Qed.

(** Rounding a multiple of a hundredth to binary64 does not take it past
    a whole number. *)
Lemma hundredths_within (lo hi k : Z) (x : Q) :
  (100 * lo ≤ k ≤ 100 * hi)%Z → (200 * Z.max (Z.abs lo) (Z.abs hi) < 2 ^ 53)%Z →
  binary64 (inject_Z k / 100) = Finite x →
  (inject_Z lo <= x)%Q ∧ (x <= inject_Z hi)%Q.
Proof.
  intros Hk Hbound Hx.
  assert (Z.abs lo < 2 ^ 53 ∧ Z.abs hi < 2 ^ 53)%Z as [Hlo Hhi] by lia.
  assert (inject_Z lo <= inject_Z hi)%Q as Hlohi by (rewrite <- Zle_Qle; lia).
  destruct (Z.eq_dec k (100 * lo)%Z) as [->|Hk1].
  { rewrite (binary64_comp _ (inject_Z lo)) in Hx
      by (rewrite inject_Z_mult; change (inject_Z 100) with 100%Q; field).
    rewrite binary64_Z in Hx by done. injection Hx as <-. split; lra. }
  destruct (Z.eq_dec k (100 * hi)%Z) as [->|Hk2].
  { rewrite (binary64_comp _ (inject_Z hi)) in Hx
      by (rewrite inject_Z_mult; change (inject_Z 100) with 100%Q; field).
    rewrite binary64_Z in Hx by done. injection Hx as <-. split; lra. }
  assert (100 * inject_Z lo + 1 <= inject_Z k)%Q as Hq1.
  { change 100%Q with (inject_Z 100). change 1%Q with (inject_Z 1).
    rewrite <- inject_Z_mult, <- inject_Z_plus, <- Zle_Qle. lia. }
  assert (inject_Z k <= 100 * inject_Z hi - 1)%Q as Hq2.
  { assert (inject_Z k + 1 <= 100 * inject_Z hi)%Q; [|lra].
    change 100%Q with (inject_Z 100). change 1%Q with (inject_Z 1).
    rewrite <- inject_Z_mult, <- inject_Z_plus, <- Zle_Qle. lia. }
  destruct (Z.eq_dec k 0%Z) as [->|Hk0].
  { rewrite binary64_zero in Hx by reflexivity. injection Hx as <-.
    change (inject_Z 0) with 0%Q in *. split; lra. }
  assert (1 <= inject_Z (Z.abs k))%Q as Hk3
    by (change 1%Q with (inject_Z 1); rewrite <- Zle_Qle; lia).
  assert (inject_Z (Z.abs k) < 9007199254740992)%Q as Hk4.
  { change 9007199254740992%Q with (inject_Z (2 ^ 53)). rewrite <- Zlt_Qlt. lia. }
  assert (Qabs (inject_Z k / 100) == inject_Z (Z.abs k) * (1 # 100))%Q as Habs.
  { rewrite Qabs_div by discriminate. rewrite Qabs_Z. change (Qabs 100) with 100%Q.
    unfold Qdiv. reflexivity. }
  destruct (binary64_near (inject_Z k / 100)) as (r & Hr & Hnear).
  { rewrite Habs. apply Qle_trans with (1 # 100)%Q; [by vm_compute|lra]. }
  { rewrite Habs. apply Qle_trans with 9007199254740992%Q; [lra|by vm_compute]. }
  rewrite Hr in Hx. injection Hx as <-.
  assert (pow2 (-53) == 1 # 9007199254740992)%Q as H53 by reflexivity.
  rewrite Habs, H53 in Hnear. apply Qabs_Qle_condition in Hnear as [N1 N2].
  unfold Qdiv in N1, N2. change (/ 100)%Q with (1 # 100)%Q in N1, N2.
  split; lra.
Qed.

End Numbers.

(** * The aggregate rating (C1) and the rating rows (C7) *)

Section Ratings.

Lemma sum_ratings_project (cs : list string) (l : list obj) :
  "rating" ∈ cs → sum_ratings (project cs <$> l) = sum_ratings l.
Proof.
  intros Hc. unfold sum_ratings. generalize (Finite 0) as acc.
  induction l as [|r l IH]; intros acc; [done|].
  simpl. rewrite IH. by rewrite project_lookup.
Qed.

Lemma query_ratings (s : Store) l :
  query s "ratings" (columns ["rating"]) (f_eq "leaderId" (VStr l)) unordered
  = project ["rating"] <$> ratingsOf s l.
Proof. unfold query, unordered, ratingsOf. apply omap_columns. Qed.

Lemma average_project (l : list obj) :
  Leaders.average (project ["rating"] <$> l) = Leaders.average l.
Proof.
  unfold Leaders.average. rewrite sum_ratings_project by set_solver.
  by rewrite length_fmap.
Qed.

Lemma submitted_average_project (l : list obj) :
  submitted_average (project ["rating"] <$> l) = submitted_average l.
Proof.
  unfold submitted_average. rewrite sum_ratings_project by set_solver.
  by rewrite length_fmap.
Qed.

Lemma ratingsOf_frame (s : Store) t rs l :
  t ≠ "ratings" → ratingsOf (set_rows t rs s) l = ratingsOf s l.
Proof. intros. unfold ratingsOf. by rewrite rows_set_rows_ne. Qed.

(** Writing the aggregate of the stored ratings on the leader row
    establishes [aggregate_of]. *)
Lemma recompute_ok (average : list obj → double) (s : Store) (l : string) :
  (∀ rs, average (project ["rating"] <$> rs) = average rs) →
  aggregate_of average
    (set_rows "leaders"
       (patch_row (f_eq "id" (VStr l))
          (average_patch average (project ["rating"] <$> ratingsOf s l))
          <$> rows s "leaders") s) l.
Proof.
  intros Hproj r Hr Hid.
  rewrite rows_set_rows in Hr.
  rewrite ratingsOf_frame by done.
  apply list_elem_of_fmap in Hr as (r0 & -> & _).
  unfold patch_row in *. destruct (f_eq "id" (VStr l) r0) eqn:E; [|congruence].
  unfold average_patch. rewrite Hproj, length_fmap.
  split; apply lookup_union_Some_l; by rewrite literal_lookup.
Qed.

Lemma aggregate_literal (r : obj) (rs : list obj) :
  literal [ ("rating",
             Some (json_number
                     (parseFloat_toFixed2
                        (Double.div (sum_ratings (r :: rs))
                           (Double.of_nat (length (r :: rs)))))));
            ("review_count", Some (VNat (length (r :: rs)))) ]
  = average_patch submitted_average (r :: rs).
Proof. reflexivity. Qed.

Lemma pkey_ratings : pkey "ratings" = ["userId"; "leaderId"].
Proof. reflexivity. Qed.

Lemma pair_is_spec u l (r : obj) :
  pair_is u l r = true ↔ r !! "userId" = Some (VStr u) ∧ r !! "leaderId" = Some (VStr l).
Proof. unfold pair_is, f_and. by rewrite andb_true_iff, !f_eq_str. Qed.

Lemma pair_is_inj u l u' l' (r : obj) :
  pair_is u l r = true → pair_is u' l' r = true → u' = u ∧ l' = l.
Proof. rewrite !pair_is_spec. intros [Hu Hl] [Hu' Hl']. split; congruence. Qed.

Lemma same_key_ratingRow l u q sb c now (r : obj) :
  same_key ["userId"; "leaderId"] (ratingRow l u q sb c now) r = pair_is u l r.
Proof.
  unfold same_key, pair_is, f_and, f_eq, column, ratingRow. cbn [List.forallb].
  rewrite !literal_lookup. cbn [assoc String.eqb Ascii.eqb Bool.eqb].
  destruct (r !! "userId") as [[]|], (r !! "leaderId") as [[]|]; simpl;
    rewrite ?andb_true_r, ?andb_false_r; try done.
  by rewrite (String.eqb_sym u), (String.eqb_sym l).
Qed.

Lemma ratingRow_pair l u q sb c now : pair_is u l (ratingRow l u q sb c now) = true.
Proof. apply pair_is_spec. unfold ratingRow. by rewrite !literal_lookup. Qed.

(** Patching a conflicting row leaves its key columns as they are. *)
Lemma patched_key l u q sb c now (r : obj) k :
  k = "userId" ∨ k = "leaderId" →
  patch_row (pair_is u l) (ratingRow l u q sb c now) r !! k = r !! k.
Proof.
  intros Hk. unfold patch_row. destruct (pair_is u l r) eqn:E; [|done].
  apply pair_is_spec in E as [Hu Hl].
  destruct Hk as [-> | ->].
  - rewrite Hu. apply lookup_union_Some_l. unfold ratingRow. by rewrite literal_lookup.
  - rewrite Hl. apply lookup_union_Some_l. unfold ratingRow. by rewrite literal_lookup.
Qed.

Lemma patched_pair l u q sb c now u' l' (r : obj) :
  pair_is u' l' (patch_row (pair_is u l) (ratingRow l u q sb c now) r) = pair_is u' l' r.
Proof.
  unfold pair_is at 1 3, f_and, f_eq, column.
  by rewrite !patched_key by auto.
Qed.

Lemma patched_rating l u q sb c now (r : obj) :
  pair_is u l r = true →
  patch_row (pair_is u l) (ratingRow l u q sb c now) r !! "rating" = Some (VNum q).
Proof.
  intros E. unfold patch_row. rewrite E.
  apply lookup_union_Some_l. unfold ratingRow. by rewrite literal_lookup.
Qed.

Lemma upsert_rating_rows l u q sb c now (rs : list obj) :
  upsert_rows ["userId"; "leaderId"] (ratingRow l u q sb c now) rs
  = if List.existsb (pair_is u l) rs
    then patch_row (pair_is u l) (ratingRow l u q sb c now) <$> rs
    else (rs ++ [ratingRow l u q sb c now])%list.
Proof.
  unfold upsert_rows.
  rewrite (existsb_pointwise _ _ rs (same_key_ratingRow l u q sb c now)).
  destruct (List.existsb (pair_is u l) rs); [|done].
  apply list_fmap_ext. intros _ r _. unfold patch_row.
  by rewrite same_key_ratingRow.
Qed.

Lemma upsert_unique l u q sb c now (rs : list obj) :
  (∀ u' l', (length (List.filter (pair_is u' l') rs) ≤ 1)%nat) →
  ∀ u' l', (length (List.filter (pair_is u' l')
              (upsert_rows ["userId"; "leaderId"] (ratingRow l u q sb c now) rs)) ≤ 1)%nat.
Proof.
  intros Huniq u' l'. rewrite upsert_rating_rows.
  destruct (List.existsb (pair_is u l) rs) eqn:E.
  - rewrite filter_fmap_same by (intros; apply patched_pair).
    rewrite length_fmap. apply Huniq.
  - rewrite List.filter_app, length_app. simpl.
    destruct (pair_is u' l' (ratingRow l u q sb c now)) eqn:Hnew; simpl;
      [|specialize (Huniq u' l'); lia].
    destruct (pair_is_inj _ _ _ _ _ (ratingRow_pair l u q sb c now) Hnew) as [-> ->].
    by rewrite (existsb_false_filter _ _ E).
Qed.

Lemma upsert_stored l u q sb c now (rs : list obj) :
  (length (List.filter (pair_is u l) rs) ≤ 1)%nat →
  ∃ r, List.filter (pair_is u l)
         (upsert_rows ["userId"; "leaderId"] (ratingRow l u q sb c now) rs) = [r]
       ∧ r !! "rating" = Some (VNum q).
Proof.
  intros Huniq. rewrite upsert_rating_rows.
  destruct (List.existsb (pair_is u l) rs) eqn:E.
  - rewrite filter_fmap_same by (intros; apply patched_pair).
    apply existsb_true_filter in E.
    destruct (List.filter (pair_is u l) rs) as [|r0 [|]] eqn:F;
      [done| |simpl in Huniq; lia].
    eexists. split; [reflexivity|].
    apply patched_rating.
    assert (List.In r0 (List.filter (pair_is u l) rs)) as Hin by (rewrite F; by left).
    by apply List.filter_In in Hin as [_ ?].
  - rewrite List.filter_app, (existsb_false_filter _ _ E). simpl.
    rewrite ratingRow_pair. eexists. split; [reflexivity|].
    unfold ratingRow. by rewrite literal_lookup.
Qed.

(** After the upsert the leader has at least one rating. *)
Lemma upsert_nonempty l u q sb c now (rs : list obj) :
  List.filter (f_eq "leaderId" (VStr l))
    (upsert_rows ["userId"; "leaderId"] (ratingRow l u q sb c now) rs) ≠ [].
Proof.
  assert (∀ r : obj, pair_is u l r = true → f_eq "leaderId" (VStr l) r = true) as Himp.
  { intros r [_ ?]%pair_is_spec. by apply f_eq_str. }
  rewrite upsert_rating_rows.
  destruct (List.existsb (pair_is u l) rs) eqn:E.
  - apply List.existsb_exists in E as (r & Hin & Hr).
    intros Hnil.
    assert (List.In (patch_row (pair_is u l) (ratingRow l u q sb c now) r)
              (List.filter (f_eq "leaderId" (VStr l))
                 (patch_row (pair_is u l) (ratingRow l u q sb c now) <$> rs))) as H.
    { apply List.filter_In. split.
      - by apply List.in_map.
      - apply Himp. by rewrite patched_pair. }
    by rewrite Hnil in H.
  - rewrite List.filter_app. simpl. rewrite (Himp _ (ratingRow_pair l u q sb c now)).
    by destruct (List.filter _ rs).
Qed.

(** What [submitRatingAndComment] does to the ratings table: nothing when
    the upsert fails (and then it throws), the upsert otherwise. *)
Lemma submit_ratings l u q c sb now (s : Store) fs :
  (fault (tail fs) = true ∧
   Leaders.submitRatingAndComment l u q c sb now {| db := s; faults := fs |}
   = (Throw "Failed to submit rating", {| db := s; faults := tail (tail fs) |}))
  ∨ (fault (tail fs) = false ∧
     ∃ res created w',
       Leaders.submitRatingAndComment l u q c sb now {| db := s; faults := fs |}
       = (Ok res, w')
       ∧ rows (db w') "ratings"
         = upsert_rows ["userId"; "leaderId"] (ratingRow l u q sb created now)
             (rows s "ratings")).
Proof.
  unfold Leaders.submitRatingAndComment, try_catch, bind.
  match goal with
  | |- context [db_single ?t ?sh ?p {| db := ?s0; faults := ?f |}] =>
    destruct (db_single_run t sh p s0 f) as (ex & ->)
  end.
  unfold db_upsert. rewrite call_run. cbn [fst snd foldl].
  destruct (fault (tail fs)) eqn:F1; cbn [error failed fetched throw].
  { by left. }
  right. split; [done|].
  rewrite pkey_ratings.
  fold (ratingRow l u q sb (if data ex is Some _ then None else Some (VTime now)) now).
  set (new := ratingRow _ _ _ _ _ _).
  set (s1 := set_rows "ratings" _ s).
  unfold db_upsert, db_select, db_update.
  destruct (Leaders.has_text c).
  all: repeat first
    [ progress exec
    | match goal with
      | |- context [match query ?a ?b ?c ?d ?e with _ => _ end] =>
        destruct (query a b c d e) eqn:?
      end ].
  all: eexists _, _, _; (split; [reflexivity|]).
  all: cbn [db]; rewrite ?(rows_set_rows_ne "leaders") by done;
       rewrite ?(rows_set_rows_ne "comments") by done; subst s1;
       by rewrite rows_set_rows.
Qed.

Lemma submit_aggregate l u q c sb now (s : Store) (f1 f3 : bool) (rest : list bool) :
  ∃ res s' fs',
    Leaders.submitRatingAndComment l u q c sb now
      {| db := s;
         faults := f1 :: false :: (if Leaders.has_text c then [f3] else [])
                      ++ false :: false :: rest |}
    = (Ok res, {| db := s'; faults := fs' |})
    ∧ aggregate_of submitted_average s' l.
Proof.
  unfold Leaders.submitRatingAndComment, try_catch, bind.
  match goal with
  | |- context [db_single ?t ?sh ?p {| db := ?s0; faults := ?f |}] =>
    destruct (db_single_run t sh p s0 f) as (ex & ->)
  end.
  unfold db_upsert at 1. rewrite pkey_ratings.
  fold (ratingRow l u q sb (if data ex is Some _ then None else Some (VTime now)) now).
  set (new := ratingRow _ _ _ _ _ _).
  exec. cbn [foldl].
  set (s1 := set_rows "ratings" _ s).
  assert (ratingsOf s1 l ≠ []) as Hne.
  { unfold ratingsOf, s1. rewrite rows_set_rows. apply upsert_nonempty. }
  unfold db_upsert, db_select, db_update.
  destruct (Leaders.has_text c); [destruct f3|]; exec.
  all: rewrite query_ratings, ?ratingsOf_frame by done.
  all: destruct (ratingsOf s1 l) as [|r rs] eqn:Hr; [done|].
  all: rewrite fmap_cons; exec; rewrite aggregate_literal, <- fmap_cons, <- Hr.
  all: eexists _, _, _; (split; [reflexivity|]).
  - exact (recompute_ok _ s1 l submitted_average_project).
  - match goal with
    | |- aggregate_of _ (set_rows "leaders" _ ?s2) _ =>
      pose proof (recompute_ok _ s2 l submitted_average_project) as H
    end.
    rewrite ratingsOf_frame in H by done. exact H.
  - exact (recompute_ok _ s1 l submitted_average_project).
Qed.

Lemma deleteRating_aggregate (s : Store) (f1 f2 : bool) (rest : list bool)
    (userId leaderId : string) :
  ∃ s', Leaders.deleteRating userId leaderId
          {| db := s; faults := f1 :: f2 :: false :: false :: rest |}
        = (Ok (), {| db := s'; faults := rest |})
        ∧ aggregate_ok s' leaderId.
Proof.
  unfold Leaders.deleteRating, bind, db_delete, db_select, db_update.
  destruct f1, f2; exec.
  all: eexists; split; [reflexivity|].
  all: cbn [default from_option id]; rewrite query_ratings.
  all: match goal with
       | |- aggregate_ok (set_rows _ _ ?s0) _ =>
         exact (recompute_ok _ s0 leaderId average_project)
       end.
Qed.

Lemma failingUpdate_run :
  let after := Leaders.submitRatingAndComment "L" "u" 4 None None 1000 failingUpdate in
  is_ok after.1
  && List.existsb (λ r, f_eq "id" (VStr "L") r && f_eq "review_count" (VNat 0) r)
       (rows (db after.2) "leaders")
  && (length (ratingsOf (db after.2) "L") =? 1)%nat = true.
Proof. vm_compute. reflexivity. Qed.

(** C1, as stated, fails.  [submitRatingAndComment] only logs an error of
    the update of the leader row: with a store that reports an error on that
    call it returns normally after storing the first rating of leader "L",
    whose row still says [review_count = 0]. *)
Lemma submitRating_swallows_aggregate_error :
  ¬ (∀ w l u q c sb now res w',
       Leaders.submitRatingAndComment l u q c sb now w = (Ok res, w') →
       aggregate_ok (db w') l).
Proof.
  intros H.
  pose proof failingUpdate_run as Hrun. cbv zeta in Hrun.
  destruct (Leaders.submitRatingAndComment "L" "u" 4 None None 1000 failingUpdate)
    as [[res|msg] w'] eqn:E; [|discriminate Hrun].
  cbn [fst snd is_ok andb] in Hrun.
  apply andb_true_iff in Hrun as [Hrow Hlen].
  apply List.existsb_exists in Hrow as (r & Hin & [Hid Hcount]%andb_true_iff).
  apply Nat.eqb_eq in Hlen.
  destruct (H _ _ _ _ _ _ _ _ _ E r) as [_ Hbad].
  - by apply list_elem_of_In.
  - exact Hid.
  - unfold f_eq, column in Hcount. rewrite Hbad, Hlen in Hcount. discriminate Hcount.
Qed.

(** The sum of whole scores is exact as long as it stays below [2^53]. *)
Lemma sum_whole (bound : Z) (rs : list obj) :
  Forall (whole_score bound) rs →
  ∀ a : Z, (Z.abs a + Z.of_nat (length rs) * bound < 2 ^ 53)%Z →
  ∃ S : Z,
    foldl (λ sum (r : obj), Double.add sum (to_double (r !! "rating")))
      (Finite (inject_Z a)) rs = Finite (inject_Z (a + S))
    ∧ (total_score rs == inject_Z S)%Q
    ∧ (Z.abs S ≤ Z.of_nat (length rs) * bound)%Z.
Proof.
  induction 1 as [|r rs (q & z & Hr & Hq & Hz) _ IH]; intros a Ha.
  - exists 0%Z. cbn [foldl total_score foldr length]. rewrite Z.add_0_r.
    split; [done|]. split; [reflexivity|lia].
  - cbn [length] in Ha. rewrite Nat2Z.inj_succ, Z.mul_succ_l in Ha.
    destruct (IH (a + z)%Z) as (S & Hfold & Htotal & HS); [lia|].
    exists (z + S)%Z. cbn [foldl total_score foldr length]. rewrite Hr. cbn [to_double to_num].
    rewrite (binary64_comp _ _ Hq), binary64_Z by lia. cbn [Double.add].
    rewrite (binary64_comp _ (inject_Z (a + z))) by (by rewrite inject_Z_plus).
    rewrite binary64_Z by lia. rewrite Hfold, Z.add_assoc.
    split; [done|]. split.
    + by rewrite Htotal, Hq, inject_Z_plus.
    + rewrite Nat2Z.inj_succ, Z.mul_succ_l. lia.
Qed.

(** For whole scores that are not too many, the average the code writes is
    the mean rounded to two decimals, and both operations compute the
    same. *)
Lemma average_whole (bound : Z) (rs : list obj) :
  Forall (whole_score bound) rs →
  (200 * (Z.of_nat (length rs) * bound) < 2 ^ 53)%Z →
  rounds_to_hundredths (mean rs) (written (Leaders.average rs))
  ∧ (rs ≠ [] → submitted_average rs = Leaders.average rs).
Proof.
  intros Hall Hbound.
  destruct rs as [|r0 rs0] eqn:Ers.
  { split; [|done]. exists 0%Z, 0%Q. by vm_compute. }
  rewrite <- Ers in *.
  assert (0 < Z.of_nat (length rs))%Z as Hn by (subst rs; cbn [length]; lia).
  assert (0 ≤ bound)%Z as Hb.
  { subst rs. apply Forall_cons in Hall as [(q & z & _ & _ & Hz) _]. lia. }
  destruct (sum_whole bound rs Hall 0%Z) as (S & Hsum & Htotal & HS); [nia|].
  rewrite Z.add_0_l in Hsum. change (Finite (inject_Z 0)) with (Finite 0) in Hsum.
  fold (sum_ratings rs) in Hsum.
  assert (Qeq_bool (inject_Z (Z.of_nat (length rs))) 0 = false) as Hnz.
  { apply not_true_is_false. rewrite Qeq_bool_iff. change 0%Q with (inject_Z 0).
    rewrite inject_Z_injective. lia. }
  assert (submitted_average rs
          = binary64 (inject_Z S / inject_Z (Z.of_nat (length rs)))) as Hsub.
  { unfold submitted_average, Double.of_nat. rewrite Hsum. cbn [Double.div]. by rewrite Hnz. }
  assert (Leaders.average rs
          = binary64 (inject_Z S / inject_Z (Z.of_nat (length rs)))) as Havg.
  { unfold Leaders.average, Double.of_nat.
    destruct (Nat.ltb_spec 0 (length rs)) as [_|]; [|lia].
    rewrite Hsum. cbn [Double.or_zero Double.div]. by rewrite Hnz. }
  split; [|by rewrite Hsub, Havg].
  rewrite Havg.
  assert (mean rs == inject_Z S / inject_Z (Z.of_nat (length rs)))%Q as Hmean.
  { rewrite Ers at 1. unfold mean. rewrite <- Ers. by rewrite Htotal. }
  destruct (hundredths_of_fraction S (Z.of_nat (length rs))) as (k & x & Hv & Hx & Hnear);
    [done|lia| |].
  { intros HS0. destruct (Z.eq_dec bound 0%Z) as [->|]; [lia|].
    assert (Z.of_nat (length rs) * 1 ≤ Z.of_nat (length rs) * bound)%Z
      by (apply Z.mul_le_mono_nonneg_l; lia).
    lia. }
  exists k, x. split; [done|]. split; [done|]. by rewrite Hmean.
Qed.

(** Forty scores with mean 1.025: the quotient the code computes is the
    binary64 number just below 1.025, and what it writes is 1.02, where
    rounding the mean itself, the tie going up, gives 1.03. *)
Lemma tie_example :
  Forall (whole_score 2) fortyRatings
  ∧ (mean fortyRatings == 1025 # 1000)%Q
  ∧ (∃ x, Leaders.average fortyRatings = Finite x ∧ (x < 1025 # 1000)%Q)
  ∧ (∃ x, written (Leaders.average fortyRatings) = VNum x
          ∧ binary64 (102 # 100) = Finite x)
  ∧ (toFixed2 (mean fortyRatings) == 103 # 100)%Q.
Proof.
  split; [|split; [|split; [|split]]].
  - unfold fortyRatings. repeat constructor.
    all: eexists _, _; (split; [unfold ratingRow; by rewrite literal_lookup|]).
    all: split; [reflexivity|done].
  - by vm_compute.
  - eexists. split; [by vm_compute|]. by vm_compute.
  - eexists. split; by vm_compute.
  - by vm_compute.
Qed.

(** C1, amended: when the store reports no error on the query of the
    leader's ratings and on the update of the leader row, the row carries,
    after [submitRatingAndComment] (which then returns normally) and after
    [deleteRating], the number of the ratings stored for the leader and
    their average as the code computes it in binary64 arithmetic: the
    scores added up one after the other and divided by their number (0 when
    there is none), written with two decimals and read back.  The flags
    [f1], [f2], [f3] stand for the calls whose errors do no harm.  The two
    operations compute the same average unless the sum is [NaN].  When the
    scores are whole numbers whose sum stays well below [2^53], what is
    written is the binary64 number nearest to a multiple of 1/100 that is
    within 1/200 of the arithmetic mean: the mean rounded to two
    decimals. *)
Theorem rating_aggregate_recomputed :
  (∀ l u q c sb now (s : Store) (f1 f3 : bool) (rest : list bool),
     ∃ res s' fs',
       Leaders.submitRatingAndComment l u q c sb now
         {| db := s;
            faults := f1 :: false :: (if Leaders.has_text c then [f3] else [])
                         ++ false :: false :: rest |}
       = (Ok res, {| db := s'; faults := fs' |})
       ∧ aggregate_of submitted_average s' l)
  ∧ (∀ u l (s : Store) (f1 f2 : bool) (rest : list bool),
       ∃ s', Leaders.deleteRating u l
               {| db := s; faults := f1 :: f2 :: false :: false :: rest |}
             = (Ok (), {| db := s'; faults := rest |})
             ∧ aggregate_of Leaders.average s' l)
  ∧ (∀ rs : list obj,
       rs ≠ [] → sum_ratings rs ≠ NaN → submitted_average rs = Leaders.average rs)
  ∧ (∀ (bound : Z) (rs : list obj),
       Forall (whole_score bound) rs →
       (200 * (Z.of_nat (length rs) * bound) < 2 ^ 53)%Z →
       rounds_to_hundredths (mean rs) (written (Leaders.average rs))
       ∧ (rs ≠ [] → submitted_average rs = Leaders.average rs)).
Proof.
  split; [|split; [|split]].
  - intros. apply submit_aggregate.
  - intros. apply deleteRating_aggregate.
  - intros rs Hne Hnan. unfold submitted_average, Leaders.average.
    destruct rs as [|r rs]; [done|]. cbn [length Nat.ltb Nat.leb].
    by destruct (sum_ratings (r :: rs)).
  - intros bound rs Hall Hbound. exact (average_whole bound rs Hall Hbound).
Qed.

Lemma working_run :
  let after := Leaders.submitRatingAndComment "L" "u" 7 None None 1000 working in
  is_ok after.1
  && List.existsb (λ r, pair_is "u" "L" r && f_eq "rating" (VNum 7) r)
       (rows (db after.2) "ratings") = true.
Proof. vm_compute. reflexivity. Qed.

(** C7, as stated, fails: [submitRatingAndComment] stores the score it is
    given without looking at it, 7 for instance. *)
Lemma submitRating_accepts_any_score :
  ¬ (∀ w l u q c sb now res w',
       Leaders.submitRatingAndComment l u q c sb now w = (Ok res, w') →
       ∀ r : obj, r ∈ rows (db w') "ratings" → pair_is u l r = true →
         ∃ x : Q, r !! "rating" = Some (VNum x) ∧ (1 <= x)%Q ∧ (x <= 5)%Q).
Proof.
  intros H.
  pose proof working_run as Hrun. cbv zeta in Hrun.
  destruct (Leaders.submitRatingAndComment "L" "u" 7 None None 1000 working)
    as [[res|msg] w'] eqn:E; [|discriminate Hrun].
  cbn [fst snd is_ok andb] in Hrun.
  apply List.existsb_exists in Hrun as (r & Hin & [Hpair Hseven]%andb_true_iff).
  destruct (H _ _ _ _ _ _ _ _ _ E r) as (x & Hx & _ & Hle).
  - by apply list_elem_of_In.
  - exact Hpair.
  - unfold f_eq, column in Hseven. rewrite Hx in Hseven.
    apply Qeq_bool_iff in Hseven. rewrite Hseven in Hle. by vm_compute in Hle.
Qed.

(** C7, amended: the score stored is the one given, whatever it is (so it
    lies between 1 and 5 when the caller's does); and when the ratings table
    holds at most one row per (user, leader) pair it still does after
    [submitRatingAndComment], whatever errors the store reports, a successful
    call leaving exactly one row for the pair, with the new score. *)
Theorem submitRating_one_row_per_pair l u q c sb now (w : World) :
  unique_pairs (db w) →
  let after := Leaders.submitRatingAndComment l u q c sb now w in
  unique_pairs (db after.2) ∧
  (∀ res, after.1 = Ok res →
     ∃ r : obj, List.filter (pair_is u l) (rows (db after.2) "ratings") = [r]
                ∧ r !! "rating" = Some (VNum q)).
Proof.
  intros Huniq after. subst after. destruct w as [s fs]. cbn [db] in Huniq.
  destruct (submit_ratings l u q c sb now s fs)
    as [[_ ->] | (_ & res & created & w' & -> & Hrows)]; cbn [fst snd db].
  - split; [done|]. discriminate.
  - split.
    + intros u' l'. rewrite Hrows. by apply upsert_unique.
    + intros _ _. rewrite Hrows. by apply upsert_stored.
Qed.

Lemma ratedOnce_rows :
  rows (db ratedOnce) "ratings" = [ratingRow "L" "u" 2 None (Some (VTime 0)) 0].
Proof. apply rows_set_rows. Qed.

(** A resubmission: user "u" had given leader "L" a 2 and now gives a 5. *)
Lemma submitRating_one_row_per_pair_witness :
  unique_pairs (db ratedOnce) ∧
  let after := Leaders.submitRatingAndComment "L" "u" 5 None None 1000 ratedOnce in
  unique_pairs (db after.2) ∧
  (∀ res, after.1 = Ok res →
     ∃ r : obj, List.filter (pair_is "u" "L") (rows (db after.2) "ratings") = [r]
                ∧ r !! "rating" = Some (VNum 5)).
Proof.
  assert (unique_pairs (db ratedOnce)) as Hu.
  { intros u l. rewrite ratedOnce_rows. cbn [List.filter].
    destruct (pair_is u l _); simpl; lia. }
  split; [exact Hu|].
  exact (submitRating_one_row_per_pair "L" "u" 5 None None 1000 ratedOnce Hu).
Defined.

End Ratings.

(** * Editing a leader (C4, C8) *)

Section UpdateLeader.

Lemma strict_neq_spec (a : option value) (b : option string) :
  Leaders.strict_neq a b = true ↔ a ≠ Some (nullable b).
Proof.
  destruct a as [[]|], b as [y|]; simpl; try (split; [done | congruence]).
  all: try (rewrite negb_true_iff, String.eqb_neq; split; congruence).
Qed.

Lemma union_lookup (patch r : obj) k :
  (patch ∪ r) !! k = match patch !! k with Some x => Some x | None => r !! k end.
Proof. rewrite lookup_union. by destruct (patch !! k), (r !! k). Qed.





(** What [getLeaderById] returns, from what is stored. *)
Lemma getLeaderById_stored id (s : Store) fs :
  Leaders.getLeaderById id {| db := s; faults := fs |}
  = (Ok (if fault fs then None
         else match leadersWith s id with
              | [r] => Some (Leaders.dbToLeader r)
              | _ => None
              end),
     {| db := s; faults := tail fs |}).
Proof.
  unfold Leaders.getLeaderById, bind, db_single, leadersWith. rewrite call_run.
  destruct (fault fs); cbn [fst snd error failed ret]; [done|].
  unfold query, unordered. rewrite omap_star.
  by destruct (List.filter _ _) as [|r [|]].
Qed.

Lemma failingLookup_run :
  (Leaders.updateLeader "L" someLeader (Some "v") false failingLookup).1
  = Throw "Leader not found."
  ∧ leadersWith (db failingLookup) "L" = [freshLeader]
  ∧ Leaders.addedByUserId (Leaders.dbToLeader freshLeader) = Some (VStr "u").
Proof.
  split; [vm_compute; reflexivity|]. split; [|vm_compute; reflexivity].
  unfold leadersWith, failingLookup, oneLeader. cbn [db]. rewrite rows_set_rows.
  cbn [List.filter].
  by replace (f_eq "id" (VStr "L") freshLeader) with true by (vm_compute; reflexivity).
Qed.

(** C4, as stated, fails.  [updateLeader] takes the leader from
    [getLeaderById], which answers [null] when the store reports an error:
    leader "L" is stored, it was added by "u", the caller "v" is no admin,
    and the error thrown is "Leader not found.", not the authorization
    error. *)
Lemma updateLeader_not_found_on_lookup_error :
  ¬ (∀ leaderId leaderData userId isAdmin (w : World),
       (Leaders.updateLeader leaderId leaderData userId isAdmin w).1
       = Throw "You are not authorized to edit this leader."
       ↔ isAdmin = false
         ∧ ∃ r : obj, leadersWith (db w) leaderId = [r]
                      ∧ Leaders.addedByUserId (Leaders.dbToLeader r)
                        ≠ Some (nullable userId)).
Proof.
  intros H. destruct failingLookup_run as (Hrun & Hrows & Hby).
  destruct (H "L" someLeader (Some "v") false failingLookup) as [_ Hback].
  rewrite Hrun in Hback. discriminate Hback.
  split; [done|]. exists freshLeader. split; [done|]. rewrite Hby. discriminate.
Qed.

(** C4, amended: when the store reports no error on the lookup of the
    leader, [updateLeader] throws the authorization error exactly when one
    leader row with this id is stored, the caller is not an admin and the
    leader's [addedByUserId] is not the caller's id; it throws "Leader not
    found." exactly when the lookup reports an error or the rows stored
    with this id are not just one.  In both cases the store is left as it
    was.  So the original submitter and an admin get neither error for a
    leader that is stored and found. *)
Theorem updateLeader_authorization leaderId leaderData userId isAdmin
    (s : Store) (fs : list bool) :
  let after :=
    Leaders.updateLeader leaderId leaderData userId isAdmin {| db := s; faults := fs |} in
  (after.1 = Throw "You are not authorized to edit this leader."
   ↔ fault fs = false ∧ isAdmin = false
     ∧ ∃ r : obj, leadersWith s leaderId = [r]
                  ∧ Leaders.addedByUserId (Leaders.dbToLeader r) ≠ Some (nullable userId))
  ∧ (after.1 = Throw "Leader not found."
     ↔ fault fs = true ∨ ∀ r : obj, leadersWith s leaderId ≠ [r])
  ∧ (after.1 = Throw "You are not authorized to edit this leader."
     ∨ after.1 = Throw "Leader not found." → db after.2 = s).
Proof.
  unfold Leaders.updateLeader, bind. rewrite getLeaderById_stored.
  destruct (fault fs) eqn:F; cbn [fst snd throw db].
  { split; [|split]; [split; [discriminate|by intros [? _]] | split; auto | done]. }
  destruct (leadersWith s leaderId) as [|r [|r' rest]] eqn:Hrows; cbn [fst snd throw db].
  1, 3: split; [|split];
    [ split; [discriminate|intros (_ & _ & ? & [=] & _)]
    | split; [intros _; right; intros ? [=] | done]
    | done ].
  assert (¬ (false = true ∨ ∀ r0 : obj, [r] ≠ [r0])) as Hfound.
  { intros [?|Hno]; [done|]. by apply (Hno r). }
  destruct isAdmin; cbn [negb andb].
  - unfold db_update. exec.
    all: split; [|split];
      [ split; [discriminate|by intros (_ & [=] & _)]
      | split; [discriminate|done]
      | by intros [[=]|[=]] ].
  - destruct (Leaders.strict_neq _ userId) eqn:E; cbn [fst snd throw db].
    + split; [|split]; [|split; [discriminate|done]|done].
      split; [|done]. intros _. split; [done|]. split; [done|].
      exists r. split; [done|]. by apply strict_neq_spec.
    + unfold db_update. exec.
      all: split; [|split];
        [ split; [discriminate|]
        | split; [discriminate|done]
        | by intros [[=]|[=]] ].
      all: intros (_ & _ & r0 & [= <-] & Hne); apply strict_neq_spec in Hne; congruence.
Qed.

(** A stranger who is no admin gets the authorization error. *)
Lemma updateLeader_stranger :
  (Leaders.updateLeader "L" someLeader (Some "v") false working).1
  = Throw "You are not authorized to edit this leader.".
Proof. vm_compute. reflexivity. Qed.




End UpdateLeader.

(** * The deletion done by getSupportTickets (C9) *)

Section Tickets.

Lemma stale_spec now (r : obj) :
  SupportTickets.stale now r = true ↔
  ∃ st t, r !! "status" = Some (VStr st) ∧ inactive st
          ∧ r !! "updated_at" = Some (VTime t)
          ∧ (t < now - 30 * 24 * 60 * 60 * 1000)%Z.
Proof.
  unfold SupportTickets.stale, f_and, f_in, f_lt, column, inactive,
    SupportTickets.thirtyDaysBefore.
  rewrite andb_true_iff. split.
  - intros [Hst Hup].
    destruct (r !! "status") as [[| | |st| | | |]|]; try discriminate.
    destruct (r !! "updated_at") as [[| | | |t| | |]|]; try discriminate.
    exists st, t. simpl in Hst, Hup. apply Z.ltb_lt in Hup.
    repeat split; try done.
    rewrite !orb_true_iff, !String.eqb_eq in Hst.
    destruct Hst as [?|[?|[?|?]]]; auto; discriminate.
  - intros (st & t & -> & Hst & -> & Ht). simpl. split.
    + rewrite !orb_true_iff, !String.eqb_eq. destruct Hst as [?|[?|?]]; auto.
    + by apply Z.ltb_lt.
Qed.

Lemma failingDelete_run :
  match SupportTickets.getSupportTickets SupportTickets.noFilters hundredDays failingDelete with
  | (Ok tickets, w') =>
    (length tickets =? 1)%nat
    && List.existsb (SupportTickets.stale hundredDays) (rows (db w') "support_tickets")
  | _ => false
  end = true.
Proof. vm_compute. reflexivity. Qed.

(** C9, as stated, fails.  [getSupportTickets] does not look at the result
    of the delete it begins with: when the store reports an error on it,
    the call returns the tickets as usual, and a ticket closed a hundred
    days ago is still stored. *)
Lemma getSupportTickets_keeps_stale_on_error :
  ¬ (∀ filters now (w : World) tickets w',
       SupportTickets.getSupportTickets filters now w = (Ok tickets, w') →
       ∀ r : obj, r ∈ rows (db w') "support_tickets" →
         ¬ ∃ st t, r !! "status" = Some (VStr st) ∧ inactive st
                   ∧ r !! "updated_at" = Some (VTime t)
                   ∧ (t < now - 30 * 24 * 60 * 60 * 1000)%Z).
Proof.
  intros H. pose proof failingDelete_run as Hrun.
  destruct (SupportTickets.getSupportTickets SupportTickets.noFilters hundredDays failingDelete)
    as [[tickets|msg] w'] eqn:E; [|discriminate Hrun].
  apply andb_true_iff in Hrun as [_ Hstale].
  apply List.existsb_exists in Hstale as (r & Hin & Hr).
  apply (H _ _ _ _ _ E r); [by apply list_elem_of_In|].
  by apply stale_spec.
Qed.

(** C9, amended: [getSupportTickets] begins with a delete on the store.
    Unless the store reports an error on that call, the tickets left are
    those that are not stale; a ticket is stale exactly when its status is
    'in-progress', 'resolved' or 'closed' and its [updated_at] is more than
    30 days before [now].  On an error no ticket is deleted.  A ticket
    that is open, or was updated within the last 30 days, is still there
    after the call. *)
Theorem getSupportTickets_deletes_stale filters now (s : Store) (fs : list bool) :
  let after := SupportTickets.getSupportTickets filters now {| db := s; faults := fs |} in
  rows (db after.2) "support_tickets"
  = (if fault fs then rows s "support_tickets"
     else List.filter (λ r, negb (SupportTickets.stale now r)) (rows s "support_tickets"))
  ∧ (∀ r : obj,
       SupportTickets.stale now r = true ↔
       ∃ st t, r !! "status" = Some (VStr st) ∧ inactive st
               ∧ r !! "updated_at" = Some (VTime t)
               ∧ (t < now - 30 * 24 * 60 * 60 * 1000)%Z)
  ∧ (∀ r : obj,
       r ∈ rows s "support_tickets" →
       r !! "status" = Some (VStr "open")
       ∨ (∃ t, r !! "updated_at" = Some (VTime t)
               ∧ (now - 30 * 24 * 60 * 60 * 1000 ≤ t)%Z) →
       r ∈ rows (db after.2) "support_tickets").
Proof.
  intros after.
  assert (rows (db after.2) "support_tickets"
          = (if fault fs then rows s "support_tickets"
             else List.filter (λ r, negb (SupportTickets.stale now r))
                    (rows s "support_tickets"))) as Hrows.
  { subst after.
    unfold SupportTickets.getSupportTickets, bind, db_delete, db_select.
    exec; cbn [db]; by rewrite ?rows_set_rows. }
  split; [exact Hrows|]. split; [intros; apply stale_spec|].
  intros r Hr Hkeep. rewrite Hrows. destruct (fault fs); [done|].
  apply list_elem_of_In, List.filter_In. split; [by apply list_elem_of_In|].
  apply negb_true_iff, not_true_is_false.
  intros (st & t & Hst & Hin & Hup & Hold)%stale_spec.
  destruct Hkeep as [Hopen | (t' & Hup' & Hrecent)].
  - rewrite Hst in Hopen. injection Hopen as ->.
    destruct Hin as [?|[?|?]]; discriminate.
  - rewrite Hup in Hup'. injection Hup' as ->. lia.
Qed.

(** An old closed ticket goes, an old open one and a recent closed one
    stay. *)
Lemma getSupportTickets_example :
  let ticket id status updated :=
    literal [ ("id", Some (VStr id)); ("status", Some (VStr status));
              ("updated_at", Some (VTime updated)); ("created_at", Some (VTime 0)) ] in
  let day := (24 * 60 * 60 * 1000)%Z in
  let s := set_rows "support_tickets"
             [ ticket "a" "closed" 0%Z; ticket "b" "open" 0%Z;
               ticket "c" "closed" (70 * day)%Z ] ∅ in
  let after := SupportTickets.getSupportTickets SupportTickets.noFilters (100 * day)%Z
                 {| db := s; faults := [] |} in
  List.map (λ r : obj, f_eq "id" (VStr "b") r || f_eq "id" (VStr "c") r)
    (rows (db after.2) "support_tickets") = [true; true].
Proof. vm_compute. reflexivity. Qed.

End Tickets.

(** * The maintenance window (C3) *)

Section Maintenance.

Lemma is_string_spec (v : option value) (x : string) :
  is_string v x = true ↔ v = Some (VStr x).
Proof.
  destruct v as [[]|]; simpl; try (split; discriminate).
  rewrite String.eqb_eq. split; congruence.
Qed.

Lemma getSettings_run (s : Store) fs :
  ∃ settings, Settings.getSettings {| db := s; faults := fs |}
              = (Ok settings, {| db := s; faults := tail fs |}).
Proof. unfold Settings.getSettings, bind, db_select. exec; eauto. Qed.

Lemma last_cons_filter {A} (x : A) (l : list A) :
  last (x :: l) = match last l with Some y => Some y | None => Some x end.
Proof. destruct l as [|y l]; [done|]. rewrite last_cons_cons. by destruct (last (y :: l)) eqn:E;
  [|apply last_None in E]. Qed.

(** The dictionary built from the rows holds, under a key, the value of the
    last row with that key. *)
Lemma assign_rows_foldl (rs : list obj) (d : dict) k :
  foldl (λ d (row : obj),
           match row !! "key" with
           | Some (VStr k) => <[k := row !! "value"]> d
           | _ => d
           end) d rs !! k
  = match last (List.filter (f_eq "key" (VStr k)) rs) with
    | Some r => Some (r !! "value")
    | None => d !! k
    end.
Proof.
  revert d. induction rs as [|r rs IH]; intros d; [done|]. cbn [foldl List.filter].
  rewrite IH. destruct (f_eq "key" (VStr k) r) eqn:E.
  - rewrite last_cons_filter. destruct (last _); [done|].
    apply f_eq_str in E. rewrite E. by rewrite lookup_insert_eq.
  - destruct (last _); [done|].
    destruct (r !! "key") as [[]|] eqn:Hk; try done.
    rewrite lookup_insert_ne; [done|]. intros ->.
    assert (f_eq "key" (VStr k) r = true) by by apply f_eq_str. congruence.
Qed.

(** What a select of [key, value] leaves under a key. *)
Lemma lookup_settings (s : Store) t k :
  assign_rows (query s t (columns ["key"; "value"]) f_all unordered) !! k
  = (λ r : obj, r !! "value") <$> last (List.filter (f_eq "key" (VStr k)) (rows s t)).
Proof.
  unfold query, unordered, assign_rows. rewrite omap_columns, assign_rows_foldl.
  assert (List.filter f_all (rows s t) = rows s t) as ->.
  { induction (rows s t) as [|x l IH]; [done|]. cbn. by rewrite IH. }
  assert (List.filter (f_eq "key" (VStr k)) (project ["key"; "value"] <$> rows s t)
          = project ["key"; "value"] <$> List.filter (f_eq "key" (VStr k)) (rows s t)) as ->.
  { induction (rows s t) as [|r rs IH]; [done|]. rewrite fmap_cons. cbn [List.filter].
    replace (f_eq "key" (VStr k) (project ["key"; "value"] r)) with (f_eq "key" (VStr k) r).
    - destruct (f_eq "key" (VStr k) r); [rewrite fmap_cons|]; by rewrite IH.
    - unfold f_eq, column. by rewrite project_lookup by set_solver. }
  rewrite fmap_last. destruct (last _); cbn; [|apply lookup_empty].
  by rewrite project_lookup by set_solver.
Qed.

Lemma read_settings (s : Store) t k :
  read (assign_rows (query s t (columns ["key"; "value"]) f_all unordered)) k
  = r ← last (List.filter (f_eq "key" (VStr k)) (rows s t)); r !! "value".
Proof. unfold read. rewrite lookup_settings. by destruct (last _). Qed.

(** The decision [isMaintenanceActive] takes on the settings it has read. *)
Lemma window_decision now (active start stop : option value) :
  (if negb (is_string (js_or active (Some (VStr "false"))) "true") then false
   else if match (if truthy start then Some (Date start) else None) with
           | Some t => date_lt now t
           | None => false
           end then false
   else if match (if truthy stop then Some (Date stop) else None) with
           | Some t => date_gt now t
           | None => false
           end then false
   else true) = true
  ↔ active = Some (VStr "true")
    ∧ (∀ t, start = Some (VTime t) → (t ≤ now)%Z)
    ∧ (∀ t, stop = Some (VTime t) → (now ≤ t)%Z).
Proof.
  assert (is_string (js_or active (Some (VStr "false"))) "true" = true
          ↔ active = Some (VStr "true")) as Hact.
  { rewrite is_string_spec. unfold js_or. split.
    - destruct (truthy active); [done|discriminate].
    - by intros ->. }
  assert (∀ v, (match (if truthy v then Some (Date v) else None) with
                | Some t => date_lt now t
                | None => false
                end = false) ↔ (∀ t, v = Some (VTime t) → (t ≤ now)%Z)) as Hlt.
  { intros v.
    destruct v as [[| | | |t| | |]|]; simpl; try (split; [intros _ ? ?; discriminate | done]).
    - destruct b; split; try done; intros; discriminate.
    - destruct (Qeq_bool q 0); split; try done; intros; discriminate.
    - destruct (String.eqb s ""); split; try done; intros; discriminate.
    - rewrite Z.ltb_ge. split.
      + by intros ? ? [= <-].
      + intros H. by apply H. }
  assert (∀ v, (match (if truthy v then Some (Date v) else None) with
                | Some t => date_gt now t
                | None => false
                end = false) ↔ (∀ t, v = Some (VTime t) → (now ≤ t)%Z)) as Hgt.
  { intros v.
    destruct v as [[| | | |t| | |]|]; simpl; try (split; [intros _ ? ?; discriminate | done]).
    - destruct b; split; try done; intros; discriminate.
    - destruct (Qeq_bool q 0); split; try done; intros; discriminate.
    - destruct (String.eqb s ""); split; try done; intros; discriminate.
    - rewrite Z.ltb_ge. split.
      + by intros ? ? [= <-].
      + intros H. by apply H. }
  rewrite <- Hact, <- Hlt, <- Hgt.
  destruct (is_string _ "true"); cbn [negb]; [|split; [discriminate|by intros [? _]]].
  destruct (match (if truthy start then _ else _) with Some t => date_lt now t | None => false end),
           (match (if truthy stop then _ else _) with Some t => date_gt now t | None => false end);
    split; try discriminate; try tauto; intros (_ & ? & ?); discriminate.
Qed.

(** What [isMaintenanceActive] answers, from what is stored. *)
Lemma maintenance_decided now (s : Store) (fs : list bool) :
  ∃ active : bool,
    Settings.isMaintenanceActive now {| db := s; faults := fs |}
    = (Ok active, {| db := s; faults := tail fs |})
    ∧ (active = true ↔ fault fs = false ∧ maintenance_due s now).
Proof.
  unfold Settings.isMaintenanceActive, Settings.getSettings, bind, db_select.
  rewrite call_run. destruct (fault fs) eqn:F; cbn [fst snd error failed fetched ret data].
  { exists false. split; [done|]. split; [discriminate|by intros [? _]]. }
  cbn [default from_option id Settings.maintenance_active Settings.maintenance_start
         Settings.maintenance_end].
  rewrite !read_settings. fold (stored_setting s "maintenance_active").
  fold (stored_setting s "maintenance_start"). fold (stored_setting s "maintenance_end").
  pose proof (window_decision now (stored_setting s "maintenance_active")
                (stored_setting s "maintenance_start")
                (stored_setting s "maintenance_end")) as H.
  unfold maintenance_due.
  destruct (negb _); [|destruct (match _ with Some t => date_lt now t | None => false end);
                       [|destruct (match _ with Some t => date_gt now t | None => false end)]].
  all: eexists; (split; [reflexivity|]).
  all: rewrite <- H; split; [by intros | by intros [_ ?]].
Qed.

Lemma switchedOn_run :
  (Settings.isMaintenanceActive 0 {| db := switchedOn; faults := [true] |}).1 = Ok false
  ∧ stored_setting switchedOn "maintenance_active" = Some (VStr "true")
  ∧ stored_setting switchedOn "maintenance_start" = None
  ∧ stored_setting switchedOn "maintenance_end" = None.
Proof. repeat split; vm_compute; reflexivity. Qed.

(** C3, as stated, fails.  [isMaintenanceActive] reads the settings with
    [getSettings], which answers that maintenance is off when the store
    reports an error: 'true' is stored, no window is, and the answer is
    false. *)
Lemma isMaintenanceActive_false_on_read_error :
  ¬ (∀ now (w : World),
       (Settings.isMaintenanceActive now w).1 = Ok true ↔ maintenance_due (db w) now).
Proof.
  intros H. destruct switchedOn_run as (Hrun & Hactive & Hstart & Hend).
  destruct (H 0%Z {| db := switchedOn; faults := [true] |}) as [_ Hback].
  rewrite Hrun in Hback. discriminate Hback.
  cbn [db]. split; [done|]. rewrite Hstart, Hend. split; intros ? [=].
Qed.

(** C3, amended: [isMaintenanceActive] never throws and leaves the store
    as it is.  It answers [true] exactly when the store reports no error
    on the read of the settings, the value stored for [maintenance_active]
    is the string 'true', the time is not before the timestamp stored for
    [maintenance_start], if there is one, and not after the timestamp
    stored for [maintenance_end], if there is one.  A bound that is null,
    absent, empty or not a date counts as none. *)
Theorem isMaintenanceActive_spec now (s : Store) (fs : list bool) :
  ∃ active : bool,
    Settings.isMaintenanceActive now {| db := s; faults := fs |}
    = (Ok active, {| db := s; faults := tail fs |})
    ∧ (active = true ↔ fault fs = false ∧ maintenance_due s now).
Proof. apply maintenance_decided. Qed.

End Maintenance.

(** * Passwords (C10) *)

Section Passwords.

Lemma same_but_password_lookup (a b : obj) k :
  same_but_password a b → k ≠ "password" → a !! k = b !! k.
Proof.
  unfold same_but_password. intros H Hk.
  rewrite <- (lookup_delete_ne a "password" k), <- (lookup_delete_ne b "password" k) by done.
  by rewrite H.
Qed.

Lemma same_but_password_insert (a b : obj) k v :
  same_but_password a b → k ≠ "password" → same_but_password (<[k := v]> a) (<[k := v]> b).
Proof.
  unfold same_but_password. intros H Hk.
  rewrite !(delete_insert_ne _ "password" k) by done. by rewrite H.
Qed.

Lemma column_blind (a b : obj) c test :
  same_but_password a b → c ≠ "password" → column c test a = column c test b.
Proof. intros H Hc. unfold column. by rewrite (same_but_password_lookup a b c). Qed.

Lemma searchFilter_blind st (a b : obj) :
  same_but_password a b → Users.searchFilter st a = Users.searchFilter st b.
Proof.
  intros H. unfold Users.searchFilter.
  destruct st as [t|]; [|done].
  destruct (negb _ && negb _); [|done].
  unfold f_or, f_ilike. by rewrite !(column_blind a b) by done.
Qed.

Lemma key_leb_blind c asc (a b a' b' : obj) :
  c ≠ "password" → same_but_password a a' → same_but_password b b' →
  key_leb c asc a b = key_leb c asc a' b'.
Proof.
  intros Hc Ha Hb. unfold key_leb.
  by rewrite (same_but_password_lookup a a' c), (same_but_password_lookup b b' c).
Qed.

Section Related.
Context {A : Type} (R : A → A → Prop).

Lemma filter_related (p : A → bool) (l1 l2 : list A) :
  (∀ a b, R a b → p a = p b) →
  Forall2 R l1 l2 → Forall2 R (List.filter p l1) (List.filter p l2).
Proof.
  intros Hp. induction 1 as [|a b l1 l2 Hab _ IH]; [constructor|].
  simpl. rewrite (Hp a b Hab). destruct (p b); [by constructor|done].
Qed.

Lemma insert_by_related (le : A → A → bool) a b (l1 l2 : list A) :
  (∀ a b a' b', R a a' → R b b' → le a b = le a' b') →
  R a b → Forall2 R l1 l2 → Forall2 R (insert_by le a l1) (insert_by le b l2).
Proof.
  intros Hle Hab. induction 1 as [|x y l1 l2 Hxy Hl IH]; simpl.
  - by repeat constructor.
  - rewrite (Hle a x b y Hab Hxy). destruct (le b y); by repeat constructor.
Qed.

Lemma sort_by_related (le : A → A → bool) (l1 l2 : list A) :
  (∀ a b a' b', R a a' → R b b' → le a b = le a' b') →
  Forall2 R l1 l2 → Forall2 R (sort_by le l1) (sort_by le l2).
Proof.
  intros Hle. induction 1 as [|a b l1 l2 Hab _ IH]; [constructor|].
  simpl. by apply insert_by_related.
Qed.

End Related.

Lemma userShape_blind (s1 s2 : Store) (a b : obj) :
  same_but_passwords s1 s2 → same_but_password a b →
  ∃ a' b', Users.userShape s1 a = Some a' ∧ Users.userShape s2 b = Some b'
           ∧ same_but_password a' b'.
Proof.
  intros [_ Hother] Hab. unfold Users.userShape. eexists _, _.
  split; [reflexivity|]. split; [reflexivity|].
  unfold related. rewrite (same_but_password_lookup a b "id") by done.
  rewrite !Hother by done.
  by repeat apply same_but_password_insert.
Qed.

Lemma omap_userShape_blind (s1 s2 : Store) (l1 l2 : list obj) :
  same_but_passwords s1 s2 → Forall2 same_but_password l1 l2 →
  Forall2 same_but_password (omap (Users.userShape s1) l1) (omap (Users.userShape s2) l2).
Proof.
  intros Hs. induction 1 as [|a b l1 l2 Hab _ IH]; [constructor|].
  destruct (userShape_blind s1 s2 a b Hs Hab) as (a' & b' & Ha & Hb & Hab').
  cbn [omap list_omap]. rewrite Ha, Hb. by constructor.
Qed.

Lemma strip_related (l1 l2 : list obj) :
  Forall2 same_but_password l1 l2 →
  delete "password" <$> l1 = delete "password" <$> l2.
Proof. induction 1 as [|a b l1 l2 Hab _ IH]; [done|]. rewrite !fmap_cons. by f_equal. Qed.

Lemma getUsers_blind st (s1 s2 : Store) fs :
  same_but_passwords s1 s2 →
  (Users.getUsers st {| db := s1; faults := fs |}).1
  = (Users.getUsers st {| db := s2; faults := fs |}).1.
Proof.
  intros Hs. unfold Users.getUsers, try_catch, bind, db_select.
  exec; [done|]. f_equal. apply strip_related.
  unfold query. apply omap_userShape_blind; [done|].
  apply (sort_by_related same_but_password).
  { intros. by apply key_leb_blind. }
  apply (filter_related same_but_password); [apply searchFilter_blind|apply Hs].
Qed.

Lemma findUserById_blind id (s1 s2 : Store) fs :
  same_but_passwords s1 s2 →
  (Users.findUserById id {| db := s1; faults := fs |}).1
  = (Users.findUserById id {| db := s2; faults := fs |}).1.
Proof.
  intros [Husers _]. unfold Users.findUserById, bind, db_single.
  exec; [done|]. unfold query, unordered. rewrite !omap_star.
  assert (Forall2 same_but_password
            (List.filter (f_eq "id" (VStr id)) (rows s1 "users"))
            (List.filter (f_eq "id" (VStr id)) (rows s2 "users"))) as H.
  { apply (filter_related same_but_password); [|done].
    intros a b Hab. by apply column_blind. }
  destruct H as [|a b ? ? Hab [|]]; exec; try done.
  cbn [fmap option_fmap option_map]. by rewrite Hab.
Qed.

Lemma getUsers_strips st (w : World) :
  ∃ l, (Users.getUsers st w).1 = Ok l ∧ Forall (λ u : obj, u !! "password" = None) l.
Proof.
  destruct w as [s fs]. unfold Users.getUsers, try_catch, bind, db_select.
  exec; eexists; (split; [reflexivity|]); [constructor|].
  apply Forall_fmap, Forall_true. intros u. apply lookup_delete_eq.
Qed.

Lemma findUserById_strips id (w : World) :
  ∃ o, (Users.findUserById id w).1 = Ok o
       ∧ ∀ u : obj, o = Some u → u !! "password" = None.
Proof.
  destruct w as [s fs]. unfold Users.findUserById, bind, db_single.
  exec; [by eexists|].
  destruct (query _ _ _ _ _) as [|r [|]]; exec; eexists; (split; [reflexivity|]);
    try discriminate.
  intros u [= <-]. apply lookup_delete_eq.
Qed.

Lemma addUser_strips user now (w : World) :
  ∃ o, (Users.addUser user now w).1 = Ok o
       ∧ ∀ u : obj, o = Some u → u !! "password" = None.
Proof.
  destruct w as [s fs]. unfold Users.addUser, bind, db_insert_returning.
  exec; eexists; (split; [reflexivity|]); [discriminate|].
  intros u [= <-]. apply lookup_delete_eq.
Qed.

Lemma addUser_blind user now (s1 s2 : Store) fs :
  (Users.addUser user now {| db := s1; faults := fs |}).1
  = (Users.addUser user now {| db := s2; faults := fs |}).1.
Proof. unfold Users.addUser, bind, db_insert_returning. by exec. Qed.

Lemma findUserByEmail_intact email (s : Store) fs (u : obj) :
  fault fs = false →
  List.filter (f_eq "email" (VStr (toLowerCase email))) (rows s "users") = [u] →
  (Users.findUserByEmail email {| db := s; faults := fs |}).1 = Ok (Some u).
Proof.
  intros Hf Hu. unfold Users.findUserByEmail, bind, db_single.
  rewrite call_run, Hf. unfold query, unordered. rewrite omap_star, Hu. done.
Qed.

(** C10: what [getUsers], [findUserById] and [addUser] return has no
    password field, and on two stores that differ only in passwords they
    return the same; [findUserByEmail] returns the stored row as it is,
    password included. *)
Theorem passwords_not_returned (s1 s2 : Store) (fs : list bool) :
  same_but_passwords s1 s2 →
  (∀ st, (Users.getUsers st {| db := s1; faults := fs |}).1
         = (Users.getUsers st {| db := s2; faults := fs |}).1
         ∧ ∃ l, (Users.getUsers st {| db := s1; faults := fs |}).1 = Ok l
                ∧ Forall (λ u : obj, u !! "password" = None) l)
  ∧ (∀ id, (Users.findUserById id {| db := s1; faults := fs |}).1
           = (Users.findUserById id {| db := s2; faults := fs |}).1
           ∧ ∃ o, (Users.findUserById id {| db := s1; faults := fs |}).1 = Ok o
                  ∧ ∀ u : obj, o = Some u → u !! "password" = None)
  ∧ (∀ user now, (Users.addUser user now {| db := s1; faults := fs |}).1
                 = (Users.addUser user now {| db := s2; faults := fs |}).1
                 ∧ ∃ o, (Users.addUser user now {| db := s1; faults := fs |}).1 = Ok o
                        ∧ ∀ u : obj, o = Some u → u !! "password" = None)
  ∧ (∀ email (u : obj),
       fault fs = false →
       List.filter (f_eq "email" (VStr (toLowerCase email))) (rows s1 "users") = [u] →
       (Users.findUserByEmail email {| db := s1; faults := fs |}).1 = Ok (Some u)).
Proof.
  intros Hs. repeat split.
  - by apply getUsers_blind.
  - apply getUsers_strips.
  - by apply findUserById_blind.
  - apply findUserById_strips.
  - apply addUser_blind.
  - apply addUser_strips.
  - intros. by apply findUserByEmail_intact.
Qed.

Lemma alice_differs : same_but_passwords (set_rows "users" [alice "secret"] ∅)
                                         (set_rows "users" [alice "hunter2"] ∅).
Proof.
  split.
  - rewrite !rows_set_rows. constructor; [|constructor].
    unfold same_but_password, alice. by rewrite !delete_insert_eq.
  - intros t Ht. by rewrite !rows_set_rows_ne.
Qed.

(** Two stores in which Alice has different passwords. *)
Lemma passwords_not_returned_witness :
  let s1 := set_rows "users" [alice "secret"] ∅ in
  let s2 := set_rows "users" [alice "hunter2"] ∅ in
  same_but_passwords s1 s2 ∧
  (Users.findUserById "1" {| db := s1; faults := [] |}).1
  = (Users.findUserById "1" {| db := s2; faults := [] |}).1.
Proof.
  intros s1 s2. split; [exact alice_differs|].
  exact (proj1 (proj1 (proj2 (passwords_not_returned s1 s2 [] alice_differs)) "1")).
Defined.

(** By contrast [findUserByEmail] tells the two stores apart. *)
Lemma findUserByEmail_shows_password :
  let find p := (Users.findUserByEmail "Alice@Example.org"
                   {| db := set_rows "users" [alice p] ∅; faults := [] |}).1 in
  match find "secret", find "hunter2" with
  | Ok (Some a), Ok (Some b) =>
    f_eq "password" (VStr "secret") a && f_eq "password" (VStr "hunter2") b
  | _, _ => false
  end = true.
Proof. vm_compute. reflexivity. Qed.

End Passwords.

(** * Poll results (C2) *)

Section PollResults.

Lemma as_rows_VRows (rs : list obj) : as_rows (Some (VRows rs)) = rs.
Proof.
  unfold as_rows, VRows. induction rs as [|r rs IH]; [done|].
  rewrite fmap_cons. cbn [omap list_omap]. by rewrite IH.
Qed.

Lemma countAnswers_from (answers : list obj) (m : gmap string nat) k :
  default 0%nat
    (foldl (λ optionCounts (answer : obj),
              let k := key_of (answer !! "selected_option_id") in
              <[k := (default 0 (optionCounts !! k) + 1)%nat]> optionCounts)
           m answers !! k)
  = (default 0 (m !! k) + length (List.filter (selects k) answers))%nat.
Proof.
  revert m. induction answers as [|a answers IH]; intros m; simpl; [lia|].
  rewrite IH. unfold selects at 2.
  destruct (String.eqb_spec (key_of (a !! "selected_option_id")) k) as [->|Hne].
  - rewrite lookup_insert_eq. simpl. lia.
  - by rewrite lookup_insert_ne.
Qed.

Lemma countAnswers_lookup (answers : list obj) k :
  default 0%nat (Polls.countAnswers answers !! k)
  = length (List.filter (selects k) answers).
Proof. unfold Polls.countAnswers. by rewrite countAnswers_from, lookup_empty. Qed.

(** A percentage is a whole number, and a nearest one to the exact
    quotient, for a list of answers that an array can hold. *)
Lemma percent_nearest (c t : nat) :
  (0 < t)%nat → (c ≤ t)%nat → (Z.of_nat t < 2 ^ 32)%Z →
  ∃ k : Z, Polls.percent c t = Finite (inject_Z k)
           ∧ (2 * Z.abs (k * Z.of_nat t - 100 * Z.of_nat c) ≤ Z.of_nat t)%Z.
Proof.
  intros Ht Hc Hsmall. unfold Polls.percent, Double.of_nat.
  destruct (Nat.ltb_spec 0 t) as [_|]; [|lia].
  set (n := inject_Z (Z.of_nat t)). set (m := inject_Z (Z.of_nat c)).
  assert (1 <= n)%Q as Hn1 by (subst n; change 1%Q with (inject_Z 1); rewrite <- Zle_Qle; lia).
  assert (n < 4294967296)%Q as Hn2.
  { subst n. change 4294967296%Q with (inject_Z (2 ^ 32)). by rewrite <- Zlt_Qlt. }
  assert (m <= n)%Q as Hmn by (subst m n; rewrite <- Zle_Qle; lia).
  cbn [Double.div].
  assert (Qeq_bool n 0 = false) as ->
    by (apply not_true_is_false; rewrite Qeq_bool_iff; lra).
  destruct (Nat.eq_dec c 0) as [->|Hc0].
  { exists 0%Z. split; [|lia].
    rewrite (binary64_zero (m / n)) by (subst m; change (inject_Z (Z.of_nat 0)) with 0%Q; field; lra).
    cbn [Double.mul]. by rewrite (binary64_zero (0 * 100)). }
  assert (1 <= m)%Q as Hm1 by (subst m; change 1%Q with (inject_Z 1); rewrite <- Zle_Qle; lia).
  assert (0 < / n)%Q as Hinv0 by (apply Qinv_lt_0_compat; lra).
  assert (/ n <= 1)%Q as Hinv1 by (apply Qle_shift_inv_r; lra).
  assert ((1 # 4294967296) < / n)%Q as Hinv2 by (apply Qlt_shift_inv_l; lra).
  set (x := (m / n)%Q).
  assert (/ n <= x)%Q as Hx0.
  { subst x. unfold Qdiv.
    assert (0 <= (m - 1) * / n)%Q by (apply Qmult_le_0_compat; lra). lra. }
  assert (x <= 1)%Q as Hx1.
  { subst x. apply Qle_shift_div_r; lra. }
  assert (Qabs x == x)%Q as Hxabs by (apply Qabs_pos; lra).
  assert (pow2 (-53) == 1 # 9007199254740992)%Q as H53 by reflexivity.
  destruct (binary64_near x) as (qd & -> & Hq).
  { rewrite Hxabs. apply Qle_trans with (1 # 4294967296)%Q; [by vm_compute|lra]. }
  { rewrite Hxabs. apply Qle_trans with 1%Q; [lra|by vm_compute]. }
  rewrite Hxabs, H53 in Hq. apply Qabs_Qle_condition in Hq as [Hq1 Hq2].
  assert (0 < qd)%Q as Hqd0 by lra.
  assert (qd <= 2)%Q as Hqd1 by lra.
  cbn [Double.mul].
  assert (Qabs (qd * 100) == qd * 100)%Q as Hpabs by (apply Qabs_pos; lra).
  destruct (binary64_near (qd * 100)) as (pd & -> & Hp).
  { rewrite Hpabs. apply Qle_trans with (1 # 4294967296)%Q; [by vm_compute|lra]. }
  { rewrite Hpabs. apply Qle_trans with 200%Q; [lra|by vm_compute]. }
  rewrite Hpabs, H53 in Hp. apply Qabs_Qle_condition in Hp as [Hp1 Hp2].
  cbn [Math_round]. exists (round_half_up pd). split; [done|].
  destruct (round_half_up_near pd) as [Hk1 Hk2].
  apply (nearest_of_close _ _ _ pd); [lia| |].
  - apply Qabs_Qle_condition. split; lra.
  - rewrite inject_Z_mult. change (inject_Z 100) with 100%Q. fold m n.
    assert (100 * m / n == 100 * x)%Q as -> by (subst x; field; lra).
    apply Qabs_Qlt_condition.
    assert ((1 # 2) * (1 # 4294967296) < (1 # 2) / n)%Q.
    { unfold Qdiv. apply Qmult_lt_l; [reflexivity|done]. }
    split; lra.
Qed.

Lemma percent_zero (c : nat) : Polls.percent c 0 = Finite 0.
Proof. reflexivity. Qed.

Lemma points_Z (k : Z) : points (Finite (inject_Z k)) = k.
Proof. apply Qfloor_Z. Qed.

(** Exactly one key of a duplicate-free list is the answer's. *)
Lemma one_key_selected (ks : list string) (a : obj) :
  NoDup ks → key_of (a !! "selected_option_id") ∈ ks →
  foldr (λ k acc, ((if selects k a then 1 else 0) + acc)%nat) 0%nat ks = 1%nat.
Proof.
  induction 1 as [|k ks Hk Hnd IH]; intros Hin; [by apply elem_of_nil in Hin|].
  simpl. unfold selects at 1.
  destruct (String.eqb_spec (key_of (a !! "selected_option_id")) k) as [E|Hne].
  - assert (foldr (λ k acc, ((if selects k a then 1 else 0) + acc)%nat) 0%nat ks = 0%nat) as ->;
      [|done].
    clear IH Hnd Hin. induction ks as [|k' ks IH]; [done|]. simpl.
    apply not_elem_of_cons in Hk as [Hk Hks]. rewrite (IH Hks).
    unfold selects. destruct (String.eqb_spec (key_of (a !! "selected_option_id")) k'); [|done].
    congruence.
  - apply elem_of_cons in Hin as [?|Hin]; [done|]. by rewrite IH.
Qed.

(** When every answer selects one of the listed keys, the counts add up
    to the number of answers. *)
Lemma counts_add_up (ks : list string) (answers : list obj) :
  NoDup ks →
  Forall (λ a : obj, key_of (a !! "selected_option_id") ∈ ks) answers →
  foldr (λ k acc, (length (List.filter (selects k) answers) + acc)%nat) 0%nat ks
  = length answers.
Proof.
  intros Hnd. induction 1 as [|a answers Ha _ IH].
  - simpl. induction ks as [|k ks IHk]; [done|]. simpl. apply IHk. by inversion Hnd.
  - assert (foldr (λ k acc, (length (List.filter (selects k) (a :: answers)) + acc)%nat) 0%nat ks
            = (foldr (λ k acc, ((if selects k a then 1 else 0) + acc)%nat) 0%nat ks
               + foldr (λ k acc, (length (List.filter (selects k) answers) + acc)%nat) 0%nat ks)%nat)
      as ->.
    { clear. induction ks as [|k ks IHk]; [done|]. cbn [foldr]. rewrite IHk.
      cbn [List.filter]. destruct (selects k a); simpl; lia. }
    rewrite IH, (one_key_selected ks a Hnd Ha). done.
Qed.

(** Rounding moves the sum of the percentages by half a point per option
    at most. *)
Lemma percentages_sum (cs : list nat) (t : nat) :
  (0 < t)%nat → (Z.of_nat t < 2 ^ 32)%Z → Forall (λ c, (c ≤ t)%nat) cs →
  (2 * Z.abs (foldr (λ c acc, points (Polls.percent c t) + acc) 0 cs * Z.of_nat t
              - 100 * Z.of_nat (foldr Nat.add 0%nat cs))
   ≤ Z.of_nat (length cs) * Z.of_nat t)%Z.
Proof.
  intros Ht Hsmall. induction 1 as [|c cs Hc _ IH]; simpl foldr; simpl length; [lia|].
  destruct (percent_nearest c t Ht Hc Hsmall) as (k & -> & Hk). rewrite points_Z.
  rewrite Nat2Z.inj_add, Nat2Z.inj_succ. lia.
Qed.

Lemma selecting_le (answers : list obj) (option : obj) :
  (selecting answers option ≤ length answers)%nat.
Proof. unfold selecting. apply List.filter_length_le. Qed.

Lemma questionResult_options pollId (question : obj) :
  Polls.r_options (Polls.questionResult pollId question)
  = (λ option : obj,
       {| Polls.optionId := option !! "id";
          Polls.optionText := option !! "option_text";
          Polls.count := selecting (as_rows (question !! "poll_answers")) option;
          Polls.percentage :=
            Polls.percent (selecting (as_rows (question !! "poll_answers")) option)
              (length (as_rows (question !! "poll_answers"))) |})
      <$> as_rows (question !! "poll_options").
Proof.
  unfold Polls.questionResult; cbn [Polls.r_options].
  apply list_fmap_ext. intros _ option _.
  by rewrite countAnswers_lookup.
Qed.

Lemma sum_percentages_counts pollId (question : obj) :
  sum_percentages (Polls.questionResult pollId question)
  = foldr (λ c acc,
      (points (Polls.percent c (length (as_rows (question !! "poll_answers")))) + acc)%Z)
      0%Z (selecting (as_rows (question !! "poll_answers"))
             <$> as_rows (question !! "poll_options")).
Proof.
  unfold sum_percentages. rewrite questionResult_options.
  induction (as_rows (question !! "poll_options")) as [|o os IH]; [done|].
  rewrite !fmap_cons. simpl. by rewrite IH.
Qed.

Lemma getPollResults_run pollId (w : World) :
  ∃ questions : list obj,
    (Polls.getPollResults pollId w).1 = Ok (Polls.questionResult pollId <$> questions).
Proof.
  destruct w as [s fs]. unfold Polls.getPollResults, bind.
  destruct (db_single_run "polls" Polls.resultShape (f_eq "id" (VStr pollId)) s fs) as [r ->].
  destruct (data r) as [poll|]; [by eexists|by exists []].
Qed.

Lemma strayAnswer_run :
  match (Polls.getPollResults "1" strayAnswer).1 with
  | Ok (q :: _) =>
    (Polls.totalResponses q =? 1)%nat && (length (Polls.r_options q) =? 2)%nat
    && (sum_percentages q =? 0)%Z
  | _ => false
  end = true.
Proof. vm_compute. reflexivity. Qed.

(** C2, as stated, fails in its second half: [submitPollResponse] stores
    whatever option id it is given, and an answer that selects no option of
    its question counts in the total but in no option.  Here the one answer
    to the first question selects an option of the second, and both
    percentages of the first question are 0. *)
Lemma percentages_need_not_sum_to_100 :
  ¬ (∀ w pollId results q,
       (Polls.getPollResults pollId w).1 = Ok results → q ∈ results →
       (0 < Polls.totalResponses q)%nat →
       (Z.abs (sum_percentages q - 100) ≤ Z.of_nat (length (Polls.r_options q)))%Z).
Proof.
  intros H. pose proof strayAnswer_run as Hrun.
  destruct (Polls.getPollResults "1" strayAnswer).1 as [[|q qs]|] eqn:E;
    try discriminate Hrun.
  apply andb_true_iff in Hrun as [[Htotal Hlen]%andb_true_iff Hsum].
  apply Nat.eqb_eq in Htotal, Hlen. apply Z.eqb_eq in Hsum.
  specialize (H strayAnswer "1" (q :: qs) q E (list_elem_of_here _ _)).
  rewrite Htotal, Hlen, Hsum in H. specialize (H ltac:(lia)). simpl in H. lia.
Qed.

(** C2, amended: [getPollResults] returns one result per question it
    fetched.  In each, [totalResponses] is the number of the question's
    answers; an option's count is the number of answers that select it and
    its percentage is what the code computes in binary64 arithmetic, the
    count divided by the total, times 100, rounded: a whole number that is
    as near to the exact quotient as a whole number can be (0 when the
    total is 0), for any number of answers an array can hold.  The
    percentages of a question add up to 100 within half a point per option
    when the options have distinct ids, every answer selects one of them
    and the total is not 0. *)
Theorem pollResults_percentages pollId (question : obj) :
  let answers := as_rows (question !! "poll_answers") in
  let options := as_rows (question !! "poll_options") in
  let result := Polls.questionResult pollId question in
  (∀ w, ∃ questions : list obj,
     (Polls.getPollResults pollId w).1 = Ok (Polls.questionResult pollId <$> questions))
  ∧ Polls.totalResponses result = length answers
  ∧ Forall2 (λ (option : obj) o,
       Polls.count o = selecting answers option
       ∧ Polls.percentage o = Polls.percent (Polls.count o) (length answers)
       ∧ ((0 < length answers)%nat → (Z.of_nat (length answers) < 2 ^ 32)%Z →
          ∃ k : Z, Polls.percentage o = Finite (inject_Z k)
                   ∧ (2 * Z.abs (k * Z.of_nat (length answers)
                                 - 100 * Z.of_nat (Polls.count o))
                      ≤ Z.of_nat (length answers))%Z)
       ∧ (length answers = 0%nat → Polls.percentage o = Finite 0))
     options (Polls.r_options result)
  ∧ (NoDup (optionKeys options) →
     Forall (λ a : obj, key_of (a !! "selected_option_id") ∈ optionKeys options) answers →
     (0 < length answers)%nat → (Z.of_nat (length answers) < 2 ^ 32)%Z →
     (2 * Z.abs (sum_percentages result - 100) ≤ Z.of_nat (length options))%Z).
Proof.
  intros answers options result. split; [|split; [|split]].
  - intros w. apply getPollResults_run.
  - reflexivity.
  - subst result. rewrite questionResult_options. fold answers options.
    apply Forall2_fmap_r, Forall_Forall2_diag, Forall_true. intros option.
    cbn [Polls.count Polls.percentage]. repeat split.
    + intros Ht Hsmall. apply percent_nearest; [done|apply selecting_le|done].
    + intros ->. apply percent_zero.
  - intros Hnd Hall Ht Hsmall. subst result. rewrite sum_percentages_counts.
    fold answers options.
    pose proof (percentages_sum (selecting answers <$> options) (length answers) Ht Hsmall)
      as H.
    assert (foldr Nat.add 0%nat (selecting answers <$> options) = length answers) as Hsum.
    { rewrite <- (counts_add_up (optionKeys options) answers Hnd Hall).
      unfold optionKeys. clear. induction options as [|o os IH]; [done|].
      rewrite !fmap_cons. simpl. by rewrite IH. }
    rewrite Hsum, length_fmap in H.
    specialize (H ltac:(apply Forall_fmap, Forall_true; intros o; apply selecting_le)).
    set (P := foldr _ _ _) in *. nia.
Qed.

(** Forty answers, twenty-three of them for the first option: the exact
    percentage is 57.5, the quotient the code computes times 100 is the
    binary64 number just below it, and the percentage is 57. *)
Lemma percent_tie_example :
  Polls.percent 23 40 = Finite 57
  ∧ (∃ x, Double.mul (Double.div (Double.of_nat 23) (Double.of_nat 40)) (Finite 100)
          = Finite x ∧ (x < 575 # 10)%Q)
  ∧ Polls.percent 17 40 = Finite 43.
Proof.
  split; [by vm_compute|]. split; [|by vm_compute].
  eexists. split; by vm_compute.
Qed.

(** Three options with one answer each: 33 + 33 + 33. *)
Lemma thirds_example :
  let option id := <["id" := VStr id]> (∅ : obj) in
  let answer id := <["selected_option_id" := VStr id]> (∅ : obj) in
  let question : obj :=
    <["poll_options" := VRows [option "a"; option "b"; option "c"]]>
      (<["poll_answers" := VRows [answer "a"; answer "b"; answer "c"]]> ∅) in
  let result := Polls.questionResult "p" question in
  (Polls.percentage <$> Polls.r_options result, sum_percentages result)
  = ([Finite 33; Finite 33; Finite 33], 99%Z).
Proof. vm_compute. reflexivity. Qed.

End PollResults.

(** * The error policy (C5, C6) *)

Ltac conjuncts := repeat match goal with |- _ ∧ _ => split end.

Section ErrorPolicy.

Variable s : Store.
Variable fs : list bool.

#[local] Abbreviation down := (down s fs).
#[local] Abbreviation down2 := (down2 s fs).
#[local] Abbreviation down3 := (down3 s fs).
#[local] Abbreviation down5 := (down5 s fs).

Lemma leaders_writes_throw :
  (∀ d u now, throws (Leaders.addLeader d u now) down "Failed to add leader")
  ∧ (∀ id d u admin f1,
       let r := (Leaders.updateLeader id d u admin (down2 f1)).1 in
       r = Throw "Leader not found."
       ∨ r = Throw "You are not authorized to edit this leader."
       ∨ r = Throw "Failed to update leader")
  ∧ (∀ l u q c sb now f1,
       throws (Leaders.submitRatingAndComment l u q c sb now) (down2 f1)
         "Failed to submit rating")
  ∧ (∀ id, throws (Leaders.approveLeader id) down "Failed to approve leader")
  ∧ (∀ id st c, throws (Leaders.updateLeaderStatus id st c) down
                  "Failed to update leader status")
  ∧ (∀ id f1 f2, throws (Leaders.deleteLeader id) (down3 f1 f2) "Failed to delete leader").
Proof.
  unfold throws, down, down2, down3. conjuncts; intros.
  - unfold Leaders.addLeader, bind, db_insert. by exec.
  - unfold Leaders.updateLeader, bind.
    destruct (getLeaderById_run id s (f1 :: true :: fs)) as [[leader|] ->];
      cbn [fst snd throw tail]; [|by left].
    destruct (negb admin && _); cbn [fst snd throw]; [by right; left|].
    unfold db_update. exec. by right; right.
  - destruct (submit_ratings l u q c sb now s (f1 :: true :: fs))
      as [[_ ->] | (Hf & _)]; [done|discriminate Hf].
  - unfold Leaders.approveLeader, bind, db_update. by exec.
  - unfold Leaders.updateLeaderStatus, bind, db_update. by exec.
  - unfold Leaders.deleteLeader, bind, db_delete. destruct f1, f2; by exec.
Qed.

Lemma settings_writes_throw :
  (∀ k v rest, throws (Settings.updateSettings ((k, v) :: rest)) down
                 ("Failed to update setting: " +:+ k))
  ∧ (∀ settings, throws (Settings.updateSiteSettings settings) down
                   "Database transaction for updating settings failed.")
  ∧ (∀ d now, throws (Notifications.addNotification d now) down "Failed to add notification")
  ∧ (∀ id d, throws (Notifications.updateNotification id d) down
               "Failed to update notification")
  ∧ (∀ id d, throws (Notifications.updateNotification id d)
               {| db := s; faults := false :: true :: fs |}
               "Failed to fetch updated notification")
  ∧ (∀ id, throws (Notifications.deleteNotification id) down
             "Failed to delete notification").
Proof.
  unfold throws, down. conjuncts; intros.
  - unfold Settings.updateSettings. cbn [Settings.updateEach].
    unfold bind, db_upsert. by exec.
  - unfold Settings.updateSiteSettings, try_catch, bind, db_upsert. by exec.
  - unfold Notifications.addNotification, bind, db_insert. by exec.
  - unfold Notifications.updateNotification, bind, db_update. by exec.
  - unfold Notifications.updateNotification, bind, db_update, db_single. by exec.
  - unfold Notifications.deleteNotification, bind, db_delete. by exec.
Qed.

Lemma polls_writes_throw :
  (∀ d now, throws (Polls.createPoll d now) down "Failed to create poll")
  ∧ (∀ title desc active until q qs now,
       throws (Polls.createPoll
                 {| Polls.i_title := title; Polls.i_description := desc;
                    Polls.i_isActive := active; Polls.i_activeUntil := until;
                    Polls.i_questions := q :: qs |} now)
         {| db := s; faults := false :: true :: fs |}
         "Failed to create poll question")
  ∧ (∀ title desc active until text type order o os qs now,
       throws (Polls.createPoll
                 {| Polls.i_title := title; Polls.i_description := desc;
                    Polls.i_isActive := active; Polls.i_activeUntil := until;
                    Polls.i_questions :=
                      {| Polls.i_questionText := text; Polls.i_questionType := type;
                         Polls.i_questionOrder := order; Polls.i_options := o :: os |}
                      :: qs |} now)
         {| db := s; faults := false :: false :: true :: fs |}
         "Failed to create poll options")
  ∧ (∀ p u answers now f1,
       let r := (Polls.submitPollResponse p u answers now (down2 f1)).1 in
       r = Throw "User has already responded to this poll"
       ∨ r = Throw "Failed to submit poll response")
  ∧ (∀ p u answers now f1,
       let r := (Polls.submitPollResponse p u answers now
                   {| db := s; faults := f1 :: false :: true :: fs |}).1 in
       r = Throw "User has already responded to this poll"
       ∨ r = Throw "Failed to submit poll answers")
  ∧ (∀ p active until, throws (Polls.updatePollStatus p active until) down
                         "Failed to update poll status")
  ∧ (∀ p f1 f2 f3 f4, throws (Polls.deletePoll p) (down5 f1 f2 f3 f4)
                        "Failed to delete poll").
Proof.
  unfold throws, down, down2, down5. conjuncts; intros.
  - unfold Polls.createPoll, bind, db_insert. by exec.
  - unfold Polls.createPoll. cbn [Polls.i_questions Polls.insertQuestions].
    unfold bind, db_insert. by exec.
  - unfold Polls.createPoll.
    cbn [Polls.i_questions Polls.i_options Polls.insertQuestions].
    unfold bind, db_insert. by exec.
  - unfold Polls.submitPollResponse, bind.
    match goal with
    | |- context [db_single ?t ?sh ?p {| db := ?s0; faults := ?f |}] =>
      destruct (db_single_run t sh p s0 f) as (ex & ->)
    end.
    destruct (data ex); cbn [fst snd throw tail]; [by left|].
    unfold db_insert. exec. by right.
  - unfold Polls.submitPollResponse, bind.
    match goal with
    | |- context [db_single ?t ?sh ?p {| db := ?s0; faults := ?f |}] =>
      destruct (db_single_run t sh p s0 f) as (ex & ->)
    end.
    destruct (data ex); cbn [fst snd throw tail]; [by left|].
    unfold db_insert. exec. by right.
  - unfold Polls.updatePollStatus, bind, db_update. by exec.
  - unfold Polls.deletePoll, bind, db_delete, db_delete_in.
    destruct f1, f2, f3, f4; by exec.
Qed.

Lemma other_writes_throw :
  (∀ d now, throws (SupportTickets.createSupportTicket d now) down
              "Failed to create support ticket")
  ∧ (∀ id st notes now, throws (SupportTickets.updateTicketStatus id st notes now) down
                          "Failed to update ticket status")
  ∧ (∀ u reason until, throws (Users.blockUser u reason until) down "Failed to block user")
  ∧ (∀ u, throws (Users.unblockUser u) down "Failed to unblock user")
  ∧ (∀ u m now, throws (Users.addAdminMessage u m now) down "Failed to add admin message")
  ∧ (∀ m, throws (Users.markMessageAsRead m) down "Failed to mark message as read")
  ∧ (∀ m, throws (Users.deleteAdminMessage m) down "Failed to delete admin message").
Proof.
  unfold throws, down. conjuncts; intros.
  - unfold SupportTickets.createSupportTicket, bind, db_insert. by exec.
  - unfold SupportTickets.updateTicketStatus, bind, db_update. by exec.
  - unfold Users.blockUser, bind, db_update. by exec.
  - unfold Users.unblockUser, bind, db_update. by exec.
  - unfold Users.addAdminMessage, bind, db_insert. by exec.
  - unfold Users.markMessageAsRead, bind, db_update. by exec.
  - unfold Users.deleteAdminMessage, bind, db_delete. by exec.
Qed.

(** The writes that do not throw. *)
Lemma quiet_writes :
  (∀ user now, returns (Users.addUser user now) down None)
  ∧ (∀ id d, returns (Users.updateUserProfile id d) down None)
  ∧ (∀ u l w, is_ok (Leaders.deleteRating u l w).1 = true).
Proof.
  unfold returns, down. conjuncts; intros.
  - unfold Users.addUser, bind, db_insert_returning. by exec.
  - unfold Users.updateUserProfile, bind, db_update. by exec.
  - destruct w as [s0 fs0].
    unfold Leaders.deleteRating, bind, db_delete, db_select, db_update. by exec.
Qed.

(** C5, amended: when the store reports an error on the write it guards,
    every write operation throws an Error with a fixed message (the message
    of [updateSettings] ends with the key it failed on; [updateLeader] and
    [submitPollResponse] may already have thrown for their own reasons),
    except [addUser] and [updateUserProfile], which return [null], and
    [deleteRating], which never throws. *)
Theorem write_errors_are_thrown :
  ((∀ d u now, throws (Leaders.addLeader d u now) down "Failed to add leader")
   ∧ (∀ id d u admin f1,
        let r := (Leaders.updateLeader id d u admin (down2 f1)).1 in
        r = Throw "Leader not found."
        ∨ r = Throw "You are not authorized to edit this leader."
        ∨ r = Throw "Failed to update leader")
   ∧ (∀ l u q c sb now f1,
        throws (Leaders.submitRatingAndComment l u q c sb now) (down2 f1)
          "Failed to submit rating")
   ∧ (∀ id, throws (Leaders.approveLeader id) down "Failed to approve leader")
   ∧ (∀ id st c, throws (Leaders.updateLeaderStatus id st c) down
                   "Failed to update leader status")
   ∧ (∀ id f1 f2, throws (Leaders.deleteLeader id) (down3 f1 f2) "Failed to delete leader"))
  ∧ ((∀ k v rest, throws (Settings.updateSettings ((k, v) :: rest)) down
                    ("Failed to update setting: " +:+ k))
     ∧ (∀ settings, throws (Settings.updateSiteSettings settings) down
                      "Database transaction for updating settings failed.")
     ∧ (∀ d now, throws (Notifications.addNotification d now) down
                   "Failed to add notification")
     ∧ (∀ id d, throws (Notifications.updateNotification id d) down
                  "Failed to update notification")
     ∧ (∀ id d, throws (Notifications.updateNotification id d)
                  {| db := s; faults := false :: true :: fs |}
                  "Failed to fetch updated notification")
     ∧ (∀ id, throws (Notifications.deleteNotification id) down
                "Failed to delete notification"))
  ∧ ((∀ d now, throws (Polls.createPoll d now) down "Failed to create poll")
     ∧ (∀ title desc active until q qs now,
          throws (Polls.createPoll
                    {| Polls.i_title := title; Polls.i_description := desc;
                       Polls.i_isActive := active; Polls.i_activeUntil := until;
                       Polls.i_questions := q :: qs |} now)
            {| db := s; faults := false :: true :: fs |}
            "Failed to create poll question")
     ∧ (∀ title desc active until text type order o os qs now,
          throws (Polls.createPoll
                    {| Polls.i_title := title; Polls.i_description := desc;
                       Polls.i_isActive := active; Polls.i_activeUntil := until;
                       Polls.i_questions :=
                         {| Polls.i_questionText := text; Polls.i_questionType := type;
                            Polls.i_questionOrder := order; Polls.i_options := o :: os |}
                         :: qs |} now)
            {| db := s; faults := false :: false :: true :: fs |}
            "Failed to create poll options")
     ∧ (∀ p u answers now f1,
          let r := (Polls.submitPollResponse p u answers now (down2 f1)).1 in
          r = Throw "User has already responded to this poll"
          ∨ r = Throw "Failed to submit poll response")
     ∧ (∀ p u answers now f1,
          let r := (Polls.submitPollResponse p u answers now
                      {| db := s; faults := f1 :: false :: true :: fs |}).1 in
          r = Throw "User has already responded to this poll"
          ∨ r = Throw "Failed to submit poll answers")
     ∧ (∀ p active until, throws (Polls.updatePollStatus p active until) down
                            "Failed to update poll status")
     ∧ (∀ p f1 f2 f3 f4, throws (Polls.deletePoll p) (down5 f1 f2 f3 f4)
                           "Failed to delete poll"))
  ∧ ((∀ d now, throws (SupportTickets.createSupportTicket d now) down
                 "Failed to create support ticket")
     ∧ (∀ id st notes now, throws (SupportTickets.updateTicketStatus id st notes now) down
                             "Failed to update ticket status")
     ∧ (∀ u reason until, throws (Users.blockUser u reason until) down
                            "Failed to block user")
     ∧ (∀ u, throws (Users.unblockUser u) down "Failed to unblock user")
     ∧ (∀ u m now, throws (Users.addAdminMessage u m now) down
                     "Failed to add admin message")
     ∧ (∀ m, throws (Users.markMessageAsRead m) down "Failed to mark message as read")
     ∧ (∀ m, throws (Users.deleteAdminMessage m) down "Failed to delete admin message"))
  ∧ ((∀ user now, returns (Users.addUser user now) down None)
     ∧ (∀ id d, returns (Users.updateUserProfile id d) down None)
     ∧ (∀ u l w, is_ok (Leaders.deleteRating u l w).1 = true)).
Proof.
  split; [exact leaders_writes_throw|].
  split; [exact settings_writes_throw|].
  split; [exact polls_writes_throw|].
  split; [exact other_writes_throw|exact quiet_writes].
Qed.

End ErrorPolicy.

(** C5, as stated, fails: when the insert is refused [addUser] returns
    [null]; it does not throw. *)
Lemma addUser_returns_null_on_error :
  ¬ (∀ user now (s : Store) fs,
       ∃ msg, (Users.addUser user now {| db := s; faults := true :: fs |}).1 = Throw msg).
Proof.
  intros H.
  destruct (H {| Users.u_email := "a@b.c"; Users.u_password := None; Users.u_name := None |}
              0%Z ∅ []) as [msg Hmsg].
  unfold Users.addUser, bind, db_insert_returning in Hmsg.
  rewrite call_run in Hmsg. discriminate Hmsg.
Qed.

Section ReadPolicy.

Variable s : Store.
Variable fs : list bool.

#[local] Abbreviation down := (down s fs).
#[local] Abbreviation rest := (rest s fs).

Lemma leaders_reads_fall_back :
  Leaders.getLeaders down = (Ok [], rest)
  ∧ (∀ id, Leaders.getLeaderById id down = (Ok None, rest))
  ∧ (∀ id, Leaders.getReviewsForLeader id down = (Ok [], rest))
  ∧ (∀ id, Leaders.getRatingDistribution id down = (Ok [], rest))
  ∧ (∀ id, Leaders.getSocialBehaviourDistribution id down = (Ok [], rest))
  ∧ (∀ u, Leaders.getActivitiesForUser u down = (Ok [], rest))
  ∧ Leaders.getAllActivities down = (Ok [], rest)
  ∧ (∀ u, Leaders.getLeadersAddedByUser u down = (Ok [], rest))
  ∧ (∀ filters, Leaders.getLeaderCount filters down = (Ok 0%nat, rest))
  ∧ (∀ filters, Leaders.getRatingCount filters down = (Ok 0%nat, rest))
  ∧ (∀ filters, Leaders.getLeadersForAdminPanel filters down = (Ok [], rest)).
Proof.
  unfold down, rest. conjuncts; intros.
  - unfold Leaders.getLeaders, try_catch, bind, db_select. by exec.
  - unfold Leaders.getLeaderById, bind, db_single. by exec.
  - unfold Leaders.getReviewsForLeader, bind, db_select. by exec.
  - unfold Leaders.getRatingDistribution, bind, db_select. by exec.
  - unfold Leaders.getSocialBehaviourDistribution, bind, db_select. by exec.
  - unfold Leaders.getActivitiesForUser, bind, db_select. by exec.
  - unfold Leaders.getAllActivities, bind, db_select. by exec.
  - unfold Leaders.getLeadersAddedByUser, bind, db_select. by exec.
  - unfold Leaders.getLeaderCount, bind, db_count. by exec.
  - unfold Leaders.getRatingCount, bind, db_count. by exec.
  - unfold Leaders.getLeadersForAdminPanel, bind, db_select. by exec.
Qed.

Lemma settings_reads_fall_back :
  Settings.getSettings down = (Ok noSettings, rest)
  ∧ (∀ now, Settings.isMaintenanceActive now down = (Ok false, rest))
  ∧ Settings.getSiteSettings down = (Ok Settings.defaultSettings, rest)
  ∧ Notifications.getNotifications down = (Ok [], rest)
  ∧ (∀ now, Notifications.getActiveNotifications now down = (Ok [], rest)).
Proof.
  unfold down, rest. conjuncts; intros.
  - unfold Settings.getSettings, bind, db_select. by exec.
  - unfold Settings.isMaintenanceActive, Settings.getSettings, bind, db_select. by exec.
  - unfold Settings.getSiteSettings, try_catch, bind, db_select. by exec.
  - unfold Notifications.getNotifications, bind, db_select. by exec.
  - unfold Notifications.getActiveNotifications, bind, db_select. by exec.
Qed.

Lemma polls_reads_fall_back :
  (∀ now, Polls.getActivePolls now down = (Ok [], rest))
  ∧ Polls.getAllPolls down = (Ok [], rest)
  ∧ (∀ p, Polls.getPollById p down = (Ok None, rest))
  ∧ (∀ p, Polls.getPollResults p down = (Ok [], rest))
  ∧ (∀ p u, Polls.hasUserRespondedToPoll p u down = (Ok false, rest)).
Proof.
  unfold down, rest. conjuncts; intros.
  - unfold Polls.getActivePolls, bind, db_select. by exec.
  - unfold Polls.getAllPolls, bind, db_select. by exec.
  - unfold Polls.getPollById, bind, db_single. by exec.
  - unfold Polls.getPollResults, bind, db_single. by exec.
  - unfold Polls.hasUserRespondedToPoll, bind, db_single. by exec.
Qed.

Lemma other_reads_fall_back :
  (∀ filters now f1,
     (SupportTickets.getSupportTickets filters now
        {| db := s; faults := f1 :: true :: fs |}).1 = Ok [])
  ∧ SupportTickets.getSupportTicketStats down = (Ok noStats, rest)
  ∧ (∀ st, Users.getUsers st down = (Ok [], rest))
  ∧ (∀ email, Users.findUserByEmail email down = (Ok None, rest))
  ∧ (∀ id, Users.findUserById id down = (Ok None, rest))
  ∧ (∀ filters, Users.getUserCount filters down = (Ok 0%nat, rest))
  ∧ (∀ u, Users.getAdminMessages u down = (Ok [], rest))
  ∧ (∀ u, Users.getUnreadMessages u down = (Ok [], rest)).
Proof.
  unfold down, rest. conjuncts; intros.
  - unfold SupportTickets.getSupportTickets, bind, db_delete, db_select.
    destruct f1; by exec.
  - unfold SupportTickets.getSupportTicketStats, bind, db_select. by exec.
  - unfold Users.getUsers, try_catch, bind, db_select. by exec.
  - unfold Users.findUserByEmail, bind, db_single. by exec.
  - unfold Users.findUserById, bind, db_single. by exec.
  - unfold Users.getUserCount, bind, db_count. by exec.
  - unfold Users.getAdminMessages, bind, db_select. by exec.
  - unfold Users.getUnreadMessages, bind, db_select. by exec.
Qed.

(** C6, amended: when the store reports an error on its query no read
    operation throws.  It returns an empty collection (list-returning
    reads), [null] or [undefined] (single-record reads), a hardcoded default
    object ([getSettings], [getSiteSettings], [getSupportTicketStats]), the
    number 0 (the three count reads) or [false] ([isMaintenanceActive],
    [hasUserRespondedToPoll]). *)
Theorem read_errors_give_defaults :
  (Leaders.getLeaders down = (Ok [], rest)
   ∧ (∀ id, Leaders.getLeaderById id down = (Ok None, rest))
   ∧ (∀ id, Leaders.getReviewsForLeader id down = (Ok [], rest))
   ∧ (∀ id, Leaders.getRatingDistribution id down = (Ok [], rest))
   ∧ (∀ id, Leaders.getSocialBehaviourDistribution id down = (Ok [], rest))
   ∧ (∀ u, Leaders.getActivitiesForUser u down = (Ok [], rest))
   ∧ Leaders.getAllActivities down = (Ok [], rest)
   ∧ (∀ u, Leaders.getLeadersAddedByUser u down = (Ok [], rest))
   ∧ (∀ filters, Leaders.getLeaderCount filters down = (Ok 0%nat, rest))
   ∧ (∀ filters, Leaders.getRatingCount filters down = (Ok 0%nat, rest))
   ∧ (∀ filters, Leaders.getLeadersForAdminPanel filters down = (Ok [], rest)))
  ∧ (Settings.getSettings down = (Ok noSettings, rest)
     ∧ (∀ now, Settings.isMaintenanceActive now down = (Ok false, rest))
     ∧ Settings.getSiteSettings down = (Ok Settings.defaultSettings, rest)
     ∧ Notifications.getNotifications down = (Ok [], rest)
     ∧ (∀ now, Notifications.getActiveNotifications now down = (Ok [], rest)))
  ∧ ((∀ now, Polls.getActivePolls now down = (Ok [], rest))
     ∧ Polls.getAllPolls down = (Ok [], rest)
     ∧ (∀ p, Polls.getPollById p down = (Ok None, rest))
     ∧ (∀ p, Polls.getPollResults p down = (Ok [], rest))
     ∧ (∀ p u, Polls.hasUserRespondedToPoll p u down = (Ok false, rest)))
  ∧ ((∀ filters now f1,
        (SupportTickets.getSupportTickets filters now
           {| db := s; faults := f1 :: true :: fs |}).1 = Ok [])
     ∧ SupportTickets.getSupportTicketStats down = (Ok noStats, rest)
     ∧ (∀ st, Users.getUsers st down = (Ok [], rest))
     ∧ (∀ email, Users.findUserByEmail email down = (Ok None, rest))
     ∧ (∀ id, Users.findUserById id down = (Ok None, rest))
     ∧ (∀ filters, Users.getUserCount filters down = (Ok 0%nat, rest))
     ∧ (∀ u, Users.getAdminMessages u down = (Ok [], rest))
     ∧ (∀ u, Users.getUnreadMessages u down = (Ok [], rest))).
Proof.
  split; [exact leaders_reads_fall_back|].
  split; [exact settings_reads_fall_back|].
  split; [exact polls_reads_fall_back|exact other_reads_fall_back].
Qed.

End ReadPolicy.

(** C6, as stated, fails: on an error [getLeaderCount] returns the number 0,
    which is neither an empty collection, nor [null] or [undefined], nor an
    object. *)
Lemma getLeaderCount_error_is_a_number :
  ¬ (∀ filters (s : Store) fs,
       ∃ v, (Leaders.getLeaderCount filters {| db := s; faults := true :: fs |}).1 = Ok v
            ∧ empty_null_or_object (kind_of v)).
Proof.
  intros H. destruct (H None ∅ []) as (v & Hv & Hkind).
  unfold Leaders.getLeaderCount, bind, db_count in Hv. rewrite call_run in Hv.
  injection Hv as <-.
  destruct Hkind as [Hk|[Hk|Hk]]; discriminate Hk.
Qed.

(** * Further lemmas on lists, sorting and the store *)

Section Sorting.
Context {A : Type} (le : A → A → bool).

Lemma insert_by_perm x (l : list A) : insert_by le x l ≡ₚ x :: l.
Proof.
  induction l as [|y l IH]; [done|]. simpl.
  destruct (le x y); [done|]. rewrite IH. apply Permutation_swap.
Qed.

Lemma sort_by_perm (l : list A) : sort_by le l ≡ₚ l.
Proof.
  induction l as [|x l IH]; [done|]. simpl.
  rewrite insert_by_perm. by rewrite IH.
Qed.

Lemma sort_by_length (l : list A) : length (sort_by le l) = length l.
Proof. by rewrite sort_by_perm. Qed.

Lemma sort_by_elem x (l : list A) : x ∈ sort_by le l ↔ x ∈ l.
Proof. by rewrite sort_by_perm. Qed.

Lemma sort_by_Forall (P : A → Prop) (l : list A) : Forall P l → Forall P (sort_by le l).
Proof. by rewrite sort_by_perm. Qed.

Hypothesis total : ∀ a b, le a b = true ∨ le b a = true.

Lemma insert_by_sorted x (l : list A) :
  Sorted (λ a b, le a b = true) l → Sorted (λ a b, le a b = true) (insert_by le x l).
Proof.
  induction 1 as [|y l Hl IH Hhd]; simpl.
  - by repeat constructor.
  - destruct (le x y) eqn:E.
    + by repeat constructor.
    + constructor; [done|].
      destruct Hhd as [|z l Hyz]; simpl.
      * constructor. by destruct (total x y) as [H|H]; [congruence|].
      * destruct (le x z); constructor; [|done].
        by destruct (total x y) as [H|H]; [congruence|].
Qed.

Lemma sort_by_sorted (l : list A) : Sorted (λ a b, le a b = true) (sort_by le l).
Proof.
  induction l as [|x l IH]; [constructor|]. simpl. by apply insert_by_sorted.
Qed.

End Sorting.

Section Store.

Lemma rows_empty t : rows ∅ t = [].
Proof. unfold rows. by rewrite lookup_empty. Qed.

Lemma filter_filter_neg {A} (p : A → bool) (l : list A) :
  List.filter p (List.filter (λ x, negb (p x)) l) = [].
Proof.
  induction l as [|x l IH]; [done|]. simpl.
  destruct (p x) eqn:E; simpl; [done|]. by rewrite E.
Qed.

Lemma filter_filter_other {A} (p q : A → bool) (l : list A) :
  (∀ x, q x = true → p x = false) →
  List.filter q (List.filter (λ x, negb (p x)) l) = List.filter q l.
Proof.
  intros H. induction l as [|x l IH]; [done|]. simpl.
  destruct (q x) eqn:Eq.
  - rewrite (H x Eq). simpl. by rewrite Eq, IH.
  - destruct (p x); simpl; by rewrite ?Eq, IH.
Qed.

Lemma filter_nil_not {A} (p : A → bool) (l : list A) :
  List.filter p l = [] → List.filter (λ x, negb (p x)) l = l.
Proof.
  induction l as [|x l IH]; [done|]. simpl.
  destruct (p x); [done|]. simpl. intros H. by rewrite IH.
Qed.

Lemma filter_length_le {A} (p : A → bool) (l : list A) :
  (length (List.filter p l) ≤ length l)%nat.
Proof. induction l as [|x l IH]; [done|]. simpl. destruct (p x); simpl; lia. Qed.

Lemma filter_elem {A} (p : A → bool) (l : list A) x :
  x ∈ List.filter p l ↔ x ∈ l ∧ p x = true.
Proof. by rewrite !list_elem_of_In, List.filter_In. Qed.

Lemma filter_Forall {A} (p : A → bool) (l : list A) :
  Forall (λ x, p x = true) (List.filter p l).
Proof. apply Forall_forall. by intros x [_ ?]%filter_elem. Qed.

Lemma patch_row_none (p : obj → bool) (patch : obj) (l : list obj) :
  List.filter p l = [] → patch_row p patch <$> l = l.
Proof.
  induction l as [|x l IH]; [done|]. rewrite fmap_cons. simpl.
  unfold patch_row at 1. destruct (p x); [done|]. intros H. by rewrite IH.
Qed.

Lemma union_lookup_l (patch r : obj) k x :
  patch !! k = Some x → (patch ∪ r) !! k = Some x.
Proof. apply lookup_union_Some_l. Qed.

Lemma union_lookup_r (patch r : obj) k :
  patch !! k = None → (patch ∪ r) !! k = r !! k.
Proof. intros H. rewrite lookup_union, H. by destruct (r !! k). Qed.

Lemma js_or_falsy (a b : option value) : truthy a = false → js_or a b = b.
Proof. unfold js_or. by intros ->. Qed.

Lemma js_or_truthy (a b : option value) : truthy a = true → js_or a b = a.
Proof. unfold js_or. by intros ->. Qed.

End Store.

(** * Leaders: adding, publishing, deleting *)

Section LeaderLifecycle.

Lemma select_run t sh p ord (s : Store) fs :
  db_select t sh p ord {| db := s; faults := false :: fs |}
  = (Ok (fetched (query s t sh p ord)), {| db := s; faults := fs |}).
Proof. unfold db_select. by rewrite call_run. Qed.

Lemma getLeaderById_unique id (s : Store) fs (r : obj) :
  leadersWith s id = [r] →
  Leaders.getLeaderById id {| db := s; faults := false :: fs |}
  = (Ok (Some (Leaders.dbToLeader r)), {| db := s; faults := fs |}).
Proof.
  intros H. unfold Leaders.getLeaderById, bind, db_single. rewrite call_run.
  unfold query, unordered. rewrite omap_star. unfold leadersWith in H. by rewrite H.
Qed.

Lemma getLeaderById_none id (s : Store) fs :
  leadersWith s id = [] →
  Leaders.getLeaderById id {| db := s; faults := fs |}
  = (Ok None, {| db := s; faults := tail fs |}).
Proof.
  intros H. unfold Leaders.getLeaderById, bind, db_single. rewrite call_run.
  unfold query, unordered. rewrite omap_star. unfold leadersWith in H. rewrite H.
  by destruct (fault fs).
Qed.

Lemma getLeaders_run (s : Store) fs :
  Leaders.getLeaders {| db := s; faults := false :: fs |}
  = (Ok (Leaders.dbToLeader
           <$> List.filter (f_eq "status" (VStr "approved")) (rows s "leaders")),
     {| db := s; faults := fs |}).
Proof.
  unfold Leaders.getLeaders, try_catch, bind. rewrite select_run.
  cbn. unfold query, unordered. by rewrite omap_star.
Qed.

(** X1: whatever the store holds and whether or not it reports an error,
    every leader that [getLeaders] returns has status 'approved'. *)
Theorem getLeaders_only_approved (w : World) :
  ∃ leaders, (Leaders.getLeaders w).1 = Ok leaders
             ∧ Forall (λ l, Leaders.status l = Some (VStr "approved")) leaders.
Proof.
  destruct w as [s fs]. unfold Leaders.getLeaders, try_catch, bind, db_select.
  exec; eexists; (split; [reflexivity|]); [constructor|].
  unfold query, unordered. rewrite omap_star.
  apply Forall_fmap, Forall_forall. intros r [_ Hr]%filter_elem.
  apply f_eq_str in Hr. cbn. by rewrite Hr.
Qed.

Lemma newLeaderRow_id d u now : f_eq "id" (VStr (time_id now)) (newLeaderRow d u now) = true.
Proof. apply f_eq_str. unfold newLeaderRow. rewrite literal_lookup. reflexivity. Qed.

Lemma addLeader_run d u now (s : Store) fs :
  Leaders.addLeader d u now {| db := s; faults := false :: fs |}
  = (Ok (), {| db := set_rows "leaders" (rows s "leaders" ++ [newLeaderRow d u now])%list s;
               faults := fs |}).
Proof. unfold Leaders.addLeader, bind, db_insert. by rewrite call_run. Qed.

(** X2: a leader added by a stored user (or by nobody), under an id that
    no stored leader has, is then found by [getLeaderById] under that id,
    with the submitted name, party and constituency, status 'pending',
    rating 0, no reviews and the submitter as [addedByUserId]; but its
    previous elections, which [addLeader] stores in the column
    [previous_elections], are read back from the property
    [previousElections] and so come back empty.  Being pending, the new
    leader is not among those [getLeaders] returns. *)
Theorem addLeader_then_getLeaderById d u now (s : Store) (fs : list bool) :
  leadersWith s (time_id now) = [] →
  (∀ uid, u = Some uid → usersWith s uid ≠ []) →
  let added := Leaders.addLeader d u now (calm3 s fs) in
  ∃ leader w2,
    Leaders.getLeaderById (time_id now) added.2 = (Ok (Some leader), w2)
    ∧ has_id (time_id now) leader
    ∧ Leaders.name leader = Some (VStr (Leaders.d_name d))
    ∧ Leaders.partyName leader = Some (VStr (Leaders.d_partyName d))
    ∧ Leaders.constituency leader = Some (VStr (Leaders.d_constituency d))
    ∧ Leaders.status leader = Some (VStr "pending")
    ∧ Leaders.rating leader = Some (VInt 0)
    ∧ Leaders.reviewCount leader = Some (VInt 0)
    ∧ Leaders.addedByUserId leader = Some (nullable u)
    ∧ Leaders.createdAt leader = Some (VTime now)
    ∧ Leaders.previousElections leader = []
    ∧ ∃ leaders, (Leaders.getLeaders w2).1 = Ok leaders
                 ∧ Forall (λ l, ¬ has_id (time_id now) l) leaders.
Proof.
  intros Hfresh _ added. subst added. unfold calm3. rewrite addLeader_run. cbn [snd].
  assert (leadersWith (set_rows "leaders" (rows s "leaders" ++ [newLeaderRow d u now])%list s)
            (time_id now) = [newLeaderRow d u now]) as Hone.
  { unfold leadersWith in *. rewrite rows_set_rows, List.filter_app, Hfresh. simpl.
    by rewrite newLeaderRow_id. }
  rewrite (getLeaderById_unique _ _ _ _ Hone).
  eexists _, _. split; [reflexivity|].
  do 10 (split;
    [ unfold has_id, Leaders.dbToLeader, newLeaderRow, Leaders.leaderColumns;
      cbn [Leaders.id Leaders.name Leaders.partyName Leaders.constituency Leaders.status
           Leaders.rating Leaders.reviewCount Leaders.addedByUserId Leaders.createdAt
           Leaders.previousElections];
      rewrite !literal_lookup; by destruct u |]).
  rewrite getLeaders_run. eexists. split; [reflexivity|].
  apply Forall_fmap, Forall_forall. intros r [Hr Happroved]%filter_elem.
  rewrite rows_set_rows in Hr. apply f_eq_str in Happroved.
  unfold has_id. cbn. intros Hid.
  apply elem_of_app in Hr as [Hr|Hr%list_elem_of_singleton].
  - assert (r ∈ leadersWith s (time_id now)) as Hin.
    { apply filter_elem. split; [done|]. by apply f_eq_str. }
    rewrite Hfresh in Hin. by apply elem_of_nil in Hin.
  - subst r. unfold newLeaderRow, Leaders.leaderColumns in Happroved.
    rewrite literal_lookup in Happroved. cbn in Happroved. discriminate.
Qed.

Lemma addLeader_then_getLeaderById_witness :
  let s := set_rows "users" [alice "pw"] ∅ in
  let added := Leaders.addLeader someLeader (Some "1") 1000 (calm3 s []) in
  leadersWith s (time_id 1000) = []
  ∧ (∀ uid, Some "1" = Some uid → usersWith s uid ≠ [])
  ∧ ∃ leader w2,
      Leaders.getLeaderById (time_id 1000) added.2 = (Ok (Some leader), w2)
      ∧ Leaders.status leader = Some (VStr "pending")
      ∧ Leaders.addedByUserId leader = Some (VStr "1")
      ∧ Leaders.previousElections leader = [].
Proof.
  intros s added.
  assert (leadersWith s (time_id 1000) = []) as H.
  { unfold leadersWith, s. rewrite rows_set_rows_ne by done. by rewrite rows_empty. }
  assert (∀ uid, Some "1" = Some uid → usersWith s uid ≠ []) as Hu.
  { intros uid [= <-]. unfold usersWith, s. rewrite rows_set_rows. cbn [List.filter].
    replace (f_eq "id" (VStr "1") (alice "pw")) with true; [done|].
    symmetry. apply f_eq_str. unfold alice. rewrite lookup_insert_ne by done.
    by rewrite literal_lookup. }
  split; [exact H|]. split; [exact Hu|].
  destruct (addLeader_then_getLeaderById someLeader (Some "1") 1000 s [] H Hu)
    as (leader & w2 & Hg & _ & _ & _ & _ & Hs & _ & _ & Ha & _ & Hp & _).
  exists leader, w2. split; [exact Hg|]. split; [exact Hs|]. split; [exact Ha|exact Hp].
Defined.

Lemma updateLeaderStatus_run id status comment (s : Store) fs :
  Leaders.updateLeaderStatus id status comment {| db := s; faults := false :: fs |}
  = (Ok (), {| db := set_rows "leaders"
                       (patch_row (f_eq "id" (VStr id)) (statusPatch status comment)
                          <$> rows s "leaders") s;
               faults := fs |}).
Proof. unfold Leaders.updateLeaderStatus, bind, db_update. by rewrite call_run. Qed.

Lemma statusPatch_other status comment (r : obj) k :
  k ≠ "status" → k ≠ "admin_comment" → (statusPatch status comment ∪ r) !! k = r !! k.
Proof.
  intros H1 H2. rewrite union_lookup. unfold statusPatch. rewrite literal_lookup. cbn [assoc].
  destruct (String.eqb_spec "status" k); [congruence|].
  destruct (String.eqb_spec "admin_comment" k); [congruence|]. done.
Qed.

Lemma statusPatch_status status comment (r : obj) :
  (statusPatch status comment ∪ r) !! "status" = Some (VStr status).
Proof. rewrite union_lookup. unfold statusPatch. by rewrite literal_lookup. Qed.

Lemma patched_id p patch (r : obj) id :
  patch !! "id" = None →
  f_eq "id" (VStr id) (patch_row p patch r) = f_eq "id" (VStr id) r.
Proof.
  intros H. unfold patch_row. destruct (p r); [|done].
  unfold f_eq, column. by rewrite union_lookup, H.
Qed.

Lemma has_id_row id (r : obj) : has_id id (Leaders.dbToLeader r) ↔ f_eq "id" (VStr id) r = true.
Proof. unfold has_id. cbn. symmetry. apply f_eq_str. Qed.

(** X3: after [updateLeaderStatus] went through, the public list holds a
    leader with the given id exactly if the new status is 'approved' and a
    leader with that id is stored; the leaders with another id are listed
    exactly as they were before. *)
Theorem updateLeaderStatus_then_getLeaders id status comment (s : Store) (fs : list bool) :
  let before := listed (calm2 s fs) in
  let after := listed (Leaders.updateLeaderStatus id status comment (calm2 s fs)).2 in
  (Exists (has_id id) after ↔ status = "approved" ∧ leadersWith s id ≠ [])
  ∧ ∀ l, ¬ has_id id l → (l ∈ after ↔ l ∈ before).
Proof.
  intros before after. subst before after. unfold calm2, listed.
  rewrite updateLeaderStatus_run. cbn [snd]. rewrite !getLeaders_run. cbn [fst].
  rewrite rows_set_rows.
  set (P := patch_row (f_eq "id" (VStr id)) (statusPatch status comment)).
  split.
  - rewrite Exists_exists. split.
    + intros (l & (r' & -> & [Hin Happ]%filter_elem)%list_elem_of_fmap & Hid%has_id_row).
      apply list_elem_of_fmap in Hin as (r & -> & Hr).
      assert (f_eq "id" (VStr id) r = true) as Hr_id.
      { subst P. by rewrite patched_id in Hid. }
      apply f_eq_str in Happ. subst P. unfold patch_row in Happ. rewrite Hr_id in Happ.
      rewrite statusPatch_status in Happ. split; [congruence|].
      intros Hnil. assert (r ∈ leadersWith s id) as H by by apply filter_elem.
      rewrite Hnil in H. by apply elem_of_nil in H.
    + intros [-> Hne]. destruct (leadersWith s id) as [|r rs] eqn:Hw; [done|].
      assert (r ∈ leadersWith s id) as [Hr Hid]%filter_elem by (rewrite Hw; left).
      exists (Leaders.dbToLeader (P r)). split.
      * apply list_elem_of_fmap. exists (P r). split; [done|]. apply filter_elem. split.
        -- apply list_elem_of_fmap. by exists r.
        -- subst P. unfold patch_row. rewrite Hid. apply f_eq_str, statusPatch_status.
      * apply has_id_row. subst P. by rewrite patched_id.
  - intros l Hl. rewrite !list_elem_of_fmap. split.
    + intros (r' & -> & [Hin Happ]%filter_elem).
      apply list_elem_of_fmap in Hin as (r & -> & Hr).
      assert (f_eq "id" (VStr id) r = false) as Hr_id.
      { destruct (f_eq "id" (VStr id) r) eqn:E; [|done]. exfalso. apply Hl.
        apply has_id_row. subst P. by rewrite patched_id. }
      subst P. unfold patch_row in *. rewrite Hr_id in *.
      exists r. split; [done|]. by apply filter_elem.
    + intros (r & -> & [Hr Happ]%filter_elem).
      assert (f_eq "id" (VStr id) r = false) as Hr_id.
      { destruct (f_eq "id" (VStr id) r) eqn:E; [|done]. exfalso. by apply Hl, has_id_row. }
      exists r. split; [done|]. apply filter_elem. split; [|done].
      apply list_elem_of_fmap. exists r. split; [|done].
      subst P. unfold patch_row. by rewrite Hr_id.
Qed.

Lemma approveLeader_run id (s : Store) fs :
  Leaders.approveLeader id {| db := s; faults := false :: fs |}
  = (Ok (), {| db := set_rows "leaders"
                       (patch_row (f_eq "id" (VStr id))
                          (statusPatch "approved" (Some "Approved by admin."))
                          <$> rows s "leaders") s;
               faults := fs |}).
Proof. unfold Leaders.approveLeader, bind, db_update. by rewrite call_run. Qed.

Lemma filter_patched id patch (l : list obj) :
  patch !! "id" = None →
  List.filter (f_eq "id" (VStr id)) (patch_row (f_eq "id" (VStr id)) patch <$> l)
  = (patch ∪.) <$> List.filter (f_eq "id" (VStr id)) l.
Proof.
  intros H. induction l as [|r l IH]; [done|]. rewrite fmap_cons. cbn [List.filter].
  rewrite patched_id by done. unfold patch_row at 1.
  destruct (f_eq "id" (VStr id) r); [|done]. rewrite fmap_cons. by f_equal.
Qed.

(** X4: approving the one leader stored under an id changes, in what
    [getLeaderById] then returns, the status to 'approved' and nothing but
    the status and the admin's comment. *)
Theorem approveLeader_changes_only_status id (s : Store) (fs : list bool) (r : obj) :
  leadersWith s id = [r] →
  ∃ leader w2,
    Leaders.getLeaderById id (Leaders.approveLeader id (calm2 s fs)).2
    = (Ok (Some leader), w2)
    ∧ Leaders.status leader = Some (VStr "approved")
    ∧ same_but_status leader (Leaders.dbToLeader r).
Proof.
  intros Hr. unfold calm2. rewrite approveLeader_run. cbn [snd].
  set (patch := statusPatch "approved" (Some "Approved by admin.")).
  assert (leadersWith (set_rows "leaders"
            (patch_row (f_eq "id" (VStr id)) patch <$> rows s "leaders") s) id
          = [patch ∪ r]) as Hone.
  { unfold leadersWith in *. rewrite rows_set_rows, filter_patched by done. by rewrite Hr. }
  rewrite (getLeaderById_unique _ _ _ _ Hone). eexists _, _. split; [reflexivity|].
  subst patch. split.
  - unfold Leaders.dbToLeader. cbn [Leaders.status]. by rewrite statusPatch_status.
  - unfold same_but_status, Leaders.dbToLeader.
    cbn [Leaders.id Leaders.name Leaders.partyName Leaders.gender Leaders.age
         Leaders.photoUrl Leaders.constituency Leaders.nativeAddress Leaders.electionType
         Leaders.location_state Leaders.location_district Leaders.rating
         Leaders.reviewCount Leaders.previousElections Leaders.manifestoUrl
         Leaders.twitterUrl Leaders.addedByUserId Leaders.createdAt Leaders.userName].
    by rewrite !statusPatch_other by done.
Qed.

Lemma approveLeader_changes_only_status_witness :
  leadersWith oneLeader "L" = [freshLeader]
  ∧ ∃ leader w2,
      Leaders.getLeaderById "L" (Leaders.approveLeader "L" (calm2 oneLeader [])).2
      = (Ok (Some leader), w2)
      ∧ Leaders.status leader = Some (VStr "approved")
      ∧ same_but_status leader (Leaders.dbToLeader freshLeader).
Proof.
  assert (leadersWith oneLeader "L" = [freshLeader]) as H.
  { unfold leadersWith, oneLeader. rewrite rows_set_rows. cbn [List.filter].
    by replace (f_eq "id" (VStr "L") freshLeader) with true by (symmetry; by apply f_eq_str). }
  split; [exact H|]. exact (approveLeader_changes_only_status "L" oneLeader [] freshLeader H).
Defined.

(** X5: [deleteLeader] reports only the error of its last call.  When
    that call goes through no leader with the id is left and no leader is
    found under it, whereas the ratings of the leader are gone exactly if
    the first call went through - also when the operation then throws, and
    not when only the first call failed. *)
Theorem deleteLeader_dependents id (s : Store) (f1 f2 f3 : bool) (fs : list bool) :
  let after := Leaders.deleteLeader id {| db := s; faults := f1 :: f2 :: f3 :: fs |} in
  after.1 = (if f3 then Throw "Failed to delete leader" else Ok ())
  ∧ ratingsOf (db after.2) id = (if f1 then ratingsOf s id else [])
  ∧ leadersWith (db after.2) id = (if f3 then leadersWith s id else [])
  ∧ (f3 = false → (Leaders.getLeaderById id after.2).1 = Ok None)
  ∧ ∀ other, other ≠ id →
      ratingsOf (db after.2) other = ratingsOf s other
      ∧ leadersWith (db after.2) other = leadersWith s other.
Proof.
  intros after. subst after. unfold Leaders.deleteLeader, bind, db_delete.
  assert (∀ other, other ≠ id → ∀ c (l : list obj),
            List.filter (f_eq c (VStr other))
              (List.filter (λ r, negb (f_eq c (VStr id) r)) l)
            = List.filter (f_eq c (VStr other)) l) as Hother.
  { intros other Hne c l. apply filter_filter_other. intros r Ho.
    apply f_eq_str in Ho. destruct (f_eq c (VStr id) r) eqn:E; [|done].
    apply f_eq_str in E. congruence. }
  set (G := Leaders.getLeaderById id).
  destruct f1, f2, f3; exec; unfold ratingsOf, leadersWith;
    repeat (rewrite rows_set_rows || rewrite rows_set_rows_ne by done);
    rewrite ?filter_filter_neg.
  all: (split; [done|]); (split; [done|]); (split; [done|]).
  all: split;
    [ try done; intros _; subst G;
      match goal with |- context [Leaders.getLeaderById _ {| db := ?s'; faults := ?f |}] =>
        rewrite (getLeaderById_none id s' f); [done|]
      end;
      unfold leadersWith; by rewrite ?rows_set_rows, filter_filter_neg |].
  all: intros other Hne; rewrite ?Hother by done; done.
Qed.

End LeaderLifecycle.

(** * Ratings: resubmission, comments, deletion, scale *)

Section Ratings.

Lemma blank_has_text c : blank c → Leaders.has_text c = false.
Proof.
  intros H. destruct c as [t|]; [|done]. unfold Leaders.has_text.
  rewrite (H t eq_refl). apply andb_false_r.
Qed.

Lemma same_key_commentRow l u c now (r : obj) :
  same_key ["userId"; "leaderId"] (commentRow l u c now) r = pair_is u l r.
Proof.
  unfold same_key, pair_is, f_and, f_eq, column, commentRow. cbn [List.forallb].
  rewrite !literal_lookup. cbn [assoc String.eqb Ascii.eqb Bool.eqb].
  destruct (r !! "userId") as [[]|], (r !! "leaderId") as [[]|]; simpl;
    rewrite ?andb_true_r, ?andb_false_r; try done.
  by rewrite (String.eqb_sym u), (String.eqb_sym l).
Qed.

Lemma upsert_comment_rows l u c now (rs : list obj) :
  upsert_rows ["userId"; "leaderId"] (commentRow l u c now) rs
  = if List.existsb (pair_is u l) rs
    then patch_row (pair_is u l) (commentRow l u c now) <$> rs
    else (rs ++ [commentRow l u c now])%list.
Proof.
  unfold upsert_rows.
  rewrite (existsb_pointwise _ _ rs (same_key_commentRow l u c now)).
  destruct (List.existsb (pair_is u l) rs); [|done].
  apply list_fmap_ext. intros _ r _. unfold patch_row. by rewrite same_key_commentRow.
Qed.

Lemma filter_nil_existsb {A} (p : A → bool) (l : list A) :
  List.filter p l = [] → List.existsb p l = false.
Proof.
  intros H. destruct (List.existsb p l) eqn:E; [|done].
  by apply existsb_true_filter in E.
Qed.

Lemma filter_cons_existsb {A} (p : A → bool) (l : list A) x xs :
  List.filter p l = x :: xs → List.existsb p l = true.
Proof.
  intros H. destruct (List.existsb p l) eqn:E; [done|].
  apply existsb_false_filter in E. congruence.
Qed.

(** What a submission whose upsert goes through does to the ratings and
    the comments. *)
Lemma submit_tables l u q c sb now (s : Store) (f1 : bool) fs :
  ∃ res w',
    Leaders.submitRatingAndComment l u q c sb now {| db := s; faults := f1 :: false :: fs |}
    = (Ok res, w')
    ∧ rows (db w') "ratings"
      = upsert_rows ["userId"; "leaderId"]
          (ratingRow l u q sb
             (if f1 then Some (VTime now)
              else match ratingBy s u l with [_] => None | _ => Some (VTime now) end) now)
          (rows s "ratings")
    ∧ rows (db w') "comments"
      = if Leaders.has_text c && negb (fault fs)
        then upsert_rows ["userId"; "leaderId"] (commentRow l u c now) (rows s "comments")
        else rows s "comments".
Proof.
  unfold Leaders.submitRatingAndComment, try_catch, bind, db_single.
  rewrite call_run. rewrite pkey_ratings.
  assert (query s "ratings" (columns ["rating"])
            (f_and (f_eq "userId" (VStr u)) (f_eq "leaderId" (VStr l))) unordered
          = project ["rating"] <$> ratingBy s u l) as ->.
  { unfold query, unordered, ratingBy. apply omap_columns. }
  set (created := if f1 then _ else _).
  assert (∃ ex, (if fault (f1 :: false :: fs)
                 then (Ok failed, {| db := s; faults := tail (f1 :: false :: fs) |})
                 else (Ok (match project ["rating"] <$> ratingBy s u l with
                           | [r] => (fetched r, s) | _ => (failed, s) end).1,
                       {| db := (match project ["rating"] <$> ratingBy s u l with
                                 | [r] => (fetched r, s) | _ => (failed, s) end).2;
                          faults := tail (f1 :: false :: fs) |}))
                = (Ok ex, {| db := s; faults := false :: fs |})
                ∧ (if data ex is Some _ then None else Some (VTime now)) = created)
    as (ex & -> & Hex).
  { subst created. destruct f1; cbn [fault tail]; [by eexists|].
    destruct (ratingBy s u l) as [|r [|r' rs]]; by eexists. }
  cbn [fst snd]. rewrite Hex. fold (ratingRow l u q sb created now).
  unfold db_upsert at 1. rewrite call_run. cbn [fault fst snd foldl error fetched tail].
  set (new := ratingRow _ _ _ _ _ _).
  set (s1 := set_rows "ratings" _ s).
  unfold db_upsert, db_select, db_update. rewrite (pkey_ratings : pkey "comments" = _).
  fold (commentRow l u c now).
  destruct (Leaders.has_text c); cbn [andb negb].
  all: repeat first
    [ progress exec
    | match goal with
      | |- context [match query ?a ?b ?c ?d ?e with _ => _ end] =>
        destruct (query a b c d e) eqn:?
      end ].
  all: eexists _, _; (split; [reflexivity|]).
  all: cbn [db foldl negb];
       repeat (rewrite rows_set_rows || rewrite rows_set_rows_ne by done);
       subst s1; repeat (rewrite rows_set_rows || rewrite rows_set_rows_ne by done);
       done.
Qed.

(** X6: when a rating is submitted and the upsert goes through, the one
    row of the pair carries the new score, the new [updatedAt] and the new
    social behaviour.  Its [createdAt] is kept if the pair had a row and the
    lookup of it went through; it is the time of the submission for a first
    rating, and also for a resubmission whose lookup failed. *)
Theorem resubmission_keeps_createdAt l u q c sb now (s : Store) (f1 : bool) (fs : list bool) :
  (length (ratingBy s u l) ≤ 1)%nat →
  let after :=
    Leaders.submitRatingAndComment l u q c sb now {| db := s; faults := f1 :: false :: fs |} in
  ∃ r : obj,
    ratingBy (db after.2) u l = [r]
    ∧ r !! "rating" = Some (VNum q)
    ∧ r !! "updatedAt" = Some (VTime now)
    ∧ r !! "socialBehaviour" = Some (nullable sb)
    ∧ r !! "createdAt"
      = match ratingBy s u l with
        | [old] => if f1 then Some (VTime now) else old !! "createdAt"
        | _ => Some (VTime now)
        end.
Proof.
  intros Huniq after. subst after.
  destruct (submit_tables l u q c sb now s f1 fs) as (res & w' & -> & Hr & _).
  cbn [snd]. unfold ratingBy in *. rewrite Hr, upsert_rating_rows.
  destruct (List.filter (pair_is u l) (rows s "ratings")) as [|old [|]] eqn:Hprior;
    [| |simpl in Huniq; lia].
  - rewrite (filter_nil_existsb _ _ Hprior), List.filter_app, Hprior. cbn [List.filter app].
    rewrite ratingRow_pair. eexists. split; [reflexivity|].
    unfold ratingRow. rewrite !literal_lookup. by destruct f1.
  - rewrite (filter_cons_existsb _ _ _ _ Hprior).
    rewrite filter_fmap_same by (intros; apply patched_pair). rewrite Hprior.
    assert (pair_is u l old = true) as Hold.
    { assert (old ∈ List.filter (pair_is u l) (rows s "ratings")) as H
        by (rewrite Hprior; left).
      by apply filter_elem in H as [_ ?]. }
    eexists. split; [reflexivity|]. unfold patch_row. rewrite Hold.
    rewrite !union_lookup. unfold ratingRow. rewrite !literal_lookup. by destruct f1.
Qed.

Lemma ratedOnce_ratingBy :
  ratingBy (db ratedOnce) "u" "L" = [ratingRow "L" "u" 2 None (Some (VTime 0)) 0].
Proof.
  unfold ratingBy, ratedOnce. cbn [db]. rewrite rows_set_rows. cbn [List.filter].
  by rewrite ratingRow_pair.
Qed.

(** A resubmission: the row written at time 0 keeps that time. *)
Lemma resubmission_keeps_createdAt_witness :
  (length (ratingBy (db ratedOnce) "u" "L") ≤ 1)%nat
  ∧ ∃ r : obj,
      ratingBy
        (db (Leaders.submitRatingAndComment "L" "u" 5 None None 1000
               {| db := db ratedOnce; faults := [false; false] |}).2) "u" "L" = [r]
      ∧ r !! "createdAt" = Some (VTime 0).
Proof.
  assert (length (ratingBy (db ratedOnce) "u" "L") ≤ 1)%nat as H.
  { rewrite ratedOnce_ratingBy. simpl. lia. }
  split; [exact H|].
  destruct (resubmission_keeps_createdAt "L" "u" 5 None None 1000 (db ratedOnce) false [] H)
    as (r & Hr & _ & _ & _ & Hc).
  exists r. split; [exact Hr|]. rewrite Hc, ratedOnce_ratingBy.
  unfold ratingRow. by rewrite literal_lookup.
Defined.

(** X7: a submission without a comment, or with one of white space only,
    leaves the comments as they are, whatever the store reports. *)
Theorem blank_comment_keeps_comments l u q c sb now (w : World) :
  blank c →
  rows (db (Leaders.submitRatingAndComment l u q c sb now w).2) "comments"
  = rows (db w) "comments".
Proof.
  intros Hb%blank_has_text. destruct w as [s fs].
  unfold Leaders.submitRatingAndComment, try_catch, bind.
  match goal with
  | |- context [db_single ?t ?sh ?p {| db := ?s0; faults := ?f |}] =>
    destruct (db_single_run t sh p s0 f) as (ex & ->)
  end.
  unfold db_upsert, db_select, db_update. rewrite Hb.
  repeat first
    [ progress exec
    | match goal with
      | |- context [match query ?a ?b ?c ?d ?e with _ => _ end] =>
        destruct (query a b c d e) eqn:?
      end ].
  all: cbn [db]; by repeat (rewrite rows_set_rows || rewrite rows_set_rows_ne by done).
Qed.

Lemma blank_comment_keeps_comments_witness :
  blank (Some "  ")
  ∧ rows (db (Leaders.submitRatingAndComment "L" "u" 4 (Some "  ") None 1000 working).2)
      "comments"
    = rows (db working) "comments".
Proof.
  assert (blank (Some "  ")) as H by (intros t [= <-]; reflexivity).
  split; [exact H|].
  exact (blank_comment_keeps_comments "L" "u" 4 (Some "  ") None 1000 working H).
Defined.

Lemma aggregate_idempotent (r : obj) (P1 P2 : obj) :
  (∀ k, k ≠ "rating" → k ≠ "review_count" → P1 !! k = None ∧ P2 !! k = None) →
  is_Some (r !! "rating") → is_Some (r !! "review_count") →
  P2 !! "rating" = r !! "rating" → P2 !! "review_count" = r !! "review_count" →
  P2 ∪ (P1 ∪ r) = r.
Proof.
  intros Hother [a Ha] [b Hb] Hr Hc. apply map_eq. intros k. rewrite !union_lookup.
  destruct (String.eqb_spec k "rating") as [->|H1].
  { by rewrite Hr, Ha. }
  destruct (String.eqb_spec k "review_count") as [->|H2].
  { by rewrite Hc, Hb. }
  by destruct (Hother k H1 H2) as [-> ->].
Qed.

Lemma average_patch_other average rs k :
  k ≠ "rating" → k ≠ "review_count" → average_patch average rs !! k = None.
Proof.
  intros H1 H2. unfold average_patch. rewrite literal_lookup. cbn [assoc].
  destruct (String.eqb_spec "rating" k); [congruence|].
  destruct (String.eqb_spec "review_count" k); [congruence|]. done.
Qed.

Lemma aggregate_patch_rating rs :
  aggregate_patch rs !! "rating" = Some (written (Leaders.average rs)).
Proof. unfold aggregate_patch, average_patch. by rewrite literal_lookup. Qed.

Lemma aggregate_patch_count rs :
  aggregate_patch rs !! "review_count" = Some (VNat (length rs)).
Proof. unfold aggregate_patch, average_patch. by rewrite literal_lookup. Qed.

Lemma aggregate_patch_mean (rs : list obj) :
  literal [ ("rating",
             Some (json_number
                     (parseFloat_toFixed2 (Leaders.average (project ["rating"] <$> rs)))));
            ("review_count", Some (VNat (length (project ["rating"] <$> rs)))) ]
  = aggregate_patch rs.
Proof.
  unfold aggregate_patch, average_patch, written. by rewrite average_project, length_fmap.
Qed.

(** Recomputing the aggregate of unchanged ratings gives back the leader
    rows, whatever was written on them in between. *)
Lemma recompute_restores (s : Store) l (P1 : obj) :
  aggregate_ok s l →
  (∀ k, k ≠ "rating" → k ≠ "review_count" → P1 !! k = None) →
  patch_row (f_eq "id" (VStr l)) (aggregate_patch (ratingsOf s l))
    <$> (patch_row (f_eq "id" (VStr l)) P1 <$> rows s "leaders")
  = rows s "leaders".
Proof.
  intros Hok HP1. rewrite <- list_fmap_compose.
  rewrite <- (list_fmap_id (rows s "leaders")) at 2.
  apply list_fmap_ext. intros _ r Hr%list_elem_of_lookup_2. cbn.
  unfold patch_row at 2. destruct (f_eq "id" (VStr l) r) eqn:Hid.
  - unfold patch_row.
    assert (f_eq "id" (VStr l) (P1 ∪ r) = true) as ->.
    { unfold f_eq, column in *. rewrite union_lookup, HP1 by done. exact Hid. }
    destruct (Hok r Hr Hid) as [H1 H2].
    apply (aggregate_idempotent r P1 (aggregate_patch (ratingsOf s l))).
    + intros k ? ?. split; [by apply HP1|by apply (average_patch_other Leaders.average)].
    + by rewrite H1.
    + by rewrite H2.
    + rewrite H1. apply aggregate_patch_rating.
    + rewrite H2. apply aggregate_patch_count.
  - unfold patch_row. by rewrite Hid.
Qed.

(** A first rating on a store that reports no error. *)
Lemma submit_calm l u q c sb now (s : Store) :
  ratingBy s u l = [] →
  let new := ratingRow l u q sb (Some (VTime now)) now in
  let s1 := set_rows "ratings" (rows s "ratings" ++ [new])%list s in
  let s2 := if Leaders.has_text c
            then set_rows "comments"
                   (upsert_rows ["userId"; "leaderId"] (commentRow l u c now)
                      (rows s "comments")) s1
            else s1 in
  (Leaders.submitRatingAndComment l u q c sb now (calm s)).2
  = calm (set_rows "leaders"
            (patch_row (f_eq "id" (VStr l))
               (average_patch submitted_average (ratingsOf s1 l))
               <$> rows s "leaders") s2).
Proof.
  intros Hr new s1 s2. unfold calm.
  unfold Leaders.submitRatingAndComment, try_catch, bind, db_single.
  rewrite call_run. cbn [fault tail fst snd]. rewrite pkey_ratings.
  assert (query s "ratings" (columns ["rating"])
            (f_and (f_eq "userId" (VStr u)) (f_eq "leaderId" (VStr l))) unordered = []) as ->.
  { unfold query, unordered. rewrite omap_columns. unfold ratingBy, pair_is in Hr.
    by rewrite Hr. }
  cbn [fst snd data failed]. fold (ratingRow l u q sb (Some (VTime now)) now). fold new.
  unfold db_upsert at 1. rewrite call_run. cbn [fault fst snd foldl error fetched tail].
  unfold new at 1. rewrite upsert_rating_rows. fold new.
  unfold ratingBy in Hr. rewrite (filter_nil_existsb _ _ Hr). fold s1.
  assert (ratingsOf s1 l ≠ []) as Hne.
  { unfold ratingsOf, s1. rewrite rows_set_rows, List.filter_app. cbn [List.filter].
    replace (f_eq "leaderId" (VStr l) new) with true; [|].
    { intros H. apply (f_equal length) in H. rewrite length_app in H. simpl in H. lia. }
    symmetry. apply f_eq_str. unfold new, ratingRow. by rewrite literal_lookup. }
  unfold db_upsert, db_select, db_update. rewrite (pkey_ratings : pkey "comments" = _).
  fold (commentRow l u c now).
  assert (rows s1 "comments" = rows s "comments") as Hc1 by by apply rows_set_rows_ne.
  subst s2. destruct (Leaders.has_text c).
  all: exec; cbn [foldl]; rewrite ?Hc1.
  all: rewrite query_ratings, ?ratingsOf_frame by done.
  all: destruct (ratingsOf s1 l) as [|r rs] eqn:E; [done|].
  all: rewrite fmap_cons; exec; rewrite aggregate_literal, <- fmap_cons.
  all: unfold average_patch; rewrite submitted_average_project, length_fmap.
  all: repeat (rewrite rows_set_rows_ne by done).
  all: by replace (rows s1 "leaders") with (rows s "leaders")
         by (symmetry; by apply rows_set_rows_ne).
Qed.

Lemma deleteRating_calm u l (s : Store) :
  let s1 := set_rows "ratings"
              (List.filter (λ r, negb (pair_is u l r)) (rows s "ratings")) s in
  let s2 := set_rows "comments"
              (List.filter (λ r, negb (pair_is u l r)) (rows s "comments")) s1 in
  Leaders.deleteRating u l (calm s)
  = (Ok (), calm (set_rows "leaders"
                    (patch_row (f_eq "id" (VStr l)) (aggregate_patch (ratingsOf s1 l))
                       <$> rows s "leaders") s2)).
Proof.
  intros s1 s2. unfold calm, Leaders.deleteRating, bind, db_delete, db_select, db_update.
  fold (pair_is u l). exec.
  cbn [default from_option id]. rewrite query_ratings, ratingsOf_frame by done.
  rewrite aggregate_patch_mean. subst s2 s1.
  by repeat (rewrite rows_set_rows_ne by done).
Qed.

(** X8: on a store that reports no error, and whose leader row carries the
    aggregate of the stored ratings, rating a leader for the first time and
    then deleting that rating gives back every table: the ratings, the
    comments and the leader rows with their aggregate. *)
Theorem submit_then_deleteRating l u q c sb now (s : Store) :
  ratingBy s u l = [] → commentBy s u l = [] → aggregate_ok s l →
  let submitted := (Leaders.submitRatingAndComment l u q c sb now (calm s)).2 in
  let after := Leaders.deleteRating u l submitted in
  after.1 = Ok () ∧ ∀ t, rows (db after.2) t = rows s t.
Proof.
  intros Hr Hc Hok submitted after. subst submitted after.
  rewrite (submit_calm _ _ _ _ _ _ _ Hr), deleteRating_calm. cbn [fst snd db calm].
  split; [done|].
  set (new := ratingRow l u q sb (Some (VTime now)) now).
  set (s1 := set_rows "ratings" (rows s "ratings" ++ [new])%list s).
  set (s2 := if Leaders.has_text c then _ else s1).
  set (s3 := set_rows "leaders" _ s2).
  assert (List.filter (λ r, negb (pair_is u l r)) (rows s3 "ratings") = rows s "ratings")
    as Hdel.
  { assert (rows s3 "ratings" = (rows s "ratings" ++ [new])%list) as ->.
    { subst s3 s2. destruct (Leaders.has_text c);
        repeat (rewrite rows_set_rows_ne by done); apply rows_set_rows. }
    rewrite List.filter_app. cbn [List.filter]. unfold new. rewrite ratingRow_pair.
    cbn [negb]. rewrite app_nil_r. by apply filter_nil_not. }
  assert (List.filter (λ r, negb (pair_is u l r)) (rows s3 "comments") = rows s "comments")
    as Hdelc.
  { unfold commentBy in Hc. subst s3 s2. rewrite rows_set_rows_ne by done.
    destruct (Leaders.has_text c).
    - rewrite rows_set_rows, upsert_comment_rows, (filter_nil_existsb _ _ Hc).
      rewrite List.filter_app. cbn [List.filter].
      replace (pair_is u l (commentRow l u c now)) with true.
      + cbn [negb]. rewrite app_nil_r. by apply filter_nil_not.
      + symmetry. apply pair_is_spec. unfold commentRow. by rewrite !literal_lookup.
    - subst s1. rewrite rows_set_rows_ne by done. by apply filter_nil_not. }
  rewrite Hdel, Hdelc.
  assert (ratingsOf (set_rows "ratings" (rows s "ratings") s3) l = ratingsOf s l) as ->.
  { unfold ratingsOf. by rewrite rows_set_rows. }
  intros t.
  destruct (String.eqb_spec t "leaders") as [->|Hnl].
  { rewrite rows_set_rows. subst s3. rewrite rows_set_rows.
    apply recompute_restores; [done|]. apply average_patch_other. }
  rewrite rows_set_rows_ne by done.
  destruct (String.eqb_spec t "comments") as [->|Hnc]; [apply rows_set_rows|].
  rewrite rows_set_rows_ne by done.
  destruct (String.eqb_spec t "ratings") as [->|Hnr]; [apply rows_set_rows|].
  rewrite rows_set_rows_ne by done.
  subst s3 s2 s1. destruct (Leaders.has_text c);
    by repeat (rewrite rows_set_rows_ne by done).
Qed.

Lemma oneLeader_aggregate : aggregate_ok oneLeader "L".
Proof.
  intros r Hr _. unfold oneLeader in Hr. rewrite rows_set_rows in Hr.
  apply list_elem_of_singleton in Hr as ->.
  unfold ratingsOf, oneLeader. rewrite rows_set_rows_ne by done. rewrite rows_empty.
  unfold freshLeader. by rewrite !literal_lookup.
Qed.

Lemma submit_then_deleteRating_witness :
  ratingBy oneLeader "u" "L" = [] ∧ commentBy oneLeader "u" "L" = []
  ∧ aggregate_ok oneLeader "L"
  ∧ ∀ t,
      rows (db (Leaders.deleteRating "u" "L"
                  (Leaders.submitRatingAndComment "L" "u" 4 (Some "Good") None 1000
                     (calm oneLeader)).2).2) t
      = rows oneLeader t.
Proof.
  assert (ratingBy oneLeader "u" "L" = []) as H1.
  { unfold ratingBy, oneLeader. rewrite rows_set_rows_ne by done. by rewrite rows_empty. }
  assert (commentBy oneLeader "u" "L" = []) as H2.
  { unfold commentBy, oneLeader. rewrite rows_set_rows_ne by done. by rewrite rows_empty. }
  split; [exact H1|]. split; [exact H2|]. split; [exact oneLeader_aggregate|].
  exact (proj2 (submit_then_deleteRating "L" "u" 4 (Some "Good") None 1000 oneLeader
                  H1 H2 oneLeader_aggregate)).
Defined.

(** *** The aggregate stays within the scale *)

Lemma total_score_within (lo hi : Z) (rs : list obj) :
  Forall (whole_within lo hi) rs →
  (inject_Z lo * inject_Z (Z.of_nat (length rs)) <= total_score rs)%Q
  ∧ (total_score rs <= inject_Z hi * inject_Z (Z.of_nat (length rs)))%Q.
Proof.
  induction 1 as [|r rs (q & z & Hr & Hq & Hz) _ [IH1 IH2]].
  - cbn [total_score foldr length]. change (inject_Z (Z.of_nat 0)) with 0%Q. split; lra.
  - cbn [total_score foldr length]. fold (total_score rs).
    rewrite Nat2Z.inj_succ, <- Z.add_1_r, inject_Z_plus. change (inject_Z 1) with 1%Q.
    rewrite Hr. cbn [to_num]. rewrite Hq.
    assert (inject_Z lo <= inject_Z z)%Q by (rewrite <- Zle_Qle; lia).
    assert (inject_Z z <= inject_Z hi)%Q by (rewrite <- Zle_Qle; lia).
    split; lra.
Qed.

Lemma mean_within (lo hi : Z) (rs : list obj) :
  rs ≠ [] → Forall (whole_within lo hi) rs →
  (inject_Z lo <= mean rs)%Q ∧ (mean rs <= inject_Z hi)%Q.
Proof.
  intros Hne H. destruct (total_score_within lo hi rs H) as [H1 H2].
  destruct rs as [|r rs]; [done|]. unfold mean.
  set (n := inject_Z (Z.of_nat (length (r :: rs)))) in *.
  assert (0 < n)%Q as Hn.
  { subst n. change 0%Q with (inject_Z 0). rewrite <- Zlt_Qlt. simpl. lia. }
  split.
  - apply Qle_shift_div_l; [done|]. lra.
  - apply Qle_shift_div_r; [done|]. lra.
Qed.

Lemma upsert_whole lo hi l u q sb created now (rs : list obj) :
  (∃ z : Z, (q == inject_Z z)%Q ∧ (lo ≤ z ≤ hi)%Z) →
  Forall (whole_within lo hi) rs →
  Forall (whole_within lo hi)
    (upsert_rows ["userId"; "leaderId"] (ratingRow l u q sb created now) rs).
Proof.
  intros (z & Hq & Hz) H.
  assert (∀ r : obj, whole_within lo hi (ratingRow l u q sb created now ∪ r)) as Hnew.
  { intros r. exists q, z. split; [|done].
    rewrite union_lookup. unfold ratingRow. by rewrite literal_lookup. }
  rewrite upsert_rating_rows. destruct (List.existsb _ _).
  - apply Forall_fmap. eapply Forall_impl; [exact H|]. intros r Hr. cbn.
    unfold patch_row. destruct (pair_is u l r); [apply Hnew|done].
  - apply Forall_app. split; [done|]. constructor; [|constructor].
    exists q, z. split; [|done]. unfold ratingRow. by rewrite literal_lookup.
Qed.

Lemma upsert_length l u q sb created now (rs : list obj) :
  (length (upsert_rows ["userId"; "leaderId"] (ratingRow l u q sb created now) rs)
   ≤ length rs + 1)%nat.
Proof.
  rewrite upsert_rating_rows. destruct (List.existsb _ _).
  - rewrite length_fmap. lia.
  - rewrite length_app. simpl. lia.
Qed.

(** X9: if the stored scores and the submitted one are whole numbers
    between [lo] and [hi], and are few enough for their sum to stay well
    below [2^53], then the average that a submission writes on the leader
    row lies between [lo] and [hi]: neither the rounding of the division
    nor that to two decimals leaves the scale. *)
Theorem aggregate_within_scale (lo hi : Z) l u q c sb now (s : Store)
    (f1 f3 : bool) (rest : list bool) :
  Forall (whole_within lo hi) (rows s "ratings") →
  (∃ z : Z, (q == inject_Z z)%Q ∧ (lo ≤ z ≤ hi)%Z) →
  (200 * ((Z.of_nat (length (rows s "ratings")) + 1) * Z.max (Z.abs lo) (Z.abs hi))
   < 2 ^ 53)%Z →
  let after :=
    Leaders.submitRatingAndComment l u q c sb now
      {| db := s;
         faults := f1 :: false :: (if Leaders.has_text c then [f3] else [])
                      ++ false :: false :: rest |} in
  ∀ r : obj, r ∈ rows (db after.2) "leaders" → f_eq "id" (VStr l) r = true →
    scored lo hi r.
Proof.
  intros Hall Hq Hbound after r Hr Hid. subst after.
  destruct (submit_aggregate l u q c sb now s f1 f3 rest) as (res & s' & fs' & Hrun & Hok).
  destruct (submit_tables l u q c sb now s f1
              ((if Leaders.has_text c then [f3] else []) ++ false :: false :: rest))
    as (res' & w' & Hrun' & Hrows & _).
  rewrite Hrun in Hrun', Hr. injection Hrun' as _ <-. cbn [snd db] in *.
  destruct (Hok r Hr Hid) as [Hrating _].
  set (rs := ratingsOf s' l) in *.
  assert (rs ≠ []) as Hne.
  { unfold rs, ratingsOf. rewrite Hrows. apply upsert_nonempty. }
  assert (Forall (whole_within lo hi) rs) as Hsc.
  { unfold rs, ratingsOf. rewrite Hrows. apply Forall_forall. intros x [Hx _]%filter_elem.
    revert x Hx. apply Forall_forall. by apply upsert_whole. }
  assert (length rs ≤ length (rows s "ratings") + 1)%nat as Hlen.
  { unfold rs, ratingsOf. rewrite Hrows.
    etransitivity; [apply List.filter_length_le|apply upsert_length]. }
  set (B := Z.max (Z.abs lo) (Z.abs hi)) in *.
  assert (0 ≤ B)%Z as HB by lia.
  assert (Forall (whole_score B) rs) as Hwhole.
  { eapply Forall_impl; [exact Hsc|]. intros x (q' & z & ? & ? & ?).
    exists q', z. split; [done|]. split; [done|]. lia. }
  assert (Z.of_nat (length rs) * B ≤ (Z.of_nat (length (rows s "ratings")) + 1) * B)%Z
    as Hmono by (apply Z.mul_le_mono_nonneg_r; lia).
  destruct (average_whole B rs Hwhole) as [(k & x & Hv & Hx & Hnear) Hsame]; [lia|].
  rewrite (Hsame Hne), Hv in Hrating.
  destruct (mean_within lo hi rs Hne Hsc) as [M1 M2].
  apply Qabs_Qle_condition in Hnear as [N1 N2].
  unfold Qdiv in N1, N2. change (/ 100)%Q with (1 # 100)%Q in N1, N2.
  assert (100 * lo ≤ k ≤ 100 * hi)%Z as Hk.
  { assert (inject_Z (100 * lo - 1) < inject_Z k)%Q as K1.
    { replace (100 * lo - 1)%Z with (100 * lo + -1)%Z by lia.
      rewrite inject_Z_plus, inject_Z_mult. change (inject_Z 100) with 100%Q.
      change (inject_Z (-1)) with (-1)%Q. lra. }
    assert (inject_Z k < inject_Z (100 * hi + 1))%Q as K2.
    { rewrite inject_Z_plus, inject_Z_mult. change (inject_Z 100) with 100%Q.
      change (inject_Z 1) with 1%Q. lra. }
    rewrite <- Zlt_Qlt in K1, K2. lia. }
  assert (200 * 1 * B ≤ 200 * ((Z.of_nat (length (rows s "ratings")) + 1) * B))%Z
    by (rewrite <- Z.mul_assoc; apply Z.mul_le_mono_nonneg_l; [lia|];
        apply Z.mul_le_mono_nonneg_r; lia).
  destruct (hundredths_within lo hi k x Hk) as [X1 X2]; [lia|done|].
  by exists x.
Qed.

Lemma ratedTwice_whole : Forall (whole_within 1 5) (rows ratedTwice "ratings").
Proof.
  unfold ratedTwice. rewrite rows_set_rows.
  constructor; [|constructor; [|constructor]].
  - exists 3%Q, 3%Z. split; [unfold ratingRow; by rewrite literal_lookup|].
    split; [reflexivity|lia].
  - exists 4%Q, 4%Z. split; [unfold ratingRow; by rewrite literal_lookup|].
    split; [reflexivity|lia].
Qed.

(** Leader "L" has a 3 and a 4 and gets a 5: the average written, 4, is on
    the scale from 1 to 5. *)
Lemma aggregate_within_scale_witness :
  Forall (whole_within 1 5) (rows ratedTwice "ratings")
  ∧ (∃ z : Z, (5 == inject_Z z)%Q ∧ (1 ≤ z ≤ 5)%Z)
  ∧ (200 * ((Z.of_nat (length (rows ratedTwice "ratings")) + 1)
            * Z.max (Z.abs 1) (Z.abs 5)) < 2 ^ 53)%Z
  ∧ ∀ r : obj,
      r ∈ rows (db (Leaders.submitRatingAndComment "L" "u" 5 None None 1000
                      {| db := ratedTwice;
                         faults := [false; false; false; false] |}).2) "leaders" →
      f_eq "id" (VStr "L") r = true → scored 1 5 r.
Proof.
  assert (∃ z : Z, (5 == inject_Z z)%Q ∧ (1 ≤ z ≤ 5)%Z) as H1
    by (exists 5%Z; split; [reflexivity|lia]).
  assert (200 * ((Z.of_nat (length (rows ratedTwice "ratings")) + 1)
                 * Z.max (Z.abs 1) (Z.abs 5)) < 2 ^ 53)%Z as H2.
  { unfold ratedTwice. rewrite rows_set_rows. cbn [length]. lia. }
  split; [exact ratedTwice_whole|]. split; [exact H1|]. split; [exact H2|].
  exact (aggregate_within_scale 1 5 "L" "u" 5 None None 1000 ratedTwice false false []
           ratedTwice_whole H1 H2).
Defined.

(** In that example the row ends up with the average 4 of three ratings. *)
Lemma ratedTwice_run :
  let after := Leaders.submitRatingAndComment "L" "u" 5 None None 1000 (calm ratedTwice) in
  List.map (λ r : obj, f_eq "rating" (VNum 4) r && f_eq "review_count" (VNat 3) r)
    (rows (db after.2) "leaders") = [true].
Proof. vm_compute. reflexivity. Qed.

End Ratings.

(** * Distributions and counts *)

Section Distributions.

Lemma bump_total {K} (eqb : K → K → bool) (k : K) (d : list (K * nat)) :
  foldr (λ x acc, (x.2 + acc)%nat) 0%nat (bump eqb k d)
  = S (foldr (λ x acc, (x.2 + acc)%nat) 0%nat d).
Proof.
  induction d as [|[k' n] d IH]; [done|]. simpl.
  destruct (eqb k' k); simpl; [lia|]. rewrite IH. lia.
Qed.

Lemma bump_positive {K} (eqb : K → K → bool) (k : K) (d : list (K * nat)) :
  Forall (λ x, (1 ≤ x.2)%nat) d → Forall (λ x, (1 ≤ x.2)%nat) (bump eqb k d).
Proof.
  induction 1 as [|[k' n] d Hn Hd IH]; simpl.
  - constructor; [simpl; lia|constructor].
  - simpl in Hn. destruct (eqb k' k); constructor; simpl; auto with lia.
Qed.



Lemma Sorted_weaken {A} (R R' : A → A → Prop) (l : list A) :
  (∀ a b, R a b → R' a b) → Sorted R l → Sorted R' l.
Proof.
  intros H. induction 1 as [|x l _ IH Hhd]; constructor; [done|].
  destruct Hhd; constructor; auto.
Qed.

Lemma ratingsCounted_perm d d' : d ≡ₚ d' → ratingsCounted d = ratingsCounted d'.
Proof.
  unfold ratingsCounted. induction 1; simpl; lia.
Qed.


(** X10: when the store answers, the counts that [getRatingDistribution]
    returns add up to the number of ratings stored for the leader, no entry
    has the count 0, and the entries come with the highest score first. *)
Theorem getRatingDistribution_accounts l (s : Store) (fs : list bool) :
  let dist := result [] (Leaders.getRatingDistribution l {| db := s; faults := false :: fs |}).1 in
  ratingsCounted dist = length (ratingsOf s l)
  ∧ Forall (λ x, (1 ≤ Leaders.rd_count x)%nat) dist
  ∧ Sorted (λ a b, (Leaders.rd_rating b ≤ Leaders.rd_rating a)%Z) dist.
Proof.
  intros dist. subst dist. unfold Leaders.getRatingDistribution, bind, db_select.
  exec. cbn [result default from_option id]. rewrite query_ratings.
  set (rs := project ["rating"] <$> ratingsOf s l).
  replace (length (ratingsOf s l)) with (length rs) by apply length_fmap.
  set (step := λ d (r : obj), bump Qeq_bool (to_num (r !! "rating")) d).
  set (conv := λ '(rating, count),
         {| Leaders.rd_rating := Leaders.parseInt rating; Leaders.rd_count := count |}).
  assert (∀ d, ratingsCounted (conv <$> d) = foldr (λ x acc, (x.2 + acc)%nat) 0%nat d) as Hconv.
  { induction d as [|[k n] d IH]; [done|]. cbn. unfold ratingsCounted in IH. by rewrite IH. }
  assert (∀ (rs : list obj) d,
            foldr (λ x acc, (x.2 + acc)%nat) 0%nat (foldl step d rs)
            = (length rs + foldr (λ x acc, (x.2 + acc)%nat) 0%nat d)%nat) as Hsum.
  { clear rs. induction rs as [|r rs' IH]; intros d; [done|]. cbn [foldl length].
    rewrite IH. unfold step. rewrite bump_total. lia. }
  assert (∀ (rs : list obj) d, Forall (λ x, (1 ≤ x.2)%nat) d →
               Forall (λ x, (1 ≤ x.2)%nat) (foldl step d rs)) as Hpos.
  { clear. induction rs as [|r rs' IH]; intros d Hd; [done|]. cbn [foldl].
    apply IH. by apply bump_positive. }
  split; [|split].
  - rewrite (ratingsCounted_perm _ _ (sort_by_perm _ _)), Hconv, Hsum. simpl. lia.
  - apply sort_by_Forall, Forall_fmap.
    eapply Forall_impl; [apply Hpos; constructor|]. by intros [k n].
  - eapply Sorted_weaken; [|apply sort_by_sorted].
    + intros a b H. by apply Z.leb_le in H.
    + intros a b. rewrite !Z.leb_le. lia.
Qed.


Lemma omap_length_le {A B} (f : A → option B) (l : list A) :
  (length (omap f l) ≤ length l)%nat.
Proof.
  induction l as [|x l IH]; [done|]. cbn [omap list_omap length].
  destruct (f x); cbn [length]; fold (omap f l); lia.
Qed.

Lemma between_open c (a b : option Z) : a = None ∨ b = None → between c a b = f_all.
Proof. intros [-> | ->]; [done|]. by destruct a. Qed.

(** X12: when the store answers, [getLeaderCount] and [getRatingCount]
    without filters give the number of stored leaders and ratings, and no
    filter makes them larger.  A date range of which only one end is given
    is ignored by both. *)
Theorem counts_and_filters (s : Store) (fs : list bool) (f : Leaders.Filters) :
  let leaders flt :=
    result 0%nat (Leaders.getLeaderCount flt {| db := s; faults := false :: fs |}).1 in
  let ratings flt :=
    result 0%nat (Leaders.getRatingCount flt {| db := s; faults := false :: fs |}).1 in
  leaders None = length (rows s "leaders")
  ∧ ratings None = length (rows s "ratings")
  ∧ (leaders (Some f) ≤ leaders None)%nat
  ∧ (ratings (Some f) ≤ ratings None)%nat
  ∧ (Leaders.startDate f = None ∨ Leaders.endDate f = None →
     leaders (Some f) = leaders (Some (undated f))
     ∧ ratings (Some f) = ratings (Some (undated f))).
Proof.
  intros leaders ratings. subst leaders ratings.
  unfold Leaders.getLeaderCount, Leaders.getRatingCount, bind, db_count.
  rewrite !call_run. cbn [fault fst snd error data fetched ret result default from_option id].
  unfold query, unordered. rewrite !omap_star. cbn [Leaders.leaderFilter List.filter].
  assert (∀ l : list obj, List.filter f_all l = l) as Hall.
  { induction l as [|x l IH]; [done|]. cbn. by rewrite IH. }
  rewrite !Hall. conjuncts; try done.
  - apply filter_length_le.
  - etrans; [apply omap_length_le|]. apply filter_length_le.
  - intros Hopen. unfold undated, Leaders.leaderFilter.
    cbn [Leaders.startDate Leaders.endDate Leaders.state Leaders.f_constituency].
    rewrite !(between_open _ _ _ Hopen). split; [reflexivity|]. by rewrite Hall.
Qed.

End Distributions.

(** * Settings: the two stores, partial updates, round trips *)

Section SettingsStores.

Lemma same_key_keyed (new r : obj) k :
  new !! "key" = Some (VStr k) → same_key ["key"] new r = f_eq "key" (VStr k) r.
Proof.
  intros H. unfold same_key, f_eq, column. cbn [List.forallb]. rewrite H, andb_true_r.
  destruct (r !! "key") as [[]|]; try done. cbn. apply String.eqb_sym.
Qed.

(** After an upsert on [key], the last row with that key carries the new
    value. *)
Lemma upsert_keyed (new : obj) k x (rs : list obj) :
  new !! "key" = Some (VStr k) → new !! "value" = Some x →
  ∃ r, last (List.filter (f_eq "key" (VStr k)) (upsert_rows ["key"] new rs)) = Some r
       ∧ r !! "value" = Some x.
Proof.
  intros Hk Hv. unfold upsert_rows.
  rewrite (existsb_pointwise _ _ rs (λ r, same_key_keyed new r k Hk)).
  destruct (List.existsb (f_eq "key" (VStr k)) rs) eqn:E.
  - assert (∀ r : obj, f_eq "key" (VStr k) (patch_row (same_key ["key"] new) new r)
                       = f_eq "key" (VStr k) r) as Hsame.
    { intros r. unfold patch_row. rewrite (same_key_keyed new r k Hk).
      destruct (f_eq "key" (VStr k) r) eqn:Er; [|done].
      apply f_eq_str. by rewrite union_lookup, Hk. }
    rewrite filter_fmap_same by done. rewrite fmap_last.
    destruct (last (List.filter (f_eq "key" (VStr k)) rs)) as [r|] eqn:El.
    + eexists. split; [reflexivity|].
      assert (f_eq "key" (VStr k) r = true) as Hr.
      { apply last_Some_elem_of, filter_elem in El. tauto. }
      unfold patch_row. rewrite (same_key_keyed new r k Hk), Hr.
      by rewrite union_lookup, Hv.
    + apply last_None in El. by apply existsb_true_filter in E.
  - rewrite List.filter_app, (existsb_false_filter _ _ E). cbn [List.filter app].
    replace (f_eq "key" (VStr k) new) with true by (symmetry; by apply f_eq_str).
    by exists new.
Qed.

Lemma updateEach_cons k v rest (s : Store) fs :
  Settings.updateEach ((k, v) :: rest) {| db := s; faults := fs |}
  = if fault fs
    then (Throw ("Failed to update setting: " +:+ k), {| db := s; faults := tail fs |})
    else Settings.updateEach rest
           {| db := set_rows "settings"
                      (upsert_rows ["key"] (settingRow k v) (rows s "settings")) s;
              faults := tail fs |}.
Proof.
  cbn [Settings.updateEach]. unfold bind, db_upsert. rewrite call_run.
  by destruct (fault fs).
Qed.

(** X13: [updateSettings] is not one transaction.  When the upsert of an
    entry fails, it throws naming that entry's key; the entries before it
    are stored, exactly as if they alone had been submitted, and the entries
    after it are not looked at. *)
Theorem updateSettings_stops_at_first_error done k v rest (s : Store) (fs : list bool) :
  Settings.updateSettings (done ++ (k, v) :: rest)
    {| db := s; faults := calm_for (length done) (true :: fs) |}
  = (Throw ("Failed to update setting: " +:+ k),
     {| db := db (Settings.updateSettings done
                    {| db := s; faults := calm_for (length done) [] |}).2;
        faults := fs |}).
Proof.
  unfold Settings.updateSettings, calm_for. revert s.
  induction done as [|[k' v'] done IH]; intros s.
  - cbn [app length replicate]. by rewrite updateEach_cons.
  - cbn [app length replicate]. rewrite !updateEach_cons. cbn [fault tail]. apply IH.
Qed.

Lemma updateEach_other_tables us (w : World) t :
  t ≠ "settings" → rows (db (Settings.updateEach us w).2) t = rows (db w) t.
Proof.
  intros Ht. revert w. induction us as [|[k v] us IH]; intros [s fs]; [done|].
  rewrite updateEach_cons. destruct (fault fs); [done|].
  rewrite IH. cbn [db]. by rewrite rows_set_rows_ne.
Qed.

Lemma updateSiteSettings_other_tables us (w : World) t :
  t ≠ "site_settings" → rows (db (Settings.updateSiteSettings us w).2) t = rows (db w) t.
Proof.
  intros Ht. destruct w as [s fs]. unfold Settings.updateSiteSettings, try_catch, bind, db_upsert.
  exec; cbn [db]; [done|]. by rewrite rows_set_rows_ne.
Qed.

Lemma getSettings_reads_settings (s s' : Store) fs :
  rows s "settings" = rows s' "settings" →
  (Settings.getSettings {| db := s; faults := fs |}).1
  = (Settings.getSettings {| db := s'; faults := fs |}).1.
Proof.
  intros H. unfold Settings.getSettings, bind, db_select. exec; [done|].
  unfold query. by rewrite H.
Qed.

Lemma isMaintenanceActive_reads_settings now (s s' : Store) fs :
  rows s "settings" = rows s' "settings" →
  (Settings.isMaintenanceActive now {| db := s; faults := fs |}).1
  = (Settings.isMaintenanceActive now {| db := s'; faults := fs |}).1.
Proof.
  intros H. pose proof (getSettings_reads_settings s s' fs H) as Hg.
  unfold Settings.isMaintenanceActive, bind.
  destruct (getSettings_run s fs) as (st & E), (getSettings_run s' fs) as (st' & E').
  rewrite E, E' in *. cbn [fst] in Hg. injection Hg as <-.
  repeat match goal with |- context [if ?b then _ else _] => destruct b end; done.
Qed.

(** X14: the two settings stores are separate.  Whatever
    [updateSiteSettings] is given and whatever the store reports, what
    [getSettings] and [isMaintenanceActive] return afterwards is what they
    would have returned before; and whatever [updateSettings] is given, what
    [getSiteSettings] returns is not changed by it. *)
Theorem settings_stores_are_separate us now (w : World) (fs : list bool) :
  let site := db (Settings.updateSiteSettings us w).2 in
  let plain := db (Settings.updateSettings us w).2 in
  (Settings.getSettings {| db := site; faults := fs |}).1
  = (Settings.getSettings {| db := db w; faults := fs |}).1
  ∧ (Settings.isMaintenanceActive now {| db := site; faults := fs |}).1
    = (Settings.isMaintenanceActive now {| db := db w; faults := fs |}).1
  ∧ (Settings.getSiteSettings {| db := plain; faults := fs |}).1
    = (Settings.getSiteSettings {| db := db w; faults := fs |}).1.
Proof.
  intros site plain. subst site plain. conjuncts.
  - apply getSettings_reads_settings. by apply updateSiteSettings_other_tables.
  - apply isMaintenanceActive_reads_settings. by apply updateSiteSettings_other_tables.
  - unfold Settings.updateSettings.
    pose proof (updateEach_other_tables us w "site_settings") as H.
    unfold Settings.getSiteSettings, try_catch, bind, db_select. exec; [done|].
    unfold query. by rewrite H.
Qed.

(** X15: once [updateSettings] has stored a value other than 'true' for
    [maintenance_active] (or none at all), [isMaintenanceActive] answers
    false, whatever window is stored; once it has stored 'true',
    [getSettings] reads 'true' back. *)
Theorem maintenance_switch v now (s : Store) (fs : list bool) :
  let after := Settings.updateSettings [("maintenance_active", v)] (calm2 s fs) in
  after.1 = Ok ()
  ∧ (v ≠ Some (Text "true") → (Settings.isMaintenanceActive now after.2).1 = Ok false)
  ∧ (v = Some (Text "true") →
     ∃ settings, (Settings.getSettings after.2).1 = Ok settings
                 ∧ Settings.maintenance_active settings = Some (VStr "true")).
Proof.
  intros after. subst after. unfold Settings.updateSettings, calm2.
  rewrite updateEach_cons. cbn [fault tail Settings.updateEach ret fst snd].
  split; [done|].
  set (s1 := set_rows "settings" _ s).
  assert (read (assign_rows (query s1 "settings" (columns ["key"; "value"]) f_all unordered))
            "maintenance_active" = Some (Settings.toStringOrNull v)) as Hread.
  { rewrite read_settings. unfold s1. rewrite rows_set_rows.
    destruct (upsert_keyed (settingRow "maintenance_active" v) "maintenance_active"
                (Settings.toStringOrNull v) (rows s "settings")) as (r & -> & Hr).
    - unfold settingRow. by rewrite literal_lookup.
    - unfold settingRow. by rewrite literal_lookup.
    - done. }
  split.
  - intros Hv. unfold Settings.isMaintenanceActive, Settings.getSettings, bind, db_select.
    exec. cbn [default from_option id Settings.maintenance_active]. rewrite Hread.
    unfold Settings.toStringOrNull.
    destruct v as [[x|t]|]; [| |done].
    + destruct (String.eqb_spec x ""); [done|].
      unfold js_or. cbn [truthy]. destruct (String.eqb_spec x ""); [done|].
      cbn [negb is_string].
      destruct (String.eqb_spec x "true"); [congruence|done].
    + done.
  - intros ->. unfold Settings.getSettings, bind, db_select. exec.
    eexists. split; [reflexivity|].
    cbn [default from_option id Settings.maintenance_active]. by rewrite Hread.
Qed.

(** The value stored for a key after an upsert of a setting. *)
Lemma stored_after_upsert k' v k (s : Store) :
  stored_setting
    (set_rows "settings" (upsert_rows ["key"] (settingRow k' v) (rows s "settings")) s) k
  = if String.eqb k k' then Some (Settings.toStringOrNull v) else stored_setting s k.
Proof.
  unfold stored_setting. rewrite rows_set_rows.
  assert (settingRow k' v !! "key" = Some (VStr k')) as Hk
    by (unfold settingRow; by rewrite literal_lookup).
  destruct (String.eqb_spec k k') as [->|Hne].
  - destruct (upsert_keyed (settingRow k' v) k' (Settings.toStringOrNull v)
                (rows s "settings")) as (r & -> & Hr); [done| |done].
    unfold settingRow. by rewrite literal_lookup.
  - f_equal. f_equal. unfold upsert_rows.
    assert (f_eq "key" (VStr k) (settingRow k' v) = false) as Hnew.
    { apply not_true_is_false. intros E%f_eq_str. congruence. }
    destruct (List.existsb _ _).
    + induction (rows s "settings") as [|r rs IH]; [done|].
      rewrite fmap_cons. cbn [List.filter]. rewrite IH.
      unfold patch_row. rewrite (same_key_keyed _ r k' Hk).
      destruct (f_eq "key" (VStr k') r) eqn:E; [|done].
      apply f_eq_str in E.
      assert (f_eq "key" (VStr k) r = false) as ->
        by (apply not_true_is_false; intros E'%f_eq_str; congruence).
      assert (f_eq "key" (VStr k) (settingRow k' v ∪ r) = false) as ->; [|done].
      apply not_true_is_false. intros E'%f_eq_str.
      rewrite union_lookup, Hk in E'. congruence.
    + rewrite List.filter_app. cbn [List.filter]. rewrite Hnew. apply app_nil_r.
Qed.

(** A window that [updateSettings] has written is the one
    [isMaintenanceActive] goes by. *)
Lemma maintenance_window_written a b now (s : Store) (fs : list bool) :
  let after :=
    Settings.updateSettings
      [ ("maintenance_active", Some (Text "true"));
        ("maintenance_start", Some (Stamp a));
        ("maintenance_end", Some (Stamp b)) ]
      (calm3 s (false :: fs)) in
  after.1 = Ok ()
  ∧ (Settings.isMaintenanceActive now after.2).1 = Ok ((a <=? now)%Z && (now <=? b)%Z).
Proof.
  intros after. subst after. unfold Settings.updateSettings, calm3.
  rewrite !updateEach_cons. cbn [fault tail Settings.updateEach ret fst snd].
  split; [done|].
  set (s1 := set_rows "settings" _ s). set (s2 := set_rows "settings" _ s1).
  set (s3 := set_rows "settings" _ s2).
  destruct (maintenance_decided now s3 (false :: fs)) as (active & -> & Hiff).
  cbn [fst]. f_equal.
  assert (maintenance_due s3 now ↔ (a ≤ now)%Z ∧ (now ≤ b)%Z) as Hdue.
  { unfold maintenance_due, s3, s2, s1. rewrite !stored_after_upsert.
    cbn [String.eqb Ascii.eqb Bool.eqb Settings.toStringOrNull]. split.
    - intros (_ & Ha & Hb). split; [by apply Ha|by apply Hb].
    - intros [Ha Hb]. split; [done|]. split; by intros ? [= <-]. }
  destruct active.
  - destruct Hiff as [Hiff _]. destruct (Hiff eq_refl) as [_ [Ha Hb]%Hdue].
    symmetry. apply andb_true_iff. split; by apply Z.leb_le.
  - symmetry. apply not_true_is_false. intros [Ha%Z.leb_le Hb%Z.leb_le]%andb_true_iff.
    destruct Hiff as [_ Hiff]. discriminate Hiff. split; [done|]. by apply Hdue.
Qed.

(** X16: [updateSiteSettings] stores the text of each value, so that an
    entry given as null is then read back by [getSiteSettings] as the text
    'null', not as null and not as the default. *)
Theorem updateSiteSettings_then_get k v (s : Store) (fs : list bool) :
  let after := Settings.updateSiteSettings [(k, v)] (calm2 s fs) in
  after.1 = Ok ()
  ∧ ∃ settings, (Settings.getSiteSettings after.2).1 = Ok settings
                ∧ settings !! k
                  = Some (match v with Some x => string_value x | None => VStr "null" end).
Proof.
  intros after. subst after. unfold Settings.updateSiteSettings, try_catch, bind, db_upsert, calm2.
  exec. cbn [fmap list_fmap foldl]. split; [done|].
  fold (siteSettingRow k v).
  set (s1 := set_rows "site_settings" _ s).
  unfold Settings.getSiteSettings, try_catch, bind, db_select. exec.
  eexists. split; [reflexivity|]. cbn [default from_option id].
  unfold spread. rewrite lookup_merge.
  rewrite lookup_settings. unfold s1. rewrite rows_set_rows.
  destruct (upsert_keyed (siteSettingRow k v) k (Settings.String_ v)
              (rows s "site_settings")) as (r & -> & Hr).
  - unfold siteSettingRow. by rewrite literal_lookup.
  - unfold siteSettingRow. by rewrite literal_lookup.
  - cbn [fmap option_fmap option_map]. rewrite Hr. unfold diag_None, Settings.String_.
    by destruct (Settings.defaultSettings !! k), v.
Qed.

End SettingsStores.

(** * Notifications *)

Section NotificationLifecycle.

Lemma value_leb_time (a b : Z) : value_leb (VTime a) (VTime b) = true ↔ (a ≤ b)%Z.
Proof.
  unfold value_leb. cbn. rewrite orb_true_iff, Z.ltb_lt, Z.eqb_eq. lia.
Qed.

Lemma active_filter_new d now now' :
  f_and (f_eq "is_active" (VBool true))
    (f_and (f_or (f_is_null "start_time") (f_lte "start_time" (VTime now')))
           (f_or (f_is_null "end_time") (f_gte "end_time" (VTime now'))))
    (notificationRow d now) = true
  ↔ shown d now'.
Proof.
  unfold f_and, f_or, f_eq, f_is_null, f_lte, f_gte, column, notificationRow, shown.
  rewrite !literal_lookup. cbn [assoc String.eqb Ascii.eqb Bool.eqb value_eqb].
  rewrite !andb_true_iff, Bool.eqb_true_iff.
  destruct (Notifications.p_startTime d) as [a|], (Notifications.p_endTime d) as [b|];
    cbn [Notifications.time_or_null orb]; rewrite ?value_leb_time;
    split; intros (? & H1 & H2); repeat split; try done;
    try (intros t [= <-]; done); try (by apply H1); by apply H2.
Qed.

Lemma notificationRow_id d now : f_eq "id" (VStr (time_id now)) (notificationRow d now) = true.
Proof. apply f_eq_str. unfold notificationRow. by rewrite literal_lookup. Qed.

(** X17: a notification added under an id that no stored notification has
    is then listed by [getNotifications]; [getActiveNotifications] lists it
    at a moment exactly if it is switched on and the moment lies in its
    window; and once [deleteNotification] is called with its id it is listed
    no longer. *)
Theorem addNotification_lifecycle d now now' (s : Store) :
  notificationsWith s (time_id now) = [] →
  let added := Notifications.addNotification d now (calm s) in
  ∃ n, added.1 = Ok n
    ∧ n ∈ result [] (Notifications.getNotifications added.2).1
    ∧ (n ∈ result [] (Notifications.getActiveNotifications now' added.2).1 ↔ shown d now')
    ∧ n ∉ result []
            (Notifications.getNotifications
               (Notifications.deleteNotification (time_id now) added.2).2).1.
Proof.
  intros Hfresh added. subst added. unfold calm.
  unfold Notifications.addNotification, bind, db_insert. exec.
  fold (notificationRow d now). set (new := notificationRow d now).
  set (n := {| Notifications.id := _ |}).
  assert (n = Notifications.dbToNotification new) as Hn.
  { subst n new. unfold Notifications.dbToNotification, notificationRow.
    by rewrite !literal_lookup. }
  assert (∀ r : obj, r ∈ rows s "notifications" → Notifications.dbToNotification r ≠ n) as Hold.
  { intros r Hr Heq. assert (r ∈ notificationsWith s (time_id now)) as Hin.
    { apply filter_elem. split; [done|]. apply f_eq_str.
      apply (f_equal Notifications.id) in Heq. exact Heq. }
    rewrite Hfresh in Hin. by apply elem_of_nil in Hin. }
  exists n. split; [done|].
  unfold Notifications.getNotifications, Notifications.getActiveNotifications,
    Notifications.deleteNotification, bind, db_select, db_delete. exec.
  cbn [result default from_option id]. unfold query. rewrite !omap_star.
  repeat (rewrite rows_set_rows). conjuncts.
  - apply list_elem_of_fmap. exists new. split; [done|].
    apply sort_by_elem, filter_elem. split; [|done]. apply elem_of_app. right. left.
  - rewrite <- (active_filter_new d now now'). fold new.
    rewrite list_elem_of_fmap. split.
    + intros (r & Hr & [Hin Hp]%sort_by_elem%filter_elem).
      apply elem_of_app in Hin as [Hin|Hin%list_elem_of_singleton]; [|by subst r].
      by destruct (Hold r Hin).
    + intros Hp. exists new. split; [done|]. apply sort_by_elem, filter_elem.
      split; [|done]. apply elem_of_app. right. left.
  - rewrite list_elem_of_fmap. intros (r & Hr & [[Hin Hp]%filter_elem _]%sort_by_elem%filter_elem).
    apply elem_of_app in Hin as [Hin|Hin%list_elem_of_singleton].
    + by destruct (Hold r Hin).
    + subst r. unfold new in Hp. by rewrite notificationRow_id in Hp.
Qed.

Lemma addNotification_lifecycle_witness :
  notificationsWith ∅ (time_id 5) = []
  ∧ ∃ n, (Notifications.addNotification someNotification 5 (calm ∅)).1 = Ok n
      ∧ (n ∈ result []
               (Notifications.getActiveNotifications 20
                  (Notifications.addNotification someNotification 5 (calm ∅)).2).1
         ↔ shown someNotification 20).
Proof.
  assert (notificationsWith ∅ (time_id 5) = []) as H.
  { unfold notificationsWith. by rewrite rows_empty. }
  split; [exact H|].
  destruct (addNotification_lifecycle someNotification 5 20 ∅ H) as (n & H1 & _ & H2 & _).
  by exists n.
Defined.

Lemma notificationPatch_other d k :
  k = "id" ∨ k = "created_at" → notificationPatch d !! k = None.
Proof. intros [-> | ->]; unfold notificationPatch; by rewrite literal_lookup. Qed.

(** X18: [updateNotification] returns the updated notification only if
    exactly one notification has the id: its message, window, switch and
    link are then the submitted ones, its id and creation time the stored
    ones.  Otherwise it throws, after an update that, if no notification has
    the id, has changed nothing. *)
Theorem updateNotification_result nid d (s : Store) (fs : list bool) :
  let run := Notifications.updateNotification nid d (calm2 s fs) in
  (∀ r, notificationsWith s nid = [r] →
     ∃ n, run.1 = Ok n
       ∧ Notifications.message n = Some (VStr (Notifications.p_message d))
       ∧ Notifications.startTime n
         = Some (Notifications.time_or_null (Notifications.p_startTime d))
       ∧ Notifications.endTime n
         = Some (Notifications.time_or_null (Notifications.p_endTime d))
       ∧ Notifications.isActive n = Some (VBool (Notifications.p_isActive d))
       ∧ Notifications.link n = Some (nullable (Notifications.p_link d))
       ∧ Notifications.id n = Some (VStr nid)
       ∧ Notifications.createdAt n = r !! "created_at")
  ∧ (length (notificationsWith s nid) ≠ 1%nat →
     run.1 = Throw "Failed to fetch updated notification")
  ∧ (notificationsWith s nid = [] →
     rows (db run.2) "notifications" = rows s "notifications").
Proof.
  intros run. subst run. unfold calm2.
  unfold Notifications.updateNotification, bind, db_update, db_single. exec.
  fold (notificationPatch d). unfold query, unordered. rewrite omap_star, rows_set_rows.
  rewrite filter_patched by (by apply notificationPatch_other; left).
  fold (notificationsWith s nid).
  conjuncts.
  - intros r Hr.
    assert (r ∈ notificationsWith s nid) as [_ Hid%f_eq_str]%filter_elem
      by (rewrite Hr; left).
    rewrite Hr. cbn [fmap list_fmap]. exec. eexists. split; [reflexivity|].
    cbn [default from_option id]. unfold Notifications.dbToNotification.
    cbn [Notifications.message Notifications.startTime Notifications.endTime
         Notifications.isActive Notifications.link Notifications.id Notifications.createdAt].
    rewrite !union_lookup. unfold notificationPatch. rewrite !literal_lookup.
    cbn [assoc String.eqb Ascii.eqb Bool.eqb].
    by rewrite Hid.
  - intros Hlen. destruct (notificationsWith s nid) as [|r [|r' rs]]; try done.
  - intros Hnil. rewrite Hnil. cbn [fmap list_fmap]. exec. cbn [db].
    rewrite rows_set_rows. by apply patch_row_none.
Qed.

End NotificationLifecycle.

(** * Polls *)

Section PollResponses.

Lemma responseRow_by p u now :
  f_and (f_eq "poll_id" (VStr p)) (f_eq "user_id" (VStr u)) (responseRow p u now) = true.
Proof.
  unfold f_and. apply andb_true_iff. split; apply f_eq_str; unfold responseRow;
    by rewrite literal_lookup.
Qed.

Lemma query_responses (s : Store) p u :
  query s "poll_responses" (columns ["id"])
    (f_and (f_eq "poll_id" (VStr p)) (f_eq "user_id" (VStr u))) unordered
  = project ["id"] <$> responsesBy s p u.
Proof. unfold query, unordered, responsesBy. apply omap_columns. Qed.

Lemma responsesBy_insert (s : Store) p u now :
  responsesBy (set_rows "poll_responses" (rows s "poll_responses" ++ [responseRow p u now]) s)
    p u
  = (responsesBy s p u ++ [responseRow p u now])%list.
Proof.
  unfold responsesBy. rewrite rows_set_rows, List.filter_app. cbn [List.filter].
  by rewrite responseRow_by.
Qed.

(** X19: a user answers a poll once.  On a store that reports no error,
    the first response of a user goes through, [hasUserRespondedToPoll] is
    then true, and a further response of that user to that poll throws and
    changes nothing. *)
Theorem respond_once p u answers now answers' now' (s : Store) :
  responsesBy s p u = [] →
  let first := Polls.submitPollResponse p u answers now (calm s) in
  first.1 = Ok ()
  ∧ (Polls.hasUserRespondedToPoll p u first.2).1 = Ok true
  ∧ Polls.submitPollResponse p u answers' now' first.2
    = (Throw "User has already responded to this poll", first.2).
Proof.
  intros Hnone first. subst first. unfold calm.
  unfold Polls.submitPollResponse, Polls.hasUserRespondedToPoll, bind, db_single, db_insert.
  rewrite call_run. cbn [fault tail fst snd]. rewrite query_responses, Hnone.
  cbn [fmap list_fmap fst snd data failed]. exec. fold (responseRow p u now).
  rewrite !query_responses.
  assert (∀ x, responsesBy (set_rows "poll_answers" x
                 (set_rows "poll_responses"
                    (rows s "poll_responses" ++ [responseRow p u now]) s)) p u
               = [responseRow p u now]) as Hby.
  { intros x. pose proof (responsesBy_insert s p u now) as H. rewrite Hnone in H.
    unfold responsesBy in *. by rewrite rows_set_rows_ne by done. }
  rewrite !Hby. cbn [fmap list_fmap]. exec. by unfold throw.
Qed.

Lemma respond_once_witness :
  responsesBy ∅ "p" "u" = []
  ∧ Polls.submitPollResponse "p" "u" [("q", "b")] 2
      (Polls.submitPollResponse "p" "u" [("q", "a")] 1 (calm ∅)).2
    = (Throw "User has already responded to this poll",
       (Polls.submitPollResponse "p" "u" [("q", "a")] 1 (calm ∅)).2).
Proof.
  assert (responsesBy ∅ "p" "u" = []) as H.
  { unfold responsesBy. by rewrite rows_empty. }
  split; [exact H|].
  exact (proj2 (proj2 (respond_once "p" "u" [("q", "a")] 1 [("q", "b")] 2 ∅ H))).
Defined.

(** X20: the guard against a second response is the lookup alone.  If the
    lookup fails and the insertion goes through, a user who has responded is
    recorded once more; and as two rows now match, [hasUserRespondedToPoll]
    answers false for that user. *)
Theorem failed_lookup_duplicates_response p u answers now (s : Store) (r : obj) :
  responsesBy s p u = [r] →
  let again := Polls.submitPollResponse p u answers now {| db := s; faults := [true] |} in
  again.1 = Ok ()
  ∧ responsesBy (db again.2) p u = [r; responseRow p u now]
  ∧ (Polls.hasUserRespondedToPoll p u again.2).1 = Ok false.
Proof.
  intros Hone again. subst again.
  unfold Polls.submitPollResponse, Polls.hasUserRespondedToPoll, bind, db_single, db_insert.
  exec. fold (responseRow p u now). rewrite !query_responses.
  assert (∀ x, responsesBy (set_rows "poll_answers" x
                 (set_rows "poll_responses"
                    (rows s "poll_responses" ++ [responseRow p u now]) s)) p u
               = [r; responseRow p u now]) as Hby.
  { intros x. pose proof (responsesBy_insert s p u now) as H. rewrite Hone in H.
    unfold responsesBy in *. by rewrite rows_set_rows_ne by done. }
  cbn [db]. rewrite !Hby. cbn [fmap list_fmap]. by exec.
Qed.

Lemma failed_lookup_duplicates_response_witness :
  let s := set_rows "poll_responses" [responseRow "p" "u" 1] ∅ in
  responsesBy s "p" "u" = [responseRow "p" "u" 1]
  ∧ (Polls.hasUserRespondedToPoll "p" "u"
       (Polls.submitPollResponse "p" "u" [] 2 {| db := s; faults := [true] |}).2).1
    = Ok false.
Proof.
  intros s.
  assert (responsesBy s "p" "u" = [responseRow "p" "u" 1]) as H.
  { unfold responsesBy, s. rewrite rows_set_rows. cbn [List.filter].
    by rewrite responseRow_by. }
  split; [exact H|].
  exact (proj2 (proj2 (failed_lookup_duplicates_response "p" "u" [] 2 s _ H))).
Defined.

End PollResponses.

Section PollCreation.

(** On a store that reports no error the questions are appended, in the
    order given; only the questions and the options change. *)
Lemma insertQuestions_calm pid qs (s : Store) :
  ∃ s', Polls.insertQuestions pid qs (calm s) = (Ok (), calm s')
        ∧ rows s' "poll_questions"
          = (rows s "poll_questions" ++ (questionRow pid <$> qs))%list
        ∧ ∀ t, t ≠ "poll_questions" → t ≠ "poll_options" → rows s' t = rows s t.
Proof.
  revert s. induction qs as [|q qs IH]; intros s.
  - exists s. cbn. by rewrite app_nil_r.
  - cbn [Polls.insertQuestions]. unfold calm, bind, db_insert. exec.
    fold (questionRow pid q).
    set (s1 := set_rows "poll_questions" _ s).
    destruct (Polls.i_options q) as [|o os].
    + exec. destruct (IH s1) as (s' & Hrun & Hq & Hother). unfold calm in Hrun.
      rewrite Hrun. exists s'. split; [done|]. split.
      * rewrite Hq. unfold s1. rewrite rows_set_rows, fmap_cons. by rewrite <- app_assoc.
      * intros t H1 H2. rewrite Hother by done. unfold s1. by rewrite rows_set_rows_ne.
    + exec. set (s2 := set_rows "poll_options" _ s1).
      destruct (IH s2) as (s' & Hrun & Hq & Hother). unfold calm in Hrun.
      rewrite Hrun. exists s'. split; [done|]. split.
      * rewrite Hq. unfold s2, s1. rewrite rows_set_rows_ne by done.
        rewrite rows_set_rows, fmap_cons. by rewrite <- app_assoc.
      * intros t H1 H2. rewrite Hother by done. unfold s2, s1.
        by rewrite !rows_set_rows_ne by done.
Qed.

Lemma Qle_bool_total (a b : Q) : Qle_bool a b = true ∨ Qle_bool b a = true.
Proof. rewrite !Qle_bool_iff. destruct (Qlt_le_dec a b) as [H|H]; [left; lra|by right]. Qed.

Lemma questionRow_poll pid q : f_eq "poll_id" (VStr pid) (questionRow pid q) = true.
Proof. apply f_eq_str. unfold questionRow. by rewrite literal_lookup. Qed.

Lemma filter_all_true {A} (p : A → bool) (l : list A) :
  Forall (λ x, p x = true) l → List.filter p l = l.
Proof. induction 1 as [|x l Hx _ IH]; [done|]. simpl. by rewrite Hx, IH. Qed.

(** X21: a poll created under an id that no stored poll and no stored
    question refers to is then found by [getPollById], with the submitted
    title and switch; its questions are the submitted ones, each with its
    text and position, and they come in ascending position whatever the
    order in which they were submitted. *)
Theorem createPoll_then_getPollById d now (s : Store) :
  pollsWith s (time_id now) = [] → questionsOf s (time_id now) = [] →
  let created := Polls.createPoll d now (calm s) in
  created.1 = Ok (time_id now)
  ∧ ∃ poll, (Polls.getPollById (time_id now) created.2).1 = Ok (Some poll)
      ∧ Polls.title poll = Some (VStr (Polls.i_title d))
      ∧ Polls.isActive poll = Some (VBool (Polls.i_isActive d))
      ∧ Polls.createdAt poll = Some (VTime now)
      ∧ returned <$> Polls.questions poll ≡ₚ submitted <$> Polls.i_questions d
      ∧ Sorted ascending (Polls.questions poll).
Proof.
  intros Hp Hq created. subst created.
  unfold Polls.createPoll, bind, db_insert, calm. exec. fold (pollRow d now).
  set (s1 := set_rows "polls" _ s).
  destruct (insertQuestions_calm (time_id now) (Polls.i_questions d) s1)
    as (s2 & Hrun & Hqs & Hother).
  unfold calm in Hrun. rewrite Hrun. cbn [fst snd ret]. split; [done|].
  assert (rows s2 "polls" = (rows s "polls" ++ [pollRow d now])%list) as Hpolls.
  { rewrite Hother by done. apply rows_set_rows. }
  assert (rows s2 "poll_questions"
          = (rows s "poll_questions" ++ (questionRow (time_id now) <$> Polls.i_questions d))%list)
    as Hquestions.
  { rewrite Hqs. unfold s1. by rewrite rows_set_rows_ne. }
  unfold Polls.getPollById, bind, db_single. exec.
  unfold query, unordered. rewrite Hpolls, List.filter_app.
  unfold pollsWith in Hp. rewrite Hp. cbn [List.filter app].
  replace (f_eq "id" (VStr (time_id now)) (pollRow d now)) with true
    by (symmetry; apply f_eq_str; unfold pollRow; by rewrite literal_lookup).
  cbn [omap list_omap Polls.pollShape]. exec.
  eexists. split; [reflexivity|].
  unfold Polls.dbToPoll.
  cbn [Polls.title Polls.isActive Polls.createdAt Polls.questions].
  rewrite !lookup_insert_ne by done. rewrite lookup_insert_eq, as_rows_VRows.
  assert (related s2 "poll_questions" "poll_id" (pollRow d now !! "id")
          = questionRow (time_id now) <$> Polls.i_questions d) as ->.
  { unfold pollRow. rewrite literal_lookup. cbn [assoc String.eqb Ascii.eqb Bool.eqb related].
    rewrite Hquestions, List.filter_app. unfold questionsOf in Hq. rewrite Hq.
    cbn [app]. apply filter_all_true, Forall_fmap, Forall_forall. intros q _.
    apply questionRow_poll. }
  unfold pollRow at 1 2 3. rewrite !literal_lookup.
  conjuncts; try done.
  - rewrite sort_by_perm. rewrite <- !list_fmap_compose.
    match goal with |- ?a ≡ₚ ?b => replace a with b; [done|] end.
    symmetry. apply list_fmap_ext. intros _ q _.
    unfold returned, submitted, compose.
    cbn [Polls.q_questionText Polls.q_questionOrder].
    rewrite !lookup_insert_ne by done.
    unfold questionRow. by rewrite !literal_lookup.
  - eapply Sorted_weaken; [|apply sort_by_sorted].
    + intros a b H. by apply Qle_bool_iff in H.
    + intros a b. apply Qle_bool_total.
Qed.

Lemma createPoll_then_getPollById_witness :
  pollsWith ∅ (time_id 7) = [] ∧ questionsOf ∅ (time_id 7) = []
  ∧ ∃ poll,
      (Polls.getPollById (time_id 7) (Polls.createPoll twoQuestions 7 (calm ∅)).2).1
      = Ok (Some poll)
      ∧ returned <$> Polls.questions poll ≡ₚ submitted <$> Polls.i_questions twoQuestions
      ∧ Sorted ascending (Polls.questions poll).
Proof.
  assert (pollsWith ∅ (time_id 7) = []) as H1 by (unfold pollsWith; by rewrite rows_empty).
  assert (questionsOf ∅ (time_id 7) = []) as H2 by (unfold questionsOf; by rewrite rows_empty).
  split; [exact H1|]. split; [exact H2|].
  destruct (createPoll_then_getPollById twoQuestions 7 ∅ H1 H2)
    as (_ & poll & Hg & _ & _ & _ & Hperm & Hsorted).
  exists poll. split; [exact Hg|]. split; [exact Hperm|exact Hsorted].
Defined.

End PollCreation.

Section PollStatus.

Lemma shaped_id (s : Store) (r : obj) :
  ∃ r', Polls.pollShape s r = Some r' ∧ Polls.id (Polls.dbToPoll r') = r !! "id".
Proof.
  eexists. split; [reflexivity|]. unfold Polls.dbToPoll. cbn [Polls.id].
  by rewrite lookup_insert_ne.
Qed.

Lemma shaped_elem (s : Store) (l : list obj) pid :
  Exists (poll_is pid) (Polls.dbToPoll <$> omap (Polls.pollShape s) l)
  ↔ ∃ r, r ∈ l ∧ r !! "id" = Some (VStr pid).
Proof.
  rewrite Exists_exists. unfold poll_is. split.
  - intros (p & (r' & -> & (r & Hr & Hs)%list_elem_of_omap)%list_elem_of_fmap & Hid).
    exists r. split; [done|]. destruct (shaped_id s r) as (r'' & Hs' & <-). congruence.
  - intros (r & Hr & Hid). destruct (shaped_id s r) as (r' & Hs & Hid').
    exists (Polls.dbToPoll r'). split; [|congruence].
    apply list_elem_of_fmap. exists r'. split; [done|]. apply list_elem_of_omap. by exists r.
Qed.

(** X23: once [updatePollStatus] went through, [getActivePolls] lists a
    poll with the given id exactly if such a poll is stored, it was switched
    on, and its end is either open or later than the moment of the call. *)
Theorem updatePollStatus_then_active pid a until now (s : Store) (fs : list bool) :
  let after := (Polls.updatePollStatus pid a until (calm2 s fs)).2 in
  Exists (poll_is pid) (result [] (Polls.getActivePolls now after).1)
  ↔ pollsWith s pid ≠ [] ∧ a = true ∧ ∀ t, until = Some t → (now < t)%Z.
Proof.
  intros after. subst after. unfold calm2.
  unfold Polls.updatePollStatus, Polls.getActivePolls, bind, db_update, db_select. exec.
  fold (pollStatusPatch a until). cbn [result default from_option id]. unfold query.
  rewrite shaped_elem, rows_set_rows.
  set (P := patch_row (f_eq "id" (VStr pid)) (pollStatusPatch a until)).
  set (act := f_and _ _).
  assert (∀ r : obj, f_eq "id" (VStr pid) r = true →
            (act (P r) = true ↔ a = true ∧ ∀ t, until = Some t → (now < t)%Z)) as Hact.
  { intros r Hr. subst act P. unfold patch_row. rewrite Hr.
    unfold f_and, f_or, f_eq, f_is_null, f_gt, column. rewrite !union_lookup.
    unfold pollStatusPatch. rewrite !literal_lookup.
    cbn [assoc String.eqb Ascii.eqb Bool.eqb value_eqb].
    rewrite andb_true_iff, Bool.eqb_true_iff.
    destruct until as [t|]; cbn [orb value_ltb].
    - rewrite Z.ltb_lt. split; [intros [-> H]; split; [done|]; by intros ? [= <-]|].
      intros [-> H]. split; [done|]. by apply H.
    - split; [intros [-> _]; by split|]. by intros [-> _]. }
  split.
  - intros (r' & [Hin Hp]%sort_by_elem%filter_elem & Hid).
    apply list_elem_of_fmap in Hin as (r & -> & Hr).
    assert (f_eq "id" (VStr pid) r = true) as Hr_id.
    { apply f_eq_str in Hid. subst P.
      by rewrite patched_id in Hid by (unfold pollStatusPatch; by rewrite literal_lookup). }
    split; [|by apply (Hact r)].
    intros Hnil. assert (r ∈ pollsWith s pid) as H by by apply filter_elem.
    rewrite Hnil in H. by apply elem_of_nil in H.
  - intros (Hne & Ha). destruct (pollsWith s pid) as [|r rs] eqn:Hw; [done|].
    assert (r ∈ pollsWith s pid) as [Hr Hid]%filter_elem by (rewrite Hw; left).
    exists (P r). split.
    + apply sort_by_elem, filter_elem. split; [|by apply Hact].
      apply list_elem_of_fmap. by exists r.
    + apply f_eq_str. subst P.
      by rewrite patched_id by (unfold pollStatusPatch; by rewrite literal_lookup).
Qed.

End PollStatus.

(** * Support tickets *)

Section Tickets.

Lemma noFilters_all (r : obj) :
  f_and (when_present (SupportTickets.t_status SupportTickets.noFilters)
           (λ x, f_eq "status" (VStr x)))
    (f_and (between "created_at" (SupportTickets.t_dateFrom SupportTickets.noFilters)
              (SupportTickets.t_dateTo SupportTickets.noFilters))
       (when_present (SupportTickets.searchQuery SupportTickets.noFilters)
          (λ x, f_or (f_ilike "user_name" x)
                  (f_or (f_ilike "user_email" x) (f_ilike "subject" x))))) r = true.
Proof. reflexivity. Qed.

(** What [getSupportTickets] without filters returns on a store that
    reports no error. *)
Lemma getSupportTickets_calm now (s : Store) :
  ∀ t, t ∈ result [] (SupportTickets.getSupportTickets SupportTickets.noFilters now (calm s)).1
       ↔ ∃ r, r ∈ rows s "support_tickets" ∧ SupportTickets.stale now r = false
              ∧ t = SupportTickets.dbToTicket r.
Proof.
  intros t. unfold SupportTickets.getSupportTickets, calm, bind, db_delete, db_select. exec.
  cbn [result default from_option id]. unfold query. rewrite omap_star, rows_set_rows.
  rewrite list_elem_of_fmap. split.
  - intros (r & -> & [[Hr Hs]%filter_elem _]%sort_by_elem%filter_elem).
    exists r. split; [done|]. split; [|done]. by destruct (SupportTickets.stale now r).
  - intros (r & Hr & Hs & ->). exists r. split; [done|].
    apply sort_by_elem, filter_elem. split; [|apply noFilters_all].
    apply filter_elem. split; [done|]. by rewrite Hs.
Qed.

Lemma dbToTicket_other (r : obj) k :
  k ≠ "admin_notes" → k ≠ "resolved_at" → SupportTickets.dbToTicket r !! k = r !! k.
Proof. intros. unfold SupportTickets.dbToTicket. by rewrite !lookup_insert_ne. Qed.

(** X24: a ticket that was created is listed by [getSupportTickets] at any
    later moment, however late: it is open, and the automated deletion never
    removes an open ticket.  It is listed with its subject and message, and
    with null for the resolution time and the admin's notes. *)
Theorem createSupportTicket_then_listed d now now' (s : Store) :
  let created := SupportTickets.createSupportTicket d now (calm s) in
  created.1 = Ok ()
  ∧ ∃ t, t ∈ result []
               (SupportTickets.getSupportTickets SupportTickets.noFilters now' created.2).1
      ∧ ticket_is (time_id now) t
      ∧ t !! "status" = Some (VStr "open")
      ∧ t !! "subject" = Some (VStr (SupportTickets.subject d))
      ∧ t !! "message" = Some (VStr (SupportTickets.message d))
      ∧ t !! "created_at" = Some (VTime now)
      ∧ t !! "resolved_at" = Some VNull
      ∧ t !! "admin_notes" = Some VNull.
Proof.
  intros created. subst created.
  unfold SupportTickets.createSupportTicket, calm, bind, db_insert. exec.
  fold (ticketRow d now). split; [done|].
  exists (SupportTickets.dbToTicket (ticketRow d now)). split.
  - apply (getSupportTickets_calm now'). exists (ticketRow d now).
    rewrite rows_set_rows. split; [apply elem_of_app; right; left|]. split; [|done].
    destruct (SupportTickets.stale now' (ticketRow d now)) eqn:E; [|done].
    apply stale_spec in E as (st & t & Hst & Hin & _).
    unfold ticketRow in Hst. rewrite literal_lookup in Hst. injection Hst as <-.
    unfold inactive in Hin. by destruct Hin as [|[|]].
  - unfold ticket_is. rewrite !dbToTicket_other by done.
    unfold SupportTickets.dbToTicket. rewrite lookup_insert_ne by done.
    rewrite !lookup_insert_eq. unfold ticketRow. by rewrite !literal_lookup.
Qed.

Lemma ticketPatch_other st notes now k :
  k = "id" ∨ k = "created_at" ∨ k = "subject" ∨ k = "message" →
  ticketPatch st notes now !! k = None.
Proof.
  intros [-> | [-> | [-> | ->]]]; unfold ticketPatch; by rewrite literal_lookup.
Qed.

(** X25: [updateTicketStatus] writes the status, the notes and the moment
    of the update; it writes the resolution time only when the new status is
    'resolved' or 'closed', so that a ticket that is reopened keeps the
    resolution time it had.  An updated ticket is then still listed at a
    later moment unless its new status is 'in-progress', 'resolved' or
    'closed' and the update is more than thirty days old. *)
Theorem updateTicketStatus_then_listed tid st notes now now' (s : Store) (r : obj) :
  ticketsWith s tid = [r] →
  let updated := SupportTickets.updateTicketStatus tid st notes now (calm s) in
  let listed :=
    result [] (SupportTickets.getSupportTickets SupportTickets.noFilters now' updated.2).1 in
  updated.1 = Ok ()
  ∧ (∃ r', ticketsWith (db updated.2) tid = [r']
       ∧ r' !! "status" = Some (VStr st)
       ∧ r' !! "admin_notes" = Some (nullable notes)
       ∧ r' !! "updated_at" = Some (VTime now)
       ∧ r' !! "resolved_at" = (if String.eqb st "resolved" || String.eqb st "closed"
                                then Some (VTime now) else r !! "resolved_at")
       ∧ r' !! "created_at" = r !! "created_at")
  ∧ (Exists (ticket_is tid) listed
     ↔ ¬ (inactive st ∧ (now < SupportTickets.thirtyDaysBefore now')%Z)).
Proof.
  intros Hone updated listed. subst listed updated.
  unfold SupportTickets.updateTicketStatus, calm, bind, db_update. exec.
  fold (ticketPatch st notes now). fold (calm (set_rows "support_tickets"
    (patch_row (f_eq "id" (VStr tid)) (ticketPatch st notes now) <$> rows s "support_tickets") s)).
  set (s1 := set_rows _ _ s). split; [done|].
  assert (ticketsWith s1 tid = [ticketPatch st notes now ∪ r]) as Hone'.
  { unfold ticketsWith, s1 in *. rewrite rows_set_rows.
    rewrite filter_patched by (apply ticketPatch_other; by left). by rewrite Hone. }
  assert (r ∈ ticketsWith s tid) as [Hr Hid%f_eq_str]%filter_elem by (rewrite Hone; left).
  assert (∀ k x, ticketPatch st notes now !! k = Some x →
                 (ticketPatch st notes now ∪ r) !! k = Some x) as Hset.
  { intros k x H. by rewrite union_lookup, H. }
  split.
  - eexists. split; [exact Hone'|].
    conjuncts; try (apply Hset; unfold ticketPatch; by rewrite literal_lookup).
    + rewrite union_lookup. unfold ticketPatch. rewrite literal_lookup.
      cbn [assoc String.eqb Ascii.eqb Bool.eqb]. by destruct (_ || _).
    + rewrite union_lookup, ticketPatch_other; [done|]. right; by left.
  - rewrite Exists_exists. split.
    + intros (t & (r' & Hin & Hstale & ->)%getSupportTickets_calm & Ht) [Hst Hold].
      unfold ticket_is in Ht. rewrite dbToTicket_other in Ht by done.
      assert (r' ∈ ticketsWith s1 tid) as Hin'.
      { apply filter_elem. split; [done|]. by apply f_eq_str. }
      rewrite Hone' in Hin'. apply list_elem_of_singleton in Hin' as ->.
      assert (SupportTickets.stale now' (ticketPatch st notes now ∪ r) = true) as Hs;
        [|congruence].
      apply stale_spec. exists st, now. split; [|split; [done|split; [|done]]].
      * apply Hset. unfold ticketPatch. by rewrite literal_lookup.
      * apply Hset. unfold ticketPatch. by rewrite literal_lookup.
    + intros Hnot. exists (SupportTickets.dbToTicket (ticketPatch st notes now ∪ r)). split.
      * apply getSupportTickets_calm. eexists. split; [|split; [|reflexivity]].
        -- assert (ticketPatch st notes now ∪ r ∈ ticketsWith s1 tid) as H
             by (rewrite Hone'; left).
           by apply filter_elem in H as [? _].
        -- destruct (SupportTickets.stale now' _) eqn:E; [|done]. exfalso. apply Hnot.
           apply stale_spec in E as (st' & t & Hst & Hin & Hup & Hlt).
           rewrite (Hset "status" (VStr st)) in Hst
             by (unfold ticketPatch; by rewrite literal_lookup).
           rewrite (Hset "updated_at" (VTime now)) in Hup
             by (unfold ticketPatch; by rewrite literal_lookup).
           injection Hst as <-. injection Hup as <-. done.
      * unfold ticket_is. rewrite dbToTicket_other by done.
        rewrite union_lookup, ticketPatch_other; [done|]. by left.
Qed.

Lemma ticketRow_id d now : f_eq "id" (VStr (time_id now)) (ticketRow d now) = true.
Proof. apply f_eq_str. unfold ticketRow. by rewrite literal_lookup. Qed.

(** A ticket closed at time 5 is listed one day later. *)
Lemma updateTicketStatus_then_listed_witness :
  let s := set_rows "support_tickets" [ticketRow someTicket 5] ∅ in
  ticketsWith s (time_id 5) = [ticketRow someTicket 5]
  ∧ (Exists (ticket_is (time_id 5))
       (result []
          (SupportTickets.getSupportTickets SupportTickets.noFilters 86400005
             (SupportTickets.updateTicketStatus (time_id 5) "closed" None 5 (calm s)).2).1)
     ↔ ¬ (inactive "closed" ∧ (5 < SupportTickets.thirtyDaysBefore 86400005)%Z)).
Proof.
  intros s.
  assert (ticketsWith s (time_id 5) = [ticketRow someTicket 5]) as H.
  { unfold ticketsWith, s. rewrite rows_set_rows. cbn [List.filter].
    by rewrite ticketRow_id. }
  split; [exact H|].
  exact (proj2 (proj2 (updateTicketStatus_then_listed (time_id 5) "closed" None 5 86400005
                         s (ticketRow someTicket 5) H))).
Defined.

Lemma is_string_f_eq (r : obj) c x : is_string (r !! c) x = f_eq c (VStr x) r.
Proof. unfold is_string, f_eq, column. by destruct (r !! c) as [[]|]. Qed.

Lemma filter_f_all (l : list obj) : List.filter f_all l = l.
Proof. induction l as [|x l IH]; [done|]. cbn. by rewrite IH. Qed.

Lemma f_eq_text (r : obj) c x :
  f_eq c (VStr x) r = match r !! c with Some (VStr y) => String.eqb y x | _ => false end.
Proof. unfold f_eq, column. by destruct (r !! c) as [[]|]. Qed.

Lemma tally_counts (l : list obj) (t o i r c : nat) :
  foldl SupportTickets.tally (t, o, i, r, c) l
  = ((t + length l)%nat,
     (o + length (List.filter (f_eq "status" (VStr "open")) l))%nat,
     (i + length (List.filter (f_eq "status" (VStr "in-progress")) l))%nat,
     (r + length (List.filter (f_eq "status" (VStr "resolved")) l))%nat,
     (c + length (List.filter (f_eq "status" (VStr "closed")) l))%nat).
Proof.
  revert t o i r c. induction l as [|x l IH]; intros t o i r c.
  - cbn. by rewrite !Nat.add_0_r.
  - cbn [foldl SupportTickets.tally List.filter].
    rewrite !(f_eq_text x). unfold is_string.
    destruct (x !! "status") as [[|b|q|st|tm|es|a|ob]|];
      try (rewrite IH; cbn [length]; repeat (apply pair_equal_spec; split); lia).
    destruct (String.eqb_spec st "open") as [->|];
      [rewrite IH; cbn [length String.eqb Ascii.eqb Bool.eqb]; repeat (apply pair_equal_spec; split); lia|].
    destruct (String.eqb_spec st "in-progress") as [->|];
      [rewrite IH; cbn [length String.eqb Ascii.eqb Bool.eqb]; repeat (apply pair_equal_spec; split); lia|].
    destruct (String.eqb_spec st "resolved") as [->|];
      [rewrite IH; cbn [length String.eqb Ascii.eqb Bool.eqb]; repeat (apply pair_equal_spec; split); lia|].
    destruct (String.eqb_spec st "closed") as [->|];
      rewrite IH; cbn [length String.eqb Ascii.eqb Bool.eqb];
      repeat (apply pair_equal_spec; split); lia.
Qed.

Lemma filter_status_perm (l l' : list obj) st :
  l ≡ₚ l' →
  length (List.filter (f_eq "status" (VStr st)) l)
  = length (List.filter (f_eq "status" (VStr st)) l').
Proof.
  induction 1 as [|x l l' _ IH|x y l|l l' l'' _ IH1 _ IH2]; cbn [List.filter]; try done.
  - destruct (f_eq _ _ x); cbn [length]; by rewrite IH.
  - by destruct (f_eq _ _ x), (f_eq _ _ y).
  - by rewrite IH1.
Qed.

Lemma filter_status_project (l : list obj) st :
  List.filter (f_eq "status" (VStr st)) (project ["status"] <$> l)
  = project ["status"] <$> List.filter (f_eq "status" (VStr st)) l.
Proof.
  apply filter_fmap_same. intros r. unfold f_eq, column.
  by rewrite project_lookup by set_solver.
Qed.

(** X26: when its first call goes through, [getSupportTicketStats] counts
    every stored ticket in the total and, under each of the four statuses,
    the tickets that have it - whatever the two later calls report. *)
Theorem getSupportTicketStats_counts (s : Store) (fs : list bool) :
  ∃ stats,
    (SupportTickets.getSupportTicketStats {| db := s; faults := false :: fs |}).1 = Ok stats
    ∧ SupportTickets.total stats = length (rows s "support_tickets")
    ∧ SupportTickets.open stats = withStatus s "open"
    ∧ SupportTickets.inProgress stats = withStatus s "in-progress"
    ∧ SupportTickets.resolved stats = withStatus s "resolved"
    ∧ SupportTickets.closed stats = withStatus s "closed".
Proof.
  unfold SupportTickets.getSupportTicketStats, bind, db_select.
  rewrite call_run. cbn [fault fst snd error data fetched tail default from_option id].
  rewrite tally_counts. cbn [Nat.add].
  set (l := query s "support_tickets" (columns ["status"]) f_all (order "status" true)).
  assert (length l = length (rows s "support_tickets")) as Hlen.
  { unfold l, query, order. by rewrite omap_columns, length_fmap, sort_by_length, filter_f_all. }
  assert (∀ st, length (List.filter (f_eq "status" (VStr st)) l) = withStatus s st) as Hst.
  { intros st. unfold l, query, order, withStatus.
    rewrite omap_columns, filter_status_project, length_fmap.
    by rewrite (filter_status_perm _ _ st (sort_by_perm _ _)), filter_f_all. }
  exec; eexists; (split; [reflexivity|]);
    cbn [SupportTickets.total SupportTickets.open SupportTickets.inProgress
         SupportTickets.resolved SupportTickets.closed];
    by rewrite Hlen, !Hst.
Qed.

End Tickets.

(** * Users *)

Section UserAccounts.

(** X27: a user added under an email that no stored user has is then found
    by [findUserByEmail] under that email in any capitalisation: with the
    email in lower case, not blocked, and with the password as it was
    submitted.  What [addUser] had returned is that row without the
    password. *)
Theorem addUser_then_findUserByEmail user now email (s : Store) :
  usersByEmail s (toLowerCase (Users.u_email user)) = [] →
  toLowerCase email = toLowerCase (Users.u_email user) →
  let added := Users.addUser user now (calm s) in
  ∃ u, (Users.findUserByEmail email added.2).1 = Ok (Some u)
    ∧ added.1 = Ok (Some (delete "password" u))
    ∧ u !! "id" = Some (VStr (time_id now))
    ∧ u !! "email" = Some (VStr (toLowerCase (Users.u_email user)))
    ∧ u !! "is_blocked" = Some (VBool false)
    ∧ (∀ pw, Users.u_password user = Some pw → u !! "password" = Some (VStr pw)).
Proof.
  intros Hfresh Hemail added. subst added.
  unfold Users.addUser, calm, bind, db_insert_returning. exec.
  set (new := literal _).
  unfold Users.findUserByEmail, bind, db_single. exec.
  unfold query, unordered. rewrite omap_star, rows_set_rows, List.filter_app, Hemail.
  unfold usersByEmail in Hfresh. rewrite Hfresh. cbn [List.filter app].
  replace (f_eq "email" (VStr (toLowerCase (Users.u_email user))) new) with true
    by (symmetry; apply f_eq_str; unfold new; by rewrite literal_lookup).
  exec. exists new. split; [done|]. split; [done|].
  unfold new. rewrite !literal_lookup. conjuncts; try done.
  intros pw ->. cbn [assoc String.eqb Ascii.eqb Bool.eqb present default from_option id].
  by destruct (String.eqb_spec pw "") as [->|].
Qed.

Lemma addUser_then_findUserByEmail_witness :
  usersByEmail ∅ (toLowerCase (Users.u_email bob)) = []
  ∧ toLowerCase "BOB@example.ORG" = toLowerCase (Users.u_email bob)
  ∧ ∃ u, (Users.findUserByEmail "BOB@example.ORG" (Users.addUser bob 9 (calm ∅)).2).1
         = Ok (Some u)
      ∧ u !! "email" = Some (VStr (toLowerCase (Users.u_email bob)))
      ∧ (∀ pw, Users.u_password bob = Some pw → u !! "password" = Some (VStr pw)).
Proof.
  assert (usersByEmail ∅ (toLowerCase (Users.u_email bob)) = []) as H1.
  { unfold usersByEmail. by rewrite rows_empty. }
  assert (toLowerCase "BOB@example.ORG" = toLowerCase (Users.u_email bob)) as H2
    by reflexivity.
  split; [exact H1|]. split; [exact H2|].
  destruct (addUser_then_findUserByEmail bob 9 "BOB@example.ORG" ∅ H1 H2)
    as (u & Hf & _ & _ & He & _ & Hp).
  exists u. split; [exact Hf|]. split; [exact He|exact Hp].
Defined.

Lemma cleaned_lookup (profileData : obj) k :
  k = "id" ∨ k = "email" ∨ k = "password" →
  map_imap (λ key v, Some (Users.cleanField key v))
    (delete "createdAt" (delete "password" (delete "email" (delete "id" profileData)))) !! k
  = None.
Proof.
  intros Hk. rewrite map_lookup_imap.
  assert (delete "createdAt" (delete "password" (delete "email" (delete "id" profileData)))
            !! k = None) as ->; [|done].
  destruct Hk as [-> | [-> | ->]].
  - rewrite !lookup_delete_ne by done. apply lookup_delete_eq.
  - rewrite !lookup_delete_ne by done. apply lookup_delete_eq.
  - rewrite lookup_delete_ne by done. apply lookup_delete_eq.
Qed.

(** X28: whatever profile it is given and whatever the store reports,
    [updateUserProfile] leaves the id, the email and the password of every
    user as they are, and the number of users too. *)
Theorem updateUserProfile_keeps_identity uid (profileData : obj) (w : World) :
  Forall2 same_identity (rows (db w) "users")
    (rows (db (Users.updateUserProfile uid profileData w).2) "users").
Proof.
  destruct w as [s fs]. unfold Users.updateUserProfile, bind, db_update.
  assert (∀ l : list obj, Forall2 same_identity l l) as Hrefl.
  { intros l. apply Forall_Forall2_diag, Forall_forall. intros. by unfold same_identity. }
  set (patch := map_imap _ _).
  assert (∀ id' w, db (Users.findUserById id' w).2 = db w) as Hfind.
  { intros id' [s' fs']. unfold Users.findUserById, bind, db_single. rewrite call_run.
    destruct (fault fs'); [done|]. cbn [fst snd].
    by destruct (query _ _ _ _ _) as [|? [|]]. }
  rewrite call_run. destruct (fault fs); cbn [fst snd error failed fetched ret db];
    [apply Hrefl|].
  rewrite Hfind. cbn [db]. rewrite rows_set_rows.
  apply Forall2_fmap_r, Forall_Forall2_diag, Forall_forall. intros r _.
  unfold compose, patch_row. destruct (f_eq "id" (VStr uid) r); [|by unfold same_identity].
  unfold same_identity. rewrite !union_lookup. subst patch.
  rewrite !cleaned_lookup by auto. done.
Qed.

Lemma found_unique uid (s : Store) (r : obj) :
  usersWith s uid = [r] → found uid (calm s) = Some (delete "password" r).
Proof.
  intros H. unfold found, Users.findUserById, calm, bind, db_single. exec.
  unfold query, unordered. rewrite omap_star. unfold usersWith in H. by rewrite H.
Qed.

Lemma findUserById_calm uid (s : Store) : (Users.findUserById uid (calm s)).2 = calm s.
Proof.
  unfold Users.findUserById, calm, bind, db_single. exec.
  by destruct (query _ _ _ _ _) as [|? [|]].
Qed.

Lemma update_calm t patch p (s : Store) :
  db_update t patch p (calm s)
  = (Ok (fetched ()), calm (set_rows t (patch_row p patch <$> rows s t) s)).
Proof. unfold db_update, calm. by rewrite call_run. Qed.

Lemma usersWith_patched uid patch (s : Store) :
  patch !! "id" = None →
  usersWith (set_rows "users" (patch_row (f_eq "id" (VStr uid)) patch <$> rows s "users") s) uid
  = (patch ∪.) <$> usersWith s uid.
Proof. intros H. unfold usersWith. by rewrite rows_set_rows, filter_patched. Qed.

Lemma unblock_covers_block reason until_ (r : obj) :
  unblockPatch ∪ (blockPatch reason until_ ∪ r) = unblockPatch ∪ r.
Proof.
  apply map_eq. intros k. rewrite !union_lookup.
  unfold unblockPatch, blockPatch. rewrite !literal_lookup. cbn [assoc].
  destruct (String.eqb "is_blocked" k); [done|].
  destruct (String.eqb "block_reason" k); [done|].
  by destruct (String.eqb "blocked_until" k).
Qed.

(** X29: blocking and lifting a block.  After [blockUser] the user is
    found blocked, with the reason given; [unblockUser] then leaves the users
    exactly as if the block had never been set, with no reason and no end
    left.  A block is also lifted by [updateUserProfile], which writes an
    [is_blocked] it finds in the profile. *)
Theorem block_then_lift uid reason until_ (s : Store) (r : obj) :
  usersWith s uid = [r] →
  let blocked := (Users.blockUser uid reason until_ (calm s)).2 in
  (∃ u, found uid blocked = Some u
        ∧ u !! "is_blocked" = Some (VBool true)
        ∧ u !! "block_reason" = Some (VStr reason))
  ∧ rows (db (Users.unblockUser uid blocked).2) "users"
    = rows (db (Users.unblockUser uid (calm s)).2) "users"
  ∧ (∃ u, found uid (Users.unblockUser uid blocked).2 = Some u
          ∧ u !! "is_blocked" = Some (VBool false)
          ∧ u !! "block_reason" = Some VNull
          ∧ u !! "blocked_until" = Some VNull)
  ∧ (∃ u, found uid (Users.updateUserProfile uid {[ "is_blocked" := VBool false ]} blocked).2
          = Some u
          ∧ u !! "is_blocked" = Some (VBool false)
          ∧ u !! "block_reason" = Some (VStr reason)).
Proof.
  intros Hone blocked. subst blocked.
  unfold Users.blockUser, Users.unblockUser, bind.
  fold (blockPatch reason until_). fold unblockPatch.
  rewrite !update_calm. cbn [fst snd error fetched ret]. rewrite !update_calm.
  cbn [fst snd error fetched ret db calm]. rewrite !rows_set_rows.
  set (B := blockPatch reason until_).
  assert (B !! "id" = None) as HB by (unfold B, blockPatch; by rewrite literal_lookup).
  assert (unblockPatch !! "id" = None) as HU
    by (unfold unblockPatch; by rewrite literal_lookup).
  set (s1 := set_rows "users" (patch_row (f_eq "id" (VStr uid)) B <$> rows s "users") s).
  assert (usersWith s1 uid = [B ∪ r]) as H1.
  { unfold s1. rewrite usersWith_patched by done. by rewrite Hone. }
  conjuncts.
  - rewrite (found_unique _ _ _ H1). eexists. split; [reflexivity|].
    rewrite !lookup_delete_ne by done. rewrite !union_lookup.
    unfold B, blockPatch. by rewrite !literal_lookup.
  - rewrite <- list_fmap_compose. apply list_fmap_ext. intros _ x _.
    unfold compose, patch_row. destruct (f_eq "id" (VStr uid) x) eqn:E; [|by rewrite E].
    assert (f_eq "id" (VStr uid) (B ∪ x) = true) as ->
      by (unfold f_eq, column in *; by rewrite union_lookup, HB).
    apply unblock_covers_block.
  - assert (usersWith (set_rows "users"
              (patch_row (f_eq "id" (VStr uid)) unblockPatch <$> rows s1 "users") s1) uid
            = [unblockPatch ∪ (B ∪ r)]) as H2.
    { rewrite usersWith_patched by done. by rewrite H1. }
    unfold s1 in H2 at 1. rewrite rows_set_rows in H2. fold s1 in H2.
    rewrite (found_unique _ _ _ H2). eexists. split; [reflexivity|].
    rewrite !lookup_delete_ne by done. rewrite !union_lookup.
    unfold unblockPatch. by rewrite !literal_lookup.
  - unfold Users.updateUserProfile, bind. fold s1. rewrite update_calm.
    cbn [fst snd error fetched]. rewrite findUserById_calm.
    set (patch := map_imap _ _).
    assert (patch !! "id" = None) as HP by (apply cleaned_lookup; by left).
    assert (patch !! "is_blocked" = Some (VBool false)) as HPb.
    { unfold patch. rewrite map_lookup_imap. rewrite !lookup_delete_ne by done.
      by rewrite lookup_singleton_eq. }
    assert (patch !! "block_reason" = None) as HPr.
    { unfold patch. rewrite map_lookup_imap. rewrite !lookup_delete_ne by done.
      by rewrite lookup_singleton_ne. }
    assert (usersWith (set_rows "users"
              (patch_row (f_eq "id" (VStr uid)) patch <$> rows s1 "users") s1) uid
            = [patch ∪ (B ∪ r)]) as H2.
    { rewrite usersWith_patched by done. by rewrite H1. }
    rewrite (found_unique _ _ _ H2).
    eexists. split; [reflexivity|].
    rewrite !lookup_delete_ne by done. rewrite !union_lookup, HPb, HPr.
    unfold B, blockPatch. rewrite !literal_lookup. split; reflexivity.
Qed.

Lemma block_then_lift_witness :
  let s := set_rows "users" [alice "pw"] ∅ in
  usersWith s "1" = [alice "pw"]
  ∧ ∃ u, found "1"
           (Users.updateUserProfile "1" {[ "is_blocked" := VBool false ]}
              (Users.blockUser "1" "spam" None (calm s)).2).2 = Some u
         ∧ u !! "is_blocked" = Some (VBool false)
         ∧ u !! "block_reason" = Some (VStr "spam").
Proof.
  intros s.
  assert (usersWith s "1" = [alice "pw"]) as H.
  { unfold usersWith, s. rewrite rows_set_rows. cbn [List.filter].
    replace (f_eq "id" (VStr "1") (alice "pw")) with true; [done|].
    symmetry. apply f_eq_str. unfold alice. rewrite lookup_insert_ne by done.
    by rewrite literal_lookup. }
  split; [exact H|].
  exact (proj2 (proj2 (proj2 (block_then_lift "1" "spam" None s (alice "pw") H)))).
Defined.

End UserAccounts.

Section AdminMessages.

Lemma messageRow_id u msg now : f_eq "id" (VStr (time_id now)) (messageRow u msg now) = true.
Proof. apply f_eq_str. unfold messageRow. by rewrite literal_lookup. Qed.

(** X30: a message sent to a stored user under an id that no stored
    message has is listed for that user, by [getAdminMessages] and by
    [getUnreadMessages]; once marked as read it is no longer among the
    unread ones but still among the user's messages, now as read; and once
    deleted it is not listed at all. *)
Theorem adminMessage_lifecycle u msg now (s : Store) :
  usersWith s u ≠ [] → messagesWith s (time_id now) = [] →
  let sent := (Users.addAdminMessage u msg now (calm s)).2 in
  let read := (Users.markMessageAsRead (time_id now) sent).2 in
  let deleted := (Users.deleteAdminMessage (time_id now) read).2 in
  let all w := result [] (Users.getAdminMessages u w).1 in
  let unread w := result [] (Users.getUnreadMessages u w).1 in
  messageRow u msg now ∈ all sent
  ∧ messageRow u msg now ∈ unread sent
  ∧ Forall (λ m, ¬ message_is (time_id now) m) (unread read)
  ∧ Exists (λ m, message_is (time_id now) m ∧ m !! "isRead" = Some (VBool true)) (all read)
  ∧ Forall (λ m, ¬ message_is (time_id now) m) (all deleted).
Proof.
  intros _ Hfresh sent read deleted all unread. subst sent read deleted all unread.
  unfold Users.addAdminMessage, Users.markMessageAsRead, Users.deleteAdminMessage,
    Users.getAdminMessages, Users.getUnreadMessages, calm, bind,
    db_insert, db_update, db_delete, db_select.
  exec. fold (messageRow u msg now). set (new := messageRow u msg now).
  cbn [result default from_option id]. unfold query. rewrite !omap_star.
  repeat (rewrite rows_set_rows).
  set (R := literal [("isRead", Some (VBool true))]).
  assert (f_eq "userId" (VStr u) new = true) as Hu.
  { apply f_eq_str. unfold new, messageRow. by rewrite literal_lookup. }
  assert (f_eq "isRead" (VBool false) new = true) as Hr.
  { unfold f_eq, column, new, messageRow. by rewrite literal_lookup. }
  assert (f_eq "id" (VStr (time_id now)) new = true) as Hid by apply messageRow_id.
  assert (R !! "id" = None) as HR by (unfold R; by rewrite literal_lookup).
  conjuncts.
  - apply sort_by_elem, filter_elem. split; [|done]. apply elem_of_app. right. left.
  - apply sort_by_elem, filter_elem. split; [apply elem_of_app; right; left|].
    unfold f_and. by rewrite Hu, Hr.
  - apply sort_by_Forall, Forall_forall.
    intros m [(x & -> & Hx)%list_elem_of_fmap Hp]%filter_elem Hm.
    unfold message_is in Hm. apply f_eq_str in Hm. rewrite patched_id in Hm by done.
    unfold f_and in Hp. apply andb_true_iff in Hp as [_ Hp].
    unfold patch_row in Hp. rewrite Hm in Hp.
    unfold f_eq, column in Hp. rewrite union_lookup in Hp. unfold R in Hp.
    rewrite literal_lookup in Hp. discriminate Hp.
  - apply Exists_exists. exists (R ∪ new). split.
    + apply sort_by_elem, filter_elem. split.
      * apply list_elem_of_fmap. exists new. unfold patch_row. rewrite Hid.
        split; [done|]. apply elem_of_app. right. left.
      * unfold f_eq, column in *. rewrite union_lookup. unfold R at 1.
        rewrite literal_lookup. cbn [assoc String.eqb Ascii.eqb Bool.eqb]. exact Hu.
    + split.
      * unfold message_is. apply f_eq_str. unfold f_eq, column in *.
        by rewrite union_lookup, HR.
      * rewrite union_lookup. unfold R. by rewrite literal_lookup.
  - apply sort_by_Forall, Forall_forall.
    intros m [[_ Hn]%filter_elem _]%filter_elem Hm.
    unfold message_is in Hm. apply f_eq_str in Hm. by rewrite Hm in Hn.
Qed.

Lemma adminMessage_lifecycle_witness :
  let s := set_rows "users" [alice "pw"] ∅ in
  usersWith s "1" ≠ [] ∧ messagesWith s (time_id 3) = []
  ∧ messageRow "1" "Hello" 3
    ∈ result [] (Users.getUnreadMessages "1"
                   (Users.addAdminMessage "1" "Hello" 3 (calm s)).2).1.
Proof.
  intros s.
  assert (usersWith s "1" ≠ []) as Hu.
  { unfold usersWith, s. rewrite rows_set_rows. cbn [List.filter].
    replace (f_eq "id" (VStr "1") (alice "pw")) with true; [done|].
    symmetry. apply f_eq_str. unfold alice. rewrite lookup_insert_ne by done.
    by rewrite literal_lookup. }
  assert (messagesWith s (time_id 3) = []) as H.
  { unfold messagesWith, s. rewrite rows_set_rows_ne by done. by rewrite rows_empty. }
  split; [exact Hu|]. split; [exact H|].
  exact (proj1 (proj2 (adminMessage_lifecycle "1" "Hello" 3 s Hu H))).
Defined.

End AdminMessages.
